(** * pivot_vtab: a shallow embedding of pivot_vtab.c

    The development follows the C source function by function.  Every
    [int] of the source is a [Z]; a pointer that may be NULL is an [option];
    an array is a [list] read through [znth], which answers [None] outside
    its bounds, so that a read the C code performs out of bounds is visible
    as an undefined outcome instead of being given an invented value.

    The host engine (SQLite) is not part of the source.  It is represented
    by a small executable model of the interface the module calls
    (prepare, bind, step, reset, column access, get_table, declare_vtab)
    over one state of the database: a SQL text compiles to the same
    program every time, and a program yields the same rows for the same
    parameters and ends the same way: a step answers SQLITE_ROW for each
    row and then SQLITE_DONE, or the error code with which the run fails. *)

From Stdlib Require Import ZArith List String Ascii Bool Lia DecimalString SpecFloat.
Import ListNotations.

Local Open Scope string_scope.
Local Open Scope list_scope.
Local Open Scope Z_scope.

Infix "+++" := String.append (right associativity, at level 60).

(* ================================================================== *)
(** * Strings and small list utilities *)
(* ================================================================== *)

Module Text.

(** The two characters the source writes as escapes. *)
Definition dquote_char : ascii := ascii_of_nat 34.
Definition dquote : string := String dquote_char EmptyString.
Definition nl : string := String (ascii_of_nat 10) EmptyString.

(** [%d] of the printf family. *)
Definition decimal (z : Z) : string := NilZero.string_of_int (Z.to_int z).

(** [%w]: every double quote of the argument is doubled. *)
Fixpoint escape_w (s : string) : string :=
  match s with
  | EmptyString => EmptyString
  | String c s' =>
      if Ascii.eqb c dquote_char
      then String c (String c (escape_w s'))
      else String c (escape_w s')
  end.

(** [%w] applied to a [char*] that may be NULL: sqlite3's printf writes
    the text (NULL) for a NULL argument of [%w]. *)
Definition escape_w_ptr (p : option string) : string :=
  match p with
  | Some s => escape_w s
  | None => "(NULL)"
  end.

(** The format [%w] between two double quotes: a quoted identifier. *)
Definition quote_ident (s : string) : string := dquote +++ escape_w s +++ dquote.

Definition quote_ident_ptr (p : option string) : string :=
  dquote +++ escape_w_ptr p +++ dquote.

(** [strcmp]: only the sign of the result is meaningful. *)
Definition strcmp (a b : string) : Z :=
  match String.compare a b with
  | Eq => 0
  | Lt => -1
  | Gt => 1
  end.

(** The case folding of sqlite3UpperToLower: the ASCII letters A..Z. *)
Definition to_lower (c : ascii) : ascii :=
  let n := nat_of_ascii c in
  if ((65 <=? n)%nat && (n <=? 90)%nat)%bool then ascii_of_nat (n + 32) else c.

Fixpoint lower (s : string) : string :=
  match s with
  | EmptyString => EmptyString
  | String c s' => String (to_lower c) (lower s')
  end.

(** [sqlite3_stricmp] compares the folded strings byte by byte; a NULL
    argument is below every string and equal to NULL. *)
Definition sqlite3_stricmp (a b : option string) : Z :=
  match a, b with
  | None, None => 0
  | None, Some _ => -1
  | Some _, None => 1
  | Some x, Some y => strcmp (lower x) (lower y)
  end.

(** [%s] of the printf family: nothing is written for a NULL argument. *)
Definition fmt_s (p : option string) : string :=
  match p with
  | Some s => s
  | None => EmptyString
  end.

(** Separator-joined concatenation, the shape every SQL builder of the
    source produces with its "first element or not" test. *)
Fixpoint join (sep : string) (l : list string) : string :=
  match l with
  | [] => EmptyString
  | [x] => x
  | x :: l' => x +++ sep +++ join sep l'
  end.

End Text.

Module Arr.

(** Indices [lo], [lo+1], ..., [hi-1]: the values the counter of
    [for (i = lo; i < hi; i++)] takes. *)
Definition zrange (lo hi : Z) : list Z :=
  map (fun k => lo + Z.of_nat k) (seq 0 (Z.to_nat (hi - lo))).

(** [a[i]] for a C array: [None] when [i] is outside the array. *)
Definition znth {A} (a : list A) (i : Z) : option A :=
  if i <? 0 then None else nth_error a (Z.to_nat i).

(** [a[i] = v]; outside the array the list is returned unchanged (the
    callers below only write where they have just read). *)
Fixpoint set_nth {A} (a : list A) (n : nat) (v : A) : list A :=
  match a, n with
  | [], _ => []
  | _ :: a', O => v :: a'
  | x :: a', S n' => x :: set_nth a' n' v
  end.

Definition zset {A} (a : list A) (i : Z) (v : A) : list A :=
  if i <? 0 then a else set_nth a (Z.to_nat i) v.

(** The first element of [l] on which [f] reports something: a loop body
    that ends the whole function on its first hit. *)
Fixpoint first_hit {A E} (f : A -> option E) (l : list A) : option E :=
  match l with
  | [] => None
  | x :: l' =>
      match f x with
      | Some e => Some e
      | None => first_hit f l'
      end
  end.

End Arr.

Import Text Arr.

(* ================================================================== *)
(** * The host engine *)
(* ================================================================== *)

(** Result codes of sqlite3.h. *)
Definition SQLITE_OK : Z := 0.
Definition SQLITE_ERROR : Z := 1.
Definition SQLITE_MISUSE : Z := 21.
Definition SQLITE_RANGE : Z := 25.
Definition SQLITE_ROW : Z := 100.
Definition SQLITE_DONE : Z := 101.

(** A dynamically typed SQL value.  The module never looks inside one:
    it duplicates, binds and returns them.  REAL and BLOB values travel
    the same way and are left out of the model. *)
Inductive sqlite3_value : Type :=
| SqlNull
| SqlInteger (z : Z)
| SqlText (s : string).

Definition row : Type := list sqlite3_value.

(** The primary result codes of sqlite3.h that report an error: what a
    step can answer besides SQLITE_ROW and SQLITE_DONE. *)
Module Err.

Inductive t : Type :=
| ERROR | INTERNAL | PERM | ABORT | BUSY | LOCKED | NOMEM | READONLY
| INTERRUPT | IOERR | CORRUPT | NOTFOUND | FULL | CANTOPEN | PROTOCOL
| EMPTY | SCHEMA | TOOBIG | CONSTRAINT | MISMATCH | MISUSE | NOLFS | AUTH
| FORMAT | RANGE | NOTADB | NOTICE | WARNING.

Definition code (e : t) : Z :=
  match e with
  | ERROR => 1 | INTERNAL => 2 | PERM => 3 | ABORT => 4 | BUSY => 5
  | LOCKED => 6 | NOMEM => 7 | READONLY => 8 | INTERRUPT => 9 | IOERR => 10
  | CORRUPT => 11 | NOTFOUND => 12 | FULL => 13 | CANTOPEN => 14
  | PROTOCOL => 15 | EMPTY => 16 | SCHEMA => 17 | TOOBIG => 18
  | CONSTRAINT => 19 | MISMATCH => 20 | MISUSE => 21 | NOLFS => 22
  | AUTH => 23 | FORMAT => 24 | RANGE => 25 | NOTADB => 26 | NOTICE => 27
  | WARNING => 28
  end.

(** The English text the engine has for a code (sqlite3_errstr).  The
    model takes it for the message sqlite3_errmsg reports after a run has
    failed with that code. *)
Definition message (e : t) : string :=
  match e with
  | ERROR => "SQL logic error"
  | PERM => "access permission denied"
  | ABORT => "query aborted"
  | BUSY => "database is locked"
  | LOCKED => "database table is locked"
  | NOMEM => "out of memory"
  | READONLY => "attempt to write a readonly database"
  | INTERRUPT => "interrupted"
  | IOERR => "disk I/O error"
  | CORRUPT => "database disk image is malformed"
  | NOTFOUND => "unknown operation"
  | FULL => "database or disk is full"
  | CANTOPEN => "unable to open database file"
  | PROTOCOL => "locking protocol"
  | SCHEMA => "database schema has changed"
  | TOOBIG => "string or blob too big"
  | CONSTRAINT => "constraint failed"
  | MISMATCH => "datatype mismatch"
  | MISUSE => "bad parameter or other API misuse"
  | AUTH => "authorization denied"
  | RANGE => "column index out of range"
  | NOTADB => "file is not a database"
  | NOTICE => "notification message"
  | WARNING => "warning message"
  | INTERNAL | EMPTY | NOLFS | FORMAT => "unknown error"
  end.

End Err.

(** How a run ends once its rows are read: it completes, or it fails with
    an error code. *)
Inductive run_end : Type :=
| Completes
| Fails (e : Err.t).

(** The answer of the step that ends a run. *)
Definition end_code (e : run_end) : Z :=
  match e with
  | Completes => SQLITE_DONE
  | Fails e => Err.code e
  end.

(** What the engine makes of one SQL text against the current database
    content: the names of its result columns, the number of its bound
    parameters (the largest parameter index), the rows it yields for a
    given assignment of its parameters and the way the run ends after
    these rows. *)
Record program : Type := {
  prog_columns : list string;
  prog_nparams : nat;
  prog_run : list sqlite3_value -> list row;
  prog_end : list sqlite3_value -> run_end
}.

(** A database connection: the compiler of SQL texts ([inl msg] is
    sqlite3_errmsg after a failed prepare) and the answer of
    sqlite3_declare_vtab to a CREATE TABLE text. *)
Record sqlite3 : Type := {
  db_compile : string -> string + program;
  db_declare_vtab : string -> Z
}.

(** Where a prepared statement stands: ready to run (after prepare or
    reset), on a row with the rows still to come, or halted after
    SQLITE_DONE or an error. *)
Inductive stmt_state : Type :=
| Ready
| OnRow (current : row) (rest : list row)
| Halted.

(** A prepared statement: its program, the current parameter bindings and
    its state. *)
Record sqlite3_stmt : Type := {
  st_prog : program;
  st_binds : list sqlite3_value;
  st_state : stmt_state
}.

Definition sqlite3_prepare_v2 (db : sqlite3) (zSql : string) : string + sqlite3_stmt :=
  match db_compile db zSql with
  | inl msg => inl msg
  | inr p =>
      inr {| st_prog := p;
             st_binds := repeat SqlNull (prog_nparams p);
             st_state := Ready |}
  end.

(** The statement pointer a call leaves in [*ppStmt]: NULL on failure. *)
Definition stmt_ptr (r : string + sqlite3_stmt) : option sqlite3_stmt :=
  match r with
  | inl _ => None
  | inr st => Some st
  end.

Definition sqlite3_column_count (p : option sqlite3_stmt) : Z :=
  match p with
  | Some st => Z.of_nat (List.length (prog_columns (st_prog st)))
  | None => 0
  end.

Definition sqlite3_column_name (p : option sqlite3_stmt) (i : Z) : option string :=
  match p with
  | Some st => znth (prog_columns (st_prog st)) i
  | None => None
  end.

Definition sqlite3_bind_parameter_count (p : option sqlite3_stmt) : Z :=
  match p with
  | Some st => Z.of_nat (prog_nparams (st_prog st))
  | None => 0
  end.

(** The rows a statement will still produce: a statement that is not on a
    row starts its program afresh under its current bindings. *)
Definition stmt_pending (st : sqlite3_stmt) : list row :=
  match st_state st with
  | OnRow _ rest => rest
  | Ready | Halted => prog_run (st_prog st) (st_binds st)
  end.

(** The way the run of a statement ends under its current bindings. *)
Definition stmt_end (st : sqlite3_stmt) : run_end :=
  prog_end (st_prog st) (st_binds st).

(** [sqlite3_step]: SQLITE_MISUSE on a NULL statement; otherwise the next
    row, or the end of the run: SQLITE_DONE or an error code.  Either end
    halts the statement, and the next step starts the run afresh. *)
Definition sqlite3_step (p : option sqlite3_stmt) : Z * option sqlite3_stmt :=
  match p with
  | None => (SQLITE_MISUSE, None)
  | Some st =>
      match stmt_pending st with
      | [] =>
          (end_code (stmt_end st),
           Some {| st_prog := st_prog st; st_binds := st_binds st; st_state := Halted |})
      | r :: rs =>
          (SQLITE_ROW,
           Some {| st_prog := st_prog st; st_binds := st_binds st;
                   st_state := OnRow r rs |})
      end
  end.

(** [sqlite3_bind_value(stmt, i, v)].  The module never examines the
    result code, so only the statement is returned: nothing changes on a
    NULL statement, on one that is not ready (SQLITE_MISUSE) or when [i]
    is not a parameter index (SQLITE_RANGE). *)
Definition sqlite3_bind_value (p : option sqlite3_stmt) (i : Z) (v : sqlite3_value)
  : option sqlite3_stmt :=
  match p with
  | None => None
  | Some st =>
      match st_state st with
      | Ready =>
          if ((1 <=? i) && (i <=? Z.of_nat (List.length (st_binds st))))%bool
          then Some {| st_prog := st_prog st;
                       st_binds := zset (st_binds st) (i - 1) v;
                       st_state := Ready |}
          else p
      | OnRow _ _ | Halted => p
      end
  end.

(** [sqlite3_reset]: the bindings stay. *)
Definition sqlite3_reset (p : option sqlite3_stmt) : option sqlite3_stmt :=
  match p with
  | None => None
  | Some st =>
      Some {| st_prog := st_prog st; st_binds := st_binds st; st_state := Ready |}
  end.

(** [sqlite3_column_value]: the NULL value when there is no current row
    or no such column. *)
Definition sqlite3_column_value (p : option sqlite3_stmt) (i : Z) : sqlite3_value :=
  match p with
  | Some st =>
      match st_state st with
      | OnRow r _ =>
          match znth r i with
          | Some v => v
          | None => SqlNull
          end
      | Ready | Halted => SqlNull
      end
  | None => SqlNull
  end.

(** The text form of a value ([sqlite3_column_text], and the cells of
    [sqlite3_get_table]): a NULL pointer for the NULL value. *)
Definition value_text (v : sqlite3_value) : option string :=
  match v with
  | SqlNull => None
  | SqlInteger z => Some (decimal z)
  | SqlText s => Some s
  end.

Definition sqlite3_column_text (p : option sqlite3_stmt) (i : Z) : option string :=
  value_text (sqlite3_column_value p i).

(** The cells of one result row, one per result column. *)
Definition row_cells (ncol : nat) (r : row) : list sqlite3_value :=
  map (fun i => nth i r SqlNull) (seq 0 ncol).

(** [sqlite3_get_table]: on success the flat array [azData] (the column
    names, then the cells of every row, NULL for a NULL value), [nRow]
    (the header row not counted) and [nCol].  No row calls the callback,
    which leaves the array empty and both counts at zero.  A text that
    does not compile and a run that fails give the engine's message. *)
Record table : Type := {
  azData : list (option string);
  nRow : Z;
  nCol : Z
}.

Definition sqlite3_get_table (db : sqlite3) (zSql : string) : string + table :=
  match db_compile db zSql with
  | inl msg => inl msg
  | inr p =>
      let ncol := List.length (prog_columns p) in
      match prog_end p (repeat SqlNull (prog_nparams p)) with
      | Fails e => inl (Err.message e)
      | Completes =>
          match prog_run p (repeat SqlNull (prog_nparams p)) with
          | [] => inr {| azData := []; nRow := 0; nCol := 0 |}
          | rows =>
              inr {| azData :=
                       map Some (prog_columns p)
                         ++ flat_map (fun r => map value_text (row_cells ncol r)) rows;
                     nRow := Z.of_nat (List.length rows);
                     nCol := Z.of_nat ncol |}
          end
      end
  end.

(* ================================================================== *)
(** * The virtual table object and its constructor *)
(* ================================================================== *)

(** [struct pivot_vtab]. *)
Record pivot_vtab : Type := {
  db : sqlite3;                              (* Database connection *)
  nRow_key : Z;                              (* pivot query bound params minus 1 *)
  nRow_cols : Z;                             (* Number of row columns *)
  nCol_key : Z;                              (* Number of column key values *)
  col_stmt : list (option sqlite3_stmt);     (* List of column pivot query stmts *)
  key_sql_full_table_scan : string;          (* Full table scan key query *)
  key_sql_col_names : list string            (* Array of key query column names *)
}.

(** How a call of [pivotConnect] ends. *)
Inductive connect_result : Type :=
| Connected (tab : pivot_vtab) (schema : string)
    (* sqlite3_declare_vtab accepted [schema]; SQLITE_OK is returned *)
| DeclareRefused (rc : Z) (schema : string)
    (* sqlite3_declare_vtab answered [rc], which is returned *)
| ConnectError (zErr : string)
    (* PIVOT_VTAB_CONNECT_ERROR: [*pzErr] is set, everything is released and
       SQLITE_ERROR is returned *)
| ConnectUndefined.
    (* the C code reads outside [argv] or [azData], or hands NULL to strcmp *)

(** The loop over the key query's result columns (source lines 307-312):
    the quoted names, and the CREATE TABLE text grown by them. *)
Definition connect_key_names (stmt_key_query : option sqlite3_stmt) (n : Z)
    (create_vtab_sql : string) : list string * string :=
  fold_left
    (fun (acc : list string * string) (i : Z) =>
       let name := quote_ident_ptr (sqlite3_column_name stmt_key_query i) in
       let sql := if 0 <? i then snd acc +++ "," else snd acc in
       (fst acc ++ [name], sql +++ name))
    (zrange 0 n) ([], create_vtab_sql).

(** One comparison of the uniqueness loops (source lines 371-378): rows
    [i] and [j] of [azData].  [Some r] ends [pivotConnect] with [r];
    strcmp is undefined on a NULL cell, sqlite3_stricmp is not. *)
Definition connect_check_pair (t : table) (i j : Z) : option connect_result :=
  match znth (azData t) (i * nCol t), znth (azData t) (j * nCol t) with
  | Some (Some ki), Some (Some kj) =>
      if strcmp ki kj =? 0
      then Some (ConnectError
                   ("Pivot table column keys must be unique. Duplicate column key "
                      +++ dquote +++ ki +++ dquote +++ "."))
      else
        match znth (azData t) (i * nCol t + 1), znth (azData t) (j * nCol t + 1) with
        | Some ni, Some nj =>
            if sqlite3_stricmp ni nj =? 0
            then Some (ConnectError
                         ("Pivot table column names must be unique. Duplicate column "
                            +++ dquote +++ fmt_s ni +++ dquote +++ "."))
            else None
        | _, _ => Some ConnectUndefined
        end
  | _, _ => Some ConnectUndefined
  end.

(** The uniqueness validation (source lines 368-381), with the loop
    bounds of the source: [i] from 1 while [i < nRow-1], [j] from [i+1]
    while [j < nRow]. *)
Definition connect_check_unique (t : table) : option connect_result :=
  if 1 <? nRow t
  then first_hit
         (fun i => first_hit (fun j => connect_check_pair t i j) (zrange (i + 1) (nRow t)))
         (zrange 1 (nRow t - 1))
  else None.

(** The loop that builds the column statements (source lines 389-398).
    [fuel] bounds the number of calls of [sqlite3_step]. *)
Fixpoint connect_columns (fuel : nat) (pivot_query_sql : string)
    (stmt_col_query : option sqlite3_stmt) (tab : pivot_vtab) (create_vtab_sql : string)
  : option (pivot_vtab * string) :=
  match fuel with
  | O => None
  | S fuel' =>
      let (rc, stmt_col_query) := sqlite3_step stmt_col_query in
      if rc =? SQLITE_ROW then
        let st := stmt_ptr (sqlite3_prepare_v2 (db tab) pivot_query_sql) in
        let st := sqlite3_bind_value st (nRow_key tab + 1)
                    (sqlite3_column_value stmt_col_query 0) in
        let tab :=
          {| db := db tab;
             nRow_key := nRow_key tab;
             nRow_cols := nRow_cols tab;
             nCol_key := nCol_key tab + 1;
             col_stmt := col_stmt tab ++ [st];
             key_sql_full_table_scan := key_sql_full_table_scan tab;
             key_sql_col_names := key_sql_col_names tab |} in
        connect_columns fuel' pivot_query_sql stmt_col_query tab
          (create_vtab_sql +++ ","
             +++ quote_ident_ptr (sqlite3_column_text stmt_col_query 1))
      else Some (tab, create_vtab_sql)
  end.

(** [sqlite3_mprintf] with the format SELECT * FROM, a newline and [%s]. *)
Definition select_from (q : string) : string := "SELECT * FROM " +++ nl +++ q.

(** [pivotConnect].  [argv[3]], [argv[4]] and [argv[5]] are the key query,
    the column definition query and the pivot query. *)
Definition pivotConnect (db : sqlite3) (argv : list string) : connect_result :=
  let create_vtab_sql := "CREATE TABLE x(" in
  (* Pivot table key query *)
  match znth argv 3 with
  | None => ConnectUndefined
  | Some argv3 =>
  let full_scan := select_from argv3 in
  match sqlite3_prepare_v2 db full_scan with
  | inl msg => ConnectError ("Pivot table key query prepare error - " +++ msg)
  | inr st =>
  let stmt_key_query := Some st in
  let n_row_cols := sqlite3_column_count stmt_key_query in
  let (names, create_vtab_sql) :=
    connect_key_names stmt_key_query n_row_cols create_vtab_sql in
  (* Pivot query *)
  match znth argv 5 with
  | None => ConnectUndefined
  | Some argv5 =>
  let pivot_query_sql := select_from argv5 in
  match sqlite3_prepare_v2 db pivot_query_sql with
  | inl msg => ConnectError ("Pivot query prepare error - " +++ msg)
  | inr st =>
  let stmt_pivot_query := Some st in
  let n_row_key := sqlite3_bind_parameter_count stmt_pivot_query - 1 in
  (* Validate bound param count *)
  if n_row_cols <? n_row_key
  then ConnectError
         "Pivot table key query error - Unexpected number of bound parameters."
  else
  (* Pivot table column definition query *)
  match znth argv 4 with
  | None => ConnectUndefined
  | Some argv4 =>
  let sql := select_from argv4 in
  match sqlite3_prepare_v2 db sql with
  | inl msg =>
      ConnectError ("Pivot table column definition query prepare error - " +++ msg)
  | inr st =>
  let stmt_col_query := Some st in
  if negb (sqlite3_column_count stmt_col_query =? 2)
  then ConnectError
         ("Pivot table column definition query expects 2 result column. Query contains "
            +++ decimal (sqlite3_column_count stmt_col_query) +++ " columns.")
  else
  (* Validate pivot columns for uniqueness *)
  match sqlite3_get_table db sql with
  | inl zMsg => ConnectError zMsg
  | inr t =>
  match connect_check_unique t with
  | Some r => r
  | None =>
  (* Construct remainder of vtab definition *)
  let tab :=
    {| db := db;
       nRow_key := n_row_key;
       nRow_cols := n_row_cols;
       nCol_key := 0;
       col_stmt := [];
       key_sql_full_table_scan := full_scan;
       key_sql_col_names := names |} in
  match connect_columns (S (List.length (stmt_pending st))) pivot_query_sql
          stmt_col_query tab create_vtab_sql with
  | None => ConnectUndefined
  | Some (tab, create_vtab_sql) =>
  let sql := create_vtab_sql +++ ")" in
  let rc := db_declare_vtab db sql in
  if rc =? SQLITE_OK then Connected tab sql else DeclareRefused rc sql
  end end end end end end end end end.

(* ================================================================== *)
(** * Cursors *)
(* ================================================================== *)

(** [struct pivot_cursor].  [pivot_key] is a pointer to an array of value
    pointers: [None] is the NULL pointer, and an entry [None] is a NULL
    entry of the array. *)
Record pivot_cursor : Type := {
  iRowid : Z;                                        (* The rowid *)
  stmt : option sqlite3_stmt;                        (* Row key prepared stmt *)
  rc : Z;                                            (* Return value for stmt *)
  pivot_key : option (list (option sqlite3_value))   (* Array of row keys *)
}.

(** [pivotOpen]: the cursor is cleared by memset. *)
Definition pivotOpen : pivot_cursor :=
  {| iRowid := 0; stmt := None; rc := 0; pivot_key := None |}.

(** The values of the current row of [p], duplicated into a key array
    (the loops at source lines 504-505 and 604-605). *)
Definition copy_row_key (tab : pivot_vtab) (p : option sqlite3_stmt)
  : list (option sqlite3_value) :=
  map (fun i => Some (sqlite3_column_value p i)) (zrange 0 (nRow_cols tab)).

(** The loop [for (i = 0; i < argc; i++) sqlite3_bind_value(stmt, i+1, argv[i])]. *)
Fixpoint bind_args (p : option sqlite3_stmt) (i : Z) (argv : list sqlite3_value)
  : option sqlite3_stmt :=
  match argv with
  | [] => p
  | v :: argv' => bind_args (sqlite3_bind_value p (i + 1) v) (i + 1) argv'
  end.

(** [pivotFilter].  The result of sqlite3_prepare_v2 is not examined. *)
Definition pivotFilter (tab : pivot_vtab) (cur : pivot_cursor)
    (idxNum : Z) (idxStr : string) (argv : list sqlite3_value) : pivot_cursor :=
  let p := stmt_ptr (sqlite3_prepare_v2 (db tab) idxStr) in
  let p := bind_args p 0 argv in
  let (rc', p) := sqlite3_step p in
  {| iRowid := 1;
     stmt := p;
     rc := rc';
     pivot_key := if rc' =? SQLITE_DONE then None else Some (copy_row_key tab p) |}.

(** [pivotNext].  [None]: the source writes through a NULL [pivot_key]
    (a step that is not SQLITE_DONE on a cursor without key array). *)
Definition pivotNext (tab : pivot_vtab) (cur : pivot_cursor) : option pivot_cursor :=
  let key :=
    match pivot_key cur with
    | Some _ => Some (map (fun _ => @None sqlite3_value) (zrange 0 (nRow_cols tab)))
    | None => None
    end in
  let (rc', p) := sqlite3_step (stmt cur) in
  if negb (rc' =? SQLITE_DONE) then
    match key with
    | None => None
    | Some _ =>
        Some {| iRowid := iRowid cur + 1; stmt := p; rc := rc';
                pivot_key := Some (copy_row_key tab p) |}
    end
  else
    Some {| iRowid := iRowid cur + 1; stmt := p; rc := rc'; pivot_key := key |}.

(** [pivotEof].  On SQLITE_DONE the key array is released and the
    statement finalized; [cur->stmt] is cleared, [cur->pivot_key] keeps its
    stale address, so the field is left as it is. *)
Definition pivotEof (tab : pivot_vtab) (cur : pivot_cursor) : Z * pivot_cursor :=
  if rc cur =? SQLITE_DONE then
    (1, {| iRowid := iRowid cur; stmt := None; rc := rc cur;
           pivot_key := pivot_key cur |})
  else (0, cur).

(** [pivotRowid]. *)
Definition pivotRowid (cur : pivot_cursor) : Z := iRowid cur.

(** The entries that can be read through [cur->pivot_key]: none through a
    NULL pointer. *)
Definition key_array (cur : pivot_cursor) : list (option sqlite3_value) :=
  match pivot_key cur with
  | Some key => key
  | None => []
  end.

(** The loop [for (i = 0; i < nRow_key; i++) sqlite3_bind_value(stmt, i+1,
    pivot_key[i])] of pivotColumn; [None] when an entry read is missing. *)
Fixpoint bind_row_key (p : option sqlite3_stmt) (key : list (option sqlite3_value))
    (idx : list Z) : option (option sqlite3_stmt) :=
  match idx with
  | [] => Some p
  | i :: idx' =>
      match znth key i with
      | Some (Some v) => bind_row_key (sqlite3_bind_value p (i + 1) v) key idx'
      | _ => None
      end
  end.

(** [pivotColumn]: the value handed to sqlite3_result_value, or the NULL
    value of sqlite3_result_null, and the table object, whose column
    statement has been bound, stepped and reset.  [None]: the source reads
    outside [pivot_key] or [col_stmt], or through a NULL pointer. *)
Definition pivotColumn (tab : pivot_vtab) (cur : pivot_cursor) (i : Z)
  : option (pivot_vtab * sqlite3_value) :=
  if i <? nRow_cols tab then
    (* return the row key *)
    match znth (key_array cur) i with
    | Some (Some v) => Some (tab, v)
    | _ => None
    end
  else
    (* return column value, or null *)
    match znth (col_stmt tab) (i - nRow_cols tab) with
    | None => None
    | Some p =>
        match bind_row_key p (key_array cur) (zrange 0 (nRow_key tab)) with
        | None => None
        | Some p =>
            let (rc', p) := sqlite3_step p in
            let v := if rc' =? SQLITE_ROW then sqlite3_column_value p 0 else SqlNull in
            let p := sqlite3_reset p in
            Some ({| db := db tab;
                     nRow_key := nRow_key tab;
                     nRow_cols := nRow_cols tab;
                     nCol_key := nCol_key tab;
                     col_stmt := zset (col_stmt tab) (i - nRow_cols tab) p;
                     key_sql_full_table_scan := key_sql_full_table_scan tab;
                     key_sql_col_names := key_sql_col_names tab |}, v)
        end
    end.

(* ================================================================== *)
(** * The planner *)
(* ================================================================== *)

(** Constraint operators of sqlite3.h. *)
Definition SQLITE_INDEX_CONSTRAINT_EQ : Z := 2.
Definition SQLITE_INDEX_CONSTRAINT_GT : Z := 4.
Definition SQLITE_INDEX_CONSTRAINT_LE : Z := 8.
Definition SQLITE_INDEX_CONSTRAINT_LT : Z := 16.
Definition SQLITE_INDEX_CONSTRAINT_GE : Z := 32.
Definition SQLITE_INDEX_CONSTRAINT_MATCH : Z := 64.
Definition SQLITE_INDEX_CONSTRAINT_LIKE : Z := 65.
Definition SQLITE_INDEX_CONSTRAINT_GLOB : Z := 66.
Definition SQLITE_INDEX_CONSTRAINT_REGEXP : Z := 67.
Definition SQLITE_INDEX_CONSTRAINT_NE : Z := 68.
Definition SQLITE_INDEX_CONSTRAINT_ISNOT : Z := 69.
Definition SQLITE_INDEX_CONSTRAINT_ISNOTNULL : Z := 70.
Definition SQLITE_INDEX_CONSTRAINT_ISNULL : Z := 71.
Definition SQLITE_INDEX_CONSTRAINT_IS : Z := 72.
Definition SQLITE_INDEX_CONSTRAINT_LIMIT : Z := 73.
Definition SQLITE_INDEX_CONSTRAINT_OFFSET : Z := 74.
Definition SQLITE_INDEX_CONSTRAINT_FUNCTION : Z := 150.

(** [struct sqlite3_index_constraint]. *)
Module Constraint.
Record t : Type := {
  iColumn : Z;      (* Column constrained.  -1 for ROWID *)
  op : Z;           (* Constraint operator *)
  usable : Z        (* True if this constraint is usable *)
}.
End Constraint.

(** [struct sqlite3_index_orderby]. *)
Module OrderBy.
Record t : Type := {
  iColumn : Z;      (* Column number *)
  desc : Z          (* True for DESC.  False for ASC. *)
}.
End OrderBy.

(** [struct sqlite3_index_constraint_usage]. *)
Module Usage.
Record t : Type := {
  argvIndex : Z;    (* if >0, constraint is part of argv to xFilter *)
  omit : Z          (* Do not code a test for this constraint *)
}.
Definition zero : t := {| argvIndex := 0; omit := 0 |}.
End Usage.

(** The [double] of C is IEEE 754 binary64, in the Standard Library's
    specification of floating-point arithmetic: [binary64_of_int] is the
    conversion of an integer, [binary64_div] the division, both rounding
    to nearest, ties to even. *)
Definition binary64_of_int (z : Z) : spec_float := binary_normalize 53 1024 z 0 false.
Definition binary64_div : spec_float -> spec_float -> spec_float := SFdiv 53 1024.

(** [struct sqlite3_index_info]; [nConstraint] and [nOrderBy] are the
    lengths of the two input arrays. *)
Record sqlite3_index_info : Type := {
  aConstraint : list Constraint.t;
  aOrderBy : list OrderBy.t;
  aConstraintUsage : list Usage.t;
  idxNum : Z;
  idxStr : option string;
  needToFreeIdxStr : Z;
  orderByConsumed : Z;
  estimatedCost : spec_float;
  estimatedRows : Z
}.

(** The request as the engine hands it to xBestIndex: one cleared usage
    entry per constraint, no plan, ordering not consumed.  The engine's
    initial estimates play no part, pivotBestIndex overwrites them; they
    are left at zero here. *)
Definition index_info_init (cs : list Constraint.t) (obs : list OrderBy.t)
  : sqlite3_index_info :=
  {| aConstraint := cs;
     aOrderBy := obs;
     aConstraintUsage := map (fun _ => Usage.zero) cs;
     idxNum := 0;
     idxStr := None;
     needToFreeIdxStr := 0;
     orderByConsumed := 0;
     estimatedCost := S754_zero false;
     estimatedRows := 0 |}.

(** The [switch] on the constraint operator (source lines 638-682): the
    operator text, or [None] for the [default] branch ([op = 0]). *)
Definition constraint_op (o : Z) : option string :=
  if o =? SQLITE_INDEX_CONSTRAINT_EQ then Some "="
  else if o =? SQLITE_INDEX_CONSTRAINT_LT then Some "<"
  else if o =? SQLITE_INDEX_CONSTRAINT_LE then Some "<="
  else if o =? SQLITE_INDEX_CONSTRAINT_GT then Some ">"
  else if o =? SQLITE_INDEX_CONSTRAINT_GE then Some ">="
  else if o =? SQLITE_INDEX_CONSTRAINT_MATCH then Some "MATCH"
  else if o =? SQLITE_INDEX_CONSTRAINT_LIKE then Some "LIKE"
  else if o =? SQLITE_INDEX_CONSTRAINT_GLOB then Some "GLOB"
  else if o =? SQLITE_INDEX_CONSTRAINT_REGEXP then Some "REGEXP"
  else if o =? SQLITE_INDEX_CONSTRAINT_NE then Some "<>"
  else if (o =? SQLITE_INDEX_CONSTRAINT_ISNOT) || (o =? SQLITE_INDEX_CONSTRAINT_ISNOTNULL)
  then Some "IS NOT"
  else if (o =? SQLITE_INDEX_CONSTRAINT_ISNULL) || (o =? SQLITE_INDEX_CONSTRAINT_IS)
  then Some "IS"
  else None.

(** What pivotBestIndex can touch while it runs: the table object and the
    request it received by pointer, and its local variables. *)
Record plan_state : Type := {
  ps_tab : pivot_vtab;
  ps_usage : list Usage.t;          (* pIdxInfo->aConstraintUsage *)
  ps_orderByConsumed : Z;           (* pIdxInfo->orderByConsumed *)
  key_sql_filtered : string;
  argvIndex : Z;
  orderIdx : Z
}.

(** [pIdxInfo->aConstraintUsage[i] = f(pIdxInfo->aConstraintUsage[i])];
    [None] outside the array. *)
Definition update_usage (s : plan_state) (i : Z) (f : Usage.t -> Usage.t)
  : option (list Usage.t) :=
  match znth (ps_usage s) i with
  | Some u => Some (zset (ps_usage s) i (f u))
  | None => None
  end.

(** One turn of the constraint loop (source lines 636-693) for the
    constraint [c] at index [i].  [None]: a read outside
    [key_sql_col_names] or a write outside [aConstraintUsage]. *)
Definition plan_constraint (c : Constraint.t) (i : Z) (s : plan_state)
  : option plan_state :=
  if Constraint.usable c =? 0 then Some s
  else if negb (Constraint.iColumn c <? nRow_cols (ps_tab s)) then Some s
  else
    match constraint_op (Constraint.op c) with
    | None =>
        match update_usage s i
                (fun u => {| Usage.argvIndex := Usage.argvIndex u; Usage.omit := 0 |}) with
        | None => None
        | Some usage =>
            Some {| ps_tab := ps_tab s;
                    ps_usage := usage;
                    ps_orderByConsumed := ps_orderByConsumed s;
                    key_sql_filtered := key_sql_filtered s;
                    argvIndex := argvIndex s;
                    orderIdx := orderIdx s |}
        end
    | Some o =>
        match znth (key_sql_col_names (ps_tab s)) (Constraint.iColumn c) with
        | None => None
        | Some name =>
            let sql :=
              key_sql_filtered s
                +++ (if argvIndex s =? 1 then nl +++ " WHERE " else " AND ")
                +++ name +++ " " +++ o +++ " ?" in
            match update_usage s i
                    (fun _ => {| Usage.argvIndex := argvIndex s; Usage.omit := 1 |}) with
            | None => None
            | Some usage =>
                Some {| ps_tab := ps_tab s;
                        ps_usage := usage;
                        ps_orderByConsumed := ps_orderByConsumed s;
                        key_sql_filtered := sql;
                        argvIndex := argvIndex s + 1;
                        orderIdx := orderIdx s |}
            end
        end
    end.

(** The constraint loop: [pConstraint] walks [aConstraint] while [i]
    counts from its start value. *)
Fixpoint plan_constraints (cs : list Constraint.t) (i : Z) (s : plan_state)
  : option plan_state :=
  match cs with
  | [] => Some s
  | c :: cs' =>
      match plan_constraint c i s with
      | None => None
      | Some s' => plan_constraints cs' (i + 1) s'
      end
  end.

(** One turn of the ordering loop (source lines 699-707). *)
Definition plan_orderby (o : OrderBy.t) (s : plan_state) : option plan_state :=
  if negb (OrderBy.iColumn o <? nRow_cols (ps_tab s)) then Some s
  else
    match znth (key_sql_col_names (ps_tab s)) (OrderBy.iColumn o) with
    | None => None
    | Some name =>
        Some {| ps_tab := ps_tab s;
                ps_usage := ps_usage s;
                ps_orderByConsumed := 1;
                key_sql_filtered :=
                  key_sql_filtered s
                    +++ (if orderIdx s =? 0 then nl +++ " ORDER BY " else ", ")
                    +++ name +++ " "
                    +++ (if negb (OrderBy.desc o =? 0) then "DESC" else "");
                argvIndex := argvIndex s;
                orderIdx := orderIdx s + 1 |}
    end.

Fixpoint plan_orderbys (obs : list OrderBy.t) (s : plan_state) : option plan_state :=
  match obs with
  | [] => Some s
  | o :: obs' =>
      match plan_orderby o s with
      | None => None
      | Some s' => plan_orderbys obs' s'
      end
  end.

(** [pivotBestIndex]: the table object and the request after the call
    (SQLITE_OK is the only return value).  [argvIndex] is an [int] that
    counts the consumed constraints; the engine offers far fewer than
    INT_MAX constraints, so it is not wrapped. *)
Definition pivotBestIndex (tab : pivot_vtab) (pIdxInfo : sqlite3_index_info)
  : option (pivot_vtab * sqlite3_index_info) :=
  let s :=
    {| ps_tab := tab;
       ps_usage := aConstraintUsage pIdxInfo;
       ps_orderByConsumed := orderByConsumed pIdxInfo;
       key_sql_filtered := key_sql_full_table_scan tab;
       argvIndex := 1;
       orderIdx := 0 |} in
  match plan_constraints (aConstraint pIdxInfo) 0 s with
  | None => None
  | Some s =>
      match plan_orderbys (aOrderBy pIdxInfo) s with
      | None => None
      | Some s =>
          Some (ps_tab s,
                {| aConstraint := aConstraint pIdxInfo;
                   aOrderBy := aOrderBy pIdxInfo;
                   aConstraintUsage := ps_usage s;
                   idxNum := 0;
                   idxStr := Some (key_sql_filtered s);
                   needToFreeIdxStr := 1;
                   orderByConsumed := ps_orderByConsumed s;
                   estimatedCost :=
                     binary64_div (binary64_of_int 2147483647)
                       (binary64_of_int (argvIndex s));
                   estimatedRows := 10 |})
      end
  end.

(* ================================================================== *)
(** * The engine's scan loop *)
(* ================================================================== *)

(** The values of columns 0 .. ncol-1 of the current row, read in that
    order through xColumn. *)
Fixpoint read_columns (tab : pivot_vtab) (cur : pivot_cursor) (idx : list Z)
  : option (pivot_vtab * row) :=
  match idx with
  | [] => Some (tab, [])
  | i :: idx' =>
      match pivotColumn tab cur i with
      | None => None
      | Some (tab', v) =>
          match read_columns tab' cur idx' with
          | None => None
          | Some (tab'', vs) => Some (tab'', v :: vs)
          end
      end
  end.

(** The loop the engine runs after xFilter: xEof, then for a row xColumn
    on every column and xNext, until xEof answers true.  [fuel] bounds the
    number of xEof calls. *)
Fixpoint scan_loop (fuel : nat) (ncol : Z) (tab : pivot_vtab) (cur : pivot_cursor)
  : option (pivot_vtab * pivot_cursor * list row) :=
  match fuel with
  | O => None
  | S fuel' =>
      let (eof, cur) := pivotEof tab cur in
      if negb (eof =? 0) then Some (tab, cur, [])
      else
        match read_columns tab cur (zrange 0 ncol) with
        | None => None
        | Some (tab, r) =>
            match pivotNext tab cur with
            | None => None
            | Some cur =>
                match scan_loop fuel' ncol tab cur with
                | None => None
                | Some (tab, cur, rs) => Some (tab, cur, r :: rs)
                end
            end
        end
  end.

(** A scan of all [ncol] declared columns under the plan xBestIndex
    returns for the constraints [cs] and orderings [obs], with [argv] the
    values of the consumed constraints. *)
Definition scan (fuel : nat) (ncol : Z) (tab : pivot_vtab)
    (cs : list Constraint.t) (obs : list OrderBy.t) (argv : list sqlite3_value)
  : option (pivot_vtab * pivot_cursor * list row) :=
  match pivotBestIndex tab (index_info_init cs obs) with
  | None => None
  | Some (tab, info) =>
      match idxStr info with
      | None => None
      | Some sql =>
          scan_loop fuel ncol tab (pivotFilter tab pivotOpen (idxNum info) sql argv)
      end
  end.


(* ================================================================== *)
(** * The claims about the planner, in the vocabulary of the specification *)
(* ================================================================== *)

(** These definitions follow the wording of the specification (section
    4.2); the theorems below compare them with [pivotBestIndex]. *)
Module Plan.

(** A predicate is eligible when it is usable and its column index is
    below the number of row-key columns. *)
Definition eligible (tab : pivot_vtab) (c : Constraint.t) : bool :=
  negb (Constraint.usable c =? 0) && (Constraint.iColumn c <? nRow_cols tab).

(** The textual SQL operators of the specification: equality, the four
    comparisons, inequality, the pattern-match operators, IS and IS NOT
    with their null-test forms.  A function-style constraint has none,
    nor have LIMIT and OFFSET. *)
Definition operators : list (Z * string) :=
  [ (SQLITE_INDEX_CONSTRAINT_EQ, "=");
    (SQLITE_INDEX_CONSTRAINT_LT, "<");
    (SQLITE_INDEX_CONSTRAINT_LE, "<=");
    (SQLITE_INDEX_CONSTRAINT_GT, ">");
    (SQLITE_INDEX_CONSTRAINT_GE, ">=");
    (SQLITE_INDEX_CONSTRAINT_NE, "<>");
    (SQLITE_INDEX_CONSTRAINT_MATCH, "MATCH");
    (SQLITE_INDEX_CONSTRAINT_LIKE, "LIKE");
    (SQLITE_INDEX_CONSTRAINT_GLOB, "GLOB");
    (SQLITE_INDEX_CONSTRAINT_REGEXP, "REGEXP");
    (SQLITE_INDEX_CONSTRAINT_IS, "IS");
    (SQLITE_INDEX_CONSTRAINT_ISNULL, "IS");
    (SQLITE_INDEX_CONSTRAINT_ISNOT, "IS NOT");
    (SQLITE_INDEX_CONSTRAINT_ISNOTNULL, "IS NOT") ].

Definition sql_operator (op : Z) : option string :=
  option_map snd (find (fun e => fst e =? op) operators).

(** It is consumed when, besides, its operator has a textual SQL form. *)
Definition consumed (tab : pivot_vtab) (c : Constraint.t) : bool :=
  eligible tab c
    && match sql_operator (Constraint.op c) with Some _ => true | None => false end.

Definition op_text (o : Z) : string :=
  match sql_operator o with
  | Some t => t
  | None => EmptyString
  end.

(** The quoted name of row-key column [i]. *)
Definition column (tab : pivot_vtab) (i : Z) : string :=
  match znth (key_sql_col_names tab) i with
  | Some name => name
  | None => EmptyString
  end.

(** The conjunct [column operator ?]. *)
Definition conjunct (tab : pivot_vtab) (c : Constraint.t) : string :=
  column tab (Constraint.iColumn c) +++ " " +++ op_text (Constraint.op c) +++ " ?".

Definition where_clause (tab : pivot_vtab) (cs : list Constraint.t) : string :=
  match filter (consumed tab) cs with
  | [] => EmptyString
  | l => nl +++ " WHERE " +++ join " AND " (map (conjunct tab) l)
  end.

(** The usage entries: a consumed predicate gets the next parameter slot
    and omit = 1, every other one stays cleared. *)
Fixpoint usage (tab : pivot_vtab) (cs : list Constraint.t) (next : Z) : list Usage.t :=
  match cs with
  | [] => []
  | c :: cs' =>
      if consumed tab c
      then {| Usage.argvIndex := next; Usage.omit := 1 |} :: usage tab cs' (next + 1)
      else Usage.zero :: usage tab cs' next
  end.

(** An ordering term is eligible when its column is a row-key column. *)
Definition ordered (tab : pivot_vtab) (o : OrderBy.t) : bool :=
  OrderBy.iColumn o <? nRow_cols tab.

Definition order_term (tab : pivot_vtab) (o : OrderBy.t) : string :=
  column tab (OrderBy.iColumn o) +++ " "
    +++ (if negb (OrderBy.desc o =? 0) then "DESC" else EmptyString).

Definition order_clause (tab : pivot_vtab) (obs : list OrderBy.t) : string :=
  match filter (ordered tab) obs with
  | [] => EmptyString
  | l => nl +++ " ORDER BY " +++ join ", " (map (order_term tab) l)
  end.

(** The number of predicates a plan reports as consumed. *)
Definition consumed_count (info : sqlite3_index_info) : nat :=
  List.length (filter (fun u => Usage.omit u =? 1) (aConstraintUsage info)).

(** The cost of a plan with [argvIndex] as its next parameter slot. *)
Definition binary64_cost (argvIndex : Z) : spec_float :=
  binary64_div (binary64_of_int 2147483647) (binary64_of_int argvIndex).

(** The key-column names array has one entry per row-key column. *)
Definition names_wf (tab : pivot_vtab) : Prop :=
  Z.of_nat (List.length (key_sql_col_names tab)) = nRow_cols tab.

(** No constraint the planner consumes and no ordering term it takes up
    is on the rowid, for which the engine uses the column index -1: their
    column indices are not negative. *)
Definition off_rowid (tab : pivot_vtab) (cs : list Constraint.t) (obs : list OrderBy.t)
  : Prop :=
  Forall (fun c => consumed tab c = true -> 0 <= Constraint.iColumn c) cs
  /\ Forall (fun o => ordered tab o = true -> 0 <= OrderBy.iColumn o) obs.

(** Two table objects with the same definition: they may differ in the
    state of their column statements only. *)
Definition same_definition (t1 t2 : pivot_vtab) : Prop :=
  nRow_cols t1 = nRow_cols t2
  /\ key_sql_col_names t1 = key_sql_col_names t2
  /\ key_sql_full_table_scan t1 = key_sql_full_table_scan t2.

End Plan.

(** The text the constraint loop appends for the consumed predicates [l];
    [first] tells whether the next conjunct opens the WHERE clause. *)
Fixpoint conj_tail (tab : pivot_vtab) (first : bool) (l : list Constraint.t) : string :=
  match l with
  | [] => EmptyString
  | c :: l' =>
      (if first then nl +++ " WHERE " else " AND ")
        +++ Plan.conjunct tab c +++ conj_tail tab false l'
  end.

Fixpoint order_tail (tab : pivot_vtab) (first : bool) (l : list OrderBy.t) : string :=
  match l with
  | [] => EmptyString
  | o :: l' =>
      (if first then nl +++ " ORDER BY " else ", ")
        +++ Plan.order_term tab o +++ order_tail tab false l'
  end.

(** States of the planner that differ in the table object only, the two
    table objects having the same definition. *)
Definition plan_state_similar (s1 s2 : plan_state) : Prop :=
  Plan.same_definition (ps_tab s1) (ps_tab s2)
  /\ ps_usage s1 = ps_usage s2
  /\ ps_orderByConsumed s1 = ps_orderByConsumed s2
  /\ key_sql_filtered s1 = key_sql_filtered s2
  /\ argvIndex s1 = argvIndex s2
  /\ orderIdx s1 = orderIdx s2.

Definition plan_result_similar (r1 r2 : option plan_state) : Prop :=
  match r1, r2 with
  | Some s1, Some s2 => plan_state_similar s1 s2
  | None, None => True
  | _, _ => False
  end.


(* ================================================================== *)
(** * The claims about cursors, in the vocabulary of the specification *)
(* ================================================================== *)

(** An advance (Filter or Next): the statement pointer its step is called
    on, and the cursor it leaves.  Filter steps the statement it has just
    prepared and bound, Next the statement of the cursor. *)
Inductive advance (tab : pivot_vtab) : option sqlite3_stmt -> pivot_cursor -> Prop :=
| advance_filter cur idxNum idxStr argv :
    advance tab (bind_args (stmt_ptr (sqlite3_prepare_v2 (db tab) idxStr)) 0 argv)
      (pivotFilter tab cur idxNum idxStr argv)
| advance_next cur cur' :
    pivotNext tab cur = Some cur' -> advance tab (stmt cur) cur'.

(** The step of an advance finds no further row: the statement was
    prepared, no row is left and its run ends without error. *)
Definition no_further_row (p : option sqlite3_stmt) : Prop :=
  exists st, p = Some st /\ stmt_pending st = [] /\ stmt_end st = Completes.

(** The cursor is exhausted: its last step answered SQLITE_DONE. *)
Definition exhausted (cur : pivot_cursor) : Prop := rc cur = SQLITE_DONE.

(** No row-key value is held by the cursor. *)
Definition no_key_retained (cur : pivot_cursor) : Prop :=
  Forall (fun v => v = None) (key_array cur).

(** The first value of the first row of a result, the NULL value when the
    result has no row. *)
Definition first_value (rows : list row) : sqlite3_value :=
  match rows with
  | [] => SqlNull
  | r :: _ =>
      match znth r 0 with
      | Some v => v
      | None => SqlNull
      end
  end.

(** A column statement between two lookups: prepared or reset. *)
Definition idle_stmt (p : program) (binds : list sqlite3_value) : sqlite3_stmt :=
  {| st_prog := p; st_binds := binds; st_state := Ready |}.

(** [tab] with another array of column statements. *)
Definition set_col_stmt (tab : pivot_vtab) (l : list (option sqlite3_stmt)) : pivot_vtab :=
  {| db := db tab;
     nRow_key := nRow_key tab;
     nRow_cols := nRow_cols tab;
     nCol_key := nCol_key tab;
     col_stmt := l;
     key_sql_full_table_scan := key_sql_full_table_scan tab;
     key_sql_col_names := key_sql_col_names tab |}.

(** [tab] with entry [j] of [col_stmt] replaced. *)
Definition with_col_stmt (tab : pivot_vtab) (j : Z) (p : option sqlite3_stmt) : pivot_vtab :=
  set_col_stmt tab (zset (col_stmt tab) j p).

(* ================================================================== *)
(** * The claims about creation, in the vocabulary of the specification *)
(* ================================================================== *)

Module Schema.

(** Value [i] of a result row (NULL outside the row). *)
Definition cell (r : row) (i : Z) : sqlite3_value :=
  match znth r i with
  | Some v => v
  | None => SqlNull
  end.

(** The rows a query yields with no parameter bound. *)
Definition rows_of (p : program) : list row :=
  prog_run p (repeat SqlNull (prog_nparams p)).

(** The three queries of a definition: [argv[3]], [argv[4]] and [argv[5]]
    are present and the engine compiles their full-scan forms to the
    row-key query [kp], the column-definition query [cp] and the cell
    query [pp]. *)
Definition queries (db : sqlite3) (argv : list string) (kp cp pp : program) : Prop :=
  exists argv3 argv4 argv5,
    znth argv 3 = Some argv3 /\ znth argv 4 = Some argv4 /\ znth argv 5 = Some argv5
    /\ db_compile db (select_from argv3) = inr kp
    /\ db_compile db (select_from argv4) = inr cp
    /\ db_compile db (select_from argv5) = inr pp.

(** The row-key columns under their source names, identifier-quoted. *)
Definition key_names (kp : program) : list string :=
  map quote_ident (prog_columns kp).

(** One column per row of the column-definition query, named by the
    display name (second value) of the row, identifier-quoted. *)
Definition display_names (cp : program) : list string :=
  map (fun r => quote_ident_ptr (value_text (cell r 1))) (rows_of cp).

Definition declared_columns (kp cp : program) : list string :=
  key_names kp ++ display_names cp.

Definition create_table (columns : list string) : string :=
  "CREATE TABLE x(" +++ join "," columns +++ ")".

(** The cell-lookup binding of a column key: the cell query, idle, its
    last parameter bound to the key. *)
Definition binding (pp : program) (k : sqlite3_value) : sqlite3_stmt :=
  idle_stmt pp (zset (repeat SqlNull (prog_nparams pp)) (Z.of_nat (prog_nparams pp) - 1) k).

Definition bindings (pp cp : program) : list (option sqlite3_stmt) :=
  map (fun r => Some (binding pp (cell r 0))) (rows_of cp).

(** The error of the bound-parameter validation. *)
Definition bound_parameter_error : connect_result :=
  ConnectError "Pivot table key query error - Unexpected number of bound parameters.".

(** The errors of the uniqueness validation, naming the duplicate. *)
Definition duplicate_key_error (k : string) : connect_result :=
  ConnectError ("Pivot table column keys must be unique. Duplicate column key "
                  +++ dquote +++ k +++ dquote +++ ".").

Definition duplicate_name_error (n : string) : connect_result :=
  ConnectError ("Pivot table column names must be unique. Duplicate column "
                  +++ dquote +++ n +++ dquote +++ ".").

End Schema.

(** [sep] and an element, for every element of [l]: what a loop appends
    that writes the separator before each element. *)
Fixpoint append_each (sep : string) (l : list string) : string :=
  match l with
  | [] => EmptyString
  | x :: l' => sep +++ x +++ append_each sep l'
  end.

(* ================================================================== *)
(** * The claim about a full scan, in the vocabulary of the specification *)
(* ================================================================== *)

Module Scan.

(** The parameters of the cell query for a row key and a column key: the
    leading parameters take the leading row-key values, the last one the
    column key. *)
Definition cell_binds (pp : program) (key : row) (k : sqlite3_value) : list sqlite3_value :=
  match prog_nparams pp with
  | O => []
  | S m => firstn m key ++ [k]
  end.

(** The first result value of the cell query so bound, or NULL. *)
Definition cell_value (pp : program) (key : row) (k : sqlite3_value) : sqlite3_value :=
  first_value (prog_run pp (cell_binds pp key k)).

(** The row of the pivot table for a row of the row-key query: its
    row-key values, then one cell per row of the column-definition query. *)
Definition pivot_row (cp pp : program) (key : row) : row :=
  key ++ map (fun c => cell_value pp key (Schema.cell c 0)) (Schema.rows_of cp).

Definition pivot_rows (kp cp pp : program) : list row :=
  map (pivot_row cp pp) (Schema.rows_of kp).

(** Every row of the row-key query has one value per result column. *)
Definition rows_wf (kp : program) : Prop :=
  Forall (fun r => List.length r = List.length (prog_columns kp)) (Schema.rows_of kp).

(** The run of a query with no parameter bound ends without error: after
    its rows the step answers SQLITE_DONE. *)
Definition completes (p : program) : Prop :=
  prog_end p (repeat SqlNull (prog_nparams p)) = Completes.

(** The parameters of the cell query in the words of the specification:
    the row-key values of the row, then the column key. *)
Definition key_then_column (key : row) (k : sqlite3_value) : list sqlite3_value :=
  key ++ [k].

End Scan.

(** The cursor stands on the row [r] of its statement, [rest] being the
    rows still to come before the run completes. *)
Definition positioned (cur : pivot_cursor) (r : row) (rest : list row) : Prop :=
  rc cur = SQLITE_ROW
  /\ pivot_key cur = Some (map Some r)
  /\ exists st, stmt cur = Some st /\ stmt_pending st = rest /\ stmt_end st = Completes.

(** The row a scan reports for the key [key] when the column statements
    hold, after their first [n] parameters, the bindings [tails]. *)
Definition scanned_row (pp : program) (n : nat) (tails : list (list sqlite3_value))
    (key : row) : row :=
  key ++ map (fun t => first_value (prog_run pp (firstn n key ++ t))) tails.
(* ================================================================== *)
(** * Sample databases *)
(* ================================================================== *)

Module Sample.

(** A connection that knows three queries and accepts every declaration. *)
Definition mk_db (kq cq pq : string) (kp cp pp : program) : sqlite3 :=
  {| db_compile := fun sql =>
       if String.eqb sql (select_from kq) then inr kp
       else if String.eqb sql (select_from cq) then inr cp
       else if String.eqb sql (select_from pq) then inr pp
       else inl "syntax error";
     db_declare_vtab := fun _ => SQLITE_OK |}.

Definition module_args (kq cq pq : string) : list string :=
  ["pivot_vtab"; "main"; "pivot"; kq; cq; pq].

(** The tables r, c and x of the usage example in the header comment of
    pivot_vtab.c. *)
Definition key_query : string := "(SELECT id r_id FROM r)".
Definition col_query : string := "(SELECT id c_id, name FROM c)".
Definition pivot_query : string := "(SELECT val FROM x WHERE r_id = ?1 AND c_id = ?2)".

Definition table_r : list Z := [1; 2; 3].
Definition table_c : list (Z * string) := [(1, "a"); (2, "b"); (3, "c"); (4, "d")].

Definition key_prog (r : list Z) : program :=
  {| prog_columns := ["r_id"];
     prog_nparams := 0;
     prog_run := fun _ => map (fun id => [SqlInteger id]) r;
     prog_end := fun _ => Completes |}.

Definition col_prog (c : list (Z * string)) : program :=
  {| prog_columns := ["c_id"; "name"];
     prog_nparams := 0;
     prog_run := fun _ => map (fun kn => [SqlInteger (fst kn); SqlText (snd kn)]) c;
     prog_end := fun _ => Completes |}.

(** x holds name ++ id for every pair of a row of c and a row of r. *)
Definition pivot_prog (r : list Z) (c : list (Z * string)) : program :=
  {| prog_columns := ["val"];
     prog_nparams := 2;
     prog_run := fun binds =>
       match binds with
       | [SqlInteger rid; SqlInteger cid] =>
           flat_map
             (fun kn =>
                if (fst kn =? cid) && existsb (Z.eqb rid) r
                then [[SqlText (snd kn +++ decimal rid)]] else [])
             c
       | _ => []
       end;
     prog_end := fun _ => Completes |}.

Definition readme_db : sqlite3 :=
  mk_db key_query col_query pivot_query
    (key_prog table_r) (col_prog table_c) (pivot_prog table_r table_c).

Definition readme_args : list string := module_args key_query col_query pivot_query.

(** The table object and the declaration pivotConnect builds for it. *)
Definition readme_tab : pivot_vtab :=
  {| db := readme_db;
     nRow_key := 1;
     nRow_cols := 1;
     nCol_key := 4;
     col_stmt :=
       map (fun k => Some (idle_stmt (pivot_prog table_r table_c) [SqlNull; SqlInteger k]))
         [1; 2; 3; 4];
     key_sql_full_table_scan := select_from key_query;
     key_sql_col_names := [quote_ident "r_id"] |}.

Definition readme_schema : string :=
  Schema.create_table (map quote_ident ["r_id"; "a"; "b"; "c"; "d"]).

(** The rows of the pivot table in the header comment. *)
Definition readme_rows : list row :=
  [[SqlInteger 1; SqlText "a1"; SqlText "b1"; SqlText "c1"; SqlText "d1"];
   [SqlInteger 2; SqlText "a2"; SqlText "b2"; SqlText "c2"; SqlText "d2"];
   [SqlInteger 3; SqlText "a3"; SqlText "b3"; SqlText "c3"; SqlText "d3"]].

(** The cursor of a full scan after xFilter and [n] calls of xNext. *)
Definition readme_cursor (n : nat) : pivot_cursor :=
  Nat.iter n
    (fun c => match pivotNext readme_tab c with Some c' => c' | None => c end)
    (pivotFilter readme_tab pivotOpen 0 (select_from key_query) []).

(** A request with a consumed equality, a constraint on a pivot column, a
    function constraint, a consumed comparison and an unusable constraint;
    ordered by a pivot column, then by the key column, descending. *)
Definition request_constraints : list Constraint.t :=
  [ {| Constraint.iColumn := 0; Constraint.op := SQLITE_INDEX_CONSTRAINT_EQ;
       Constraint.usable := 1 |};
    {| Constraint.iColumn := 1; Constraint.op := SQLITE_INDEX_CONSTRAINT_EQ;
       Constraint.usable := 1 |};
    {| Constraint.iColumn := 0; Constraint.op := SQLITE_INDEX_CONSTRAINT_FUNCTION;
       Constraint.usable := 1 |};
    {| Constraint.iColumn := 0; Constraint.op := SQLITE_INDEX_CONSTRAINT_LT;
       Constraint.usable := 1 |};
    {| Constraint.iColumn := 0; Constraint.op := SQLITE_INDEX_CONSTRAINT_GT;
       Constraint.usable := 0 |} ].

Definition request_orderby : list OrderBy.t :=
  [ {| OrderBy.iColumn := 2; OrderBy.desc := 0 |};
    {| OrderBy.iColumn := 0; OrderBy.desc := 1 |} ].

(** The plan of a request against the sample table. *)
Definition readme_plan (cs : list Constraint.t) (obs : list OrderBy.t) : sqlite3_index_info :=
  match pivotBestIndex readme_tab (index_info_init cs obs) with
  | Some (_, info) => info
  | None => index_info_init cs obs
  end.

(** A key query with two result columns under a pivot query with two
    parameters: only the first key column reaches the pivot query. *)
Definition wide_key_query : string := "(SELECT id r_id, label FROM r)".

Definition wide_key_prog : program :=
  {| prog_columns := ["r_id"; "label"];
     prog_nparams := 0;
     prog_run := fun _ => [[SqlInteger 1; SqlText "x"]; [SqlInteger 2; SqlText "y"]];
     prog_end := fun _ => Completes |}.

Definition wide_db : sqlite3 :=
  mk_db wide_key_query col_query pivot_query
    wide_key_prog (col_prog table_c) (pivot_prog table_r table_c).

Definition wide_args : list string := module_args wide_key_query col_query pivot_query.

Definition wide_tab : pivot_vtab :=
  {| db := wide_db;
     nRow_key := 1;
     nRow_cols := 2;
     nCol_key := 4;
     col_stmt :=
       map (fun k => Some (idle_stmt (pivot_prog table_r table_c) [SqlNull; SqlInteger k]))
         [1; 2; 3; 4];
     key_sql_full_table_scan := select_from wide_key_query;
     key_sql_col_names := [quote_ident "r_id"; quote_ident "label"] |}.

Definition wide_schema : string :=
  Schema.create_table (map quote_ident ["r_id"; "label"; "a"; "b"; "c"; "d"]).

(** A cursor of the wide table on a row with the given key values. *)
Definition wide_cursor (key : row) : pivot_cursor :=
  {| iRowid := 1; stmt := None; rc := SQLITE_ROW; pivot_key := Some (map Some key) |}.

(** The usage example with a key query whose run fails after its three
    rows: the step after the last row answers SQLITE_ERROR. *)
Definition failing_key_prog : program :=
  {| prog_columns := ["r_id"];
     prog_nparams := 0;
     prog_run := fun _ => map (fun id => [SqlInteger id]) table_r;
     prog_end := fun _ => Fails Err.ERROR |}.

Definition failing_db : sqlite3 :=
  mk_db key_query col_query pivot_query
    failing_key_prog (col_prog table_c) (pivot_prog table_r table_c).

Definition failing_tab : pivot_vtab :=
  {| db := failing_db;
     nRow_key := 1;
     nRow_cols := 1;
     nCol_key := 4;
     col_stmt :=
       map (fun k => Some (idle_stmt (pivot_prog table_r table_c) [SqlNull; SqlInteger k]))
         [1; 2; 3; 4];
     key_sql_full_table_scan := select_from key_query;
     key_sql_col_names := [quote_ident "r_id"] |}.

(** A column-definition query with two rows that share the column key 1. *)
Definition dup_key_db : sqlite3 :=
  mk_db key_query col_query pivot_query
    (key_prog table_r) (col_prog [(1, "a"); (1, "b")]) (pivot_prog table_r table_c).

(** Three rows, the last of which repeats the key of the first. *)
Definition dup_last_db : sqlite3 :=
  mk_db key_query col_query pivot_query
    (key_prog table_r) (col_prog [(1, "a"); (2, "b"); (1, "c")])
    (pivot_prog table_r table_c).

(** Three rows, the first two of which share their key. *)
Definition dup_first_db : sqlite3 :=
  mk_db key_query col_query pivot_query
    (key_prog table_r) (col_prog [(1, "a"); (1, "b"); (3, "c")])
    (pivot_prog table_r table_c).

End Sample.
(* ================================================================== *)
(** * The methods that do nothing of their own *)
(* ================================================================== *)

(** [pivotCreate]: xCreate and xConnect do the same thing. *)
Definition pivotCreate (db : sqlite3) (argv : list string) : connect_result :=
  pivotConnect db argv.

(** [pivotRename]: the new name is accepted, nothing is recorded. *)
Definition pivotRename (tab : pivot_vtab) (zName : string) : Z * pivot_vtab :=
  (SQLITE_OK, tab).

(* ================================================================== *)
(** * Repeated advances and scans under a plan *)
(* ================================================================== *)

(** [n] calls of xNext in a row; [None] as soon as one of them is
    undefined. *)
Fixpoint pivotNext_times (n : nat) (tab : pivot_vtab) (cur : pivot_cursor)
  : option pivot_cursor :=
  match n with
  | O => Some cur
  | S n' =>
      match pivotNext tab cur with
      | None => None
      | Some cur' => pivotNext_times n' tab cur'
      end
  end.

(** The parameters of a freshly prepared statement of [fp] after the
    values [vals] have been bound to the slots 1, 2, ...: a value without
    slot is dropped, a slot without value stays NULL. *)
Definition filter_binds (fp : program) (vals : list sqlite3_value) : list sqlite3_value :=
  firstn (prog_nparams fp) vals
    ++ repeat SqlNull (prog_nparams fp - List.length vals).

(** The text of the plan for a request: the full-scan query, the WHERE
    clause of the consumed constraints, the ORDER BY clause of the
    eligible terms. *)
Definition plan_text (tab : pivot_vtab) (cs : list Constraint.t) (obs : list OrderBy.t)
  : string :=
  key_sql_full_table_scan tab +++ Plan.where_clause tab cs +++ Plan.order_clause tab obs.

(** A constraint for which the planner reads the names array: usable, on
    a column index below the number of row-key columns, with an operator
    that has a textual form. *)
Definition names_read_by (tab : pivot_vtab) (c : Constraint.t) : Prop :=
  Constraint.usable c <> 0
  /\ Constraint.iColumn c < nRow_cols tab
  /\ constraint_op (Constraint.op c) <> None.

(** The cursor of a scan whose statement could not be prepared. *)
Definition unprepared (tab : pivot_vtab) (cur : pivot_cursor) : Prop :=
  stmt cur = None
  /\ rc cur = SQLITE_MISUSE
  /\ pivot_key cur = Some (map (fun _ => Some SqlNull) (zrange 0 (nRow_cols tab))).

(* ================================================================== *)
(** * Ownership: what the cursor methods allocate and release *)
(* ================================================================== *)

(** The definitions above follow the values the methods compute.  This
    module follows the cursor methods once more with the allocator made
    explicit, to tell what each of them releases, and when.  Allocations
    are taken to succeed. *)
Module Lifetime.

(** A pointer, with what the allocator knows about its target.  The
    code itself can only compare a pointer with NULL: [Stale] (the
    address of a block that has been released) is not NULL.  [Junk] is
    the content of memory that was never written. *)
Inductive ptr (A : Type) : Type :=
| Null
| Live (a : A)
| Stale
| Junk.

Arguments Null {A}.
Arguments Live {A} a.
Arguments Stale {A}.
Arguments Junk {A}.

Inductive fault : Type :=
| UseAfterFree
| DoubleFree
| NullDereference
| Uninitialised
| OutOfBounds.

(** A call returns, or has undefined behaviour of the given kind. *)
Inductive outcome (A : Type) : Type :=
| Done (a : A)
| Fault (f : fault).

Arguments Done {A} a.
Arguments Fault {A} f.

Definition bind {A B} (m : outcome A) (k : A -> outcome B) : outcome B :=
  match m with
  | Done a => k a
  | Fault f => Fault f
  end.

Notation "x <- m ;; k" := (bind m (fun x => k))
  (at level 61, m at next level, right associativity).
Notation "' pat <- m ;; k" := (bind m (fun pat => k))
  (at level 61, pat pattern, m at next level, right associativity).

(** A loop [for (i = lo; i < hi; i++) body] over a state, left at the
    first fault. *)
Fixpoint for_each {S} (idx : list Z) (body : Z -> S -> outcome S) (s : S) : outcome S :=
  match idx with
  | [] => Done s
  | i :: idx' => s' <- body i s ;; for_each idx' body s'
  end.

(** What is in use: the blocks obtained from sqlite3_malloc and
    sqlite3_value_dup and not yet freed, the statements prepared and not
    yet finalized. *)
Record ledger : Type := {
  blocks : Z;
  statements : Z
}.

Definition taken (h : ledger) : ledger :=
  {| blocks := blocks h + 1; statements := statements h |}.

Definition given_back (h : ledger) : ledger :=
  {| blocks := blocks h - 1; statements := statements h |}.

Definition prepared (h : ledger) : ledger :=
  {| blocks := blocks h; statements := statements h + 1 |}.

Definition finalized (h : ledger) : ledger :=
  {| blocks := blocks h; statements := statements h - 1 |}.

(** [sqlite3_malloc(n)]: NULL when [n] is not positive, else a block
    with the content [junk]. *)
Definition sqlite3_malloc {A} (h : ledger) (n : Z) (junk : A) : ptr A * ledger :=
  if n <=? 0 then (Null, h) else (Live junk, taken h).

(** [sqlite3_free] and [sqlite3_value_free]: nothing happens on NULL. *)
Definition sqlite3_free {A} (h : ledger) (p : ptr A) : outcome ledger :=
  match p with
  | Null => Done h
  | Live _ => Done (given_back h)
  | Stale => Fault DoubleFree
  | Junk => Fault Uninitialised
  end.

Definition sqlite3_value_dup (h : ledger) (v : sqlite3_value)
  : ptr sqlite3_value * ledger :=
  (Live v, taken h).

(** [sqlite3_finalize]: nothing happens on NULL. *)
Definition sqlite3_finalize (h : ledger) (p : ptr sqlite3_stmt) : outcome ledger :=
  match p with
  | Null => Done h
  | Live _ => Done (finalized h)
  | Stale => Fault UseAfterFree
  | Junk => Fault Uninitialised
  end.

(** Reading or writing through a pointer. *)
Definition deref {A} (p : ptr A) : outcome A :=
  match p with
  | Live a => Done a
  | Null => Fault NullDereference
  | Stale => Fault UseAfterFree
  | Junk => Fault Uninitialised
  end.

(** The test [if (p)]. *)
Definition non_null {A} (p : ptr A) : bool :=
  match p with
  | Null => false
  | _ => true
  end.

(** A pointer field after its target has been released: the field keeps
    the address. *)
Definition released {A} (p : ptr A) : ptr A :=
  match p with
  | Null => Null
  | _ => Stale
  end.

(** The pointer a statement argument of the engine's interface stands
    for, and back. *)
Definition stmt_arg (p : ptr sqlite3_stmt) : outcome (option sqlite3_stmt) :=
  match p with
  | Null => Done None
  | Live st => Done (Some st)
  | Stale => Fault UseAfterFree
  | Junk => Fault Uninitialised
  end.

Definition stmt_field (p : option sqlite3_stmt) : ptr sqlite3_stmt :=
  match p with
  | None => Null
  | Some st => Live st
  end.

Definition sizeof_pointer : Z := 8.

(** [struct pivot_cursor]. *)
Record pivot_cursor : Type := {
  iRowid : Z;
  stmt : ptr sqlite3_stmt;
  rc : Z;
  pivot_key : ptr (list (ptr sqlite3_value))
}.

Definition loop_state : Type := ptr (list (ptr sqlite3_value)) * ledger.

(** [sqlite3_value_free(cur->pivot_key[i])], followed in pivotNext by
    [cur->pivot_key[i] = 0]. *)
Definition free_entry (clear : bool) (i : Z) (s : loop_state) : outcome loop_state :=
  let (key, h) := s in
  arr <- deref key ;;
  match znth arr i with
  | None => Fault OutOfBounds
  | Some p =>
      h' <- sqlite3_free h p ;;
      Done (Live (zset arr i (if clear then Null else released p)), h')
  end.

(** [cur->pivot_key[i] = sqlite3_value_dup(sqlite3_column_value(stmt, i))]. *)
Definition store_entry (p : option sqlite3_stmt) (i : Z) (s : loop_state)
  : outcome loop_state :=
  let (key, h) := s in
  arr <- deref key ;;
  match znth arr i with
  | None => Fault OutOfBounds
  | Some _ =>
      let (v, h') := sqlite3_value_dup h (sqlite3_column_value p i) in
      Done (Live (zset arr i v), h')
  end.

(** [pivotOpen]: the cursor is allocated and cleared. *)
Definition pivotOpen (h : ledger) : pivot_cursor * ledger :=
  ({| iRowid := 0; stmt := Null; rc := 0; pivot_key := Null |}, taken h).

(** [pivotFilter].  The key array is allocated and the statement
    prepared into the cursor's fields, whatever these fields held. *)
Definition pivotFilter (tab : pivot_vtab) (cur : pivot_cursor)
    (idxNum : Z) (idxStr : string) (argv : list sqlite3_value) (h : ledger)
  : outcome (pivot_cursor * ledger) :=
  let (key, h) :=
    sqlite3_malloc h (nRow_cols tab * sizeof_pointer)
      (repeat Junk (Z.to_nat (nRow_cols tab))) in
  let r := sqlite3_prepare_v2 (db tab) idxStr in
  let h := match r with inr _ => prepared h | inl _ => h end in
  let p := bind_args (stmt_ptr r) 0 argv in
  let (rc', p) := sqlite3_step p in
  if rc' =? SQLITE_DONE then
    Done ({| iRowid := 1; stmt := stmt_field p; rc := rc'; pivot_key := Null |}, h)
  else
    '(key, h) <- for_each (zrange 0 (nRow_cols tab)) (store_entry p) (key, h) ;;
    Done ({| iRowid := 1; stmt := stmt_field p; rc := rc'; pivot_key := key |}, h).

(** [pivotNext]. *)
Definition pivotNext (tab : pivot_vtab) (cur : pivot_cursor) (h : ledger)
  : outcome (pivot_cursor * ledger) :=
  '(key, h) <-
    (if non_null (pivot_key cur)
     then for_each (zrange 0 (nRow_cols tab)) (free_entry true) (pivot_key cur, h)
     else Done (pivot_key cur, h)) ;;
  p <- stmt_arg (stmt cur) ;;
  let (rc', p) := sqlite3_step p in
  '(key, h) <-
    (if negb (rc' =? SQLITE_DONE)
     then for_each (zrange 0 (nRow_cols tab)) (store_entry p) (key, h)
     else Done (key, h)) ;;
  Done ({| iRowid := iRowid cur + 1; stmt := stmt_field p; rc := rc'; pivot_key := key |}, h).

(** The release of the key array in pivotEof and pivotClose: the values,
    then the array; the pointer field is not cleared. *)
Definition free_key (tab : pivot_vtab) (key : ptr (list (ptr sqlite3_value))) (h : ledger)
  : outcome loop_state :=
  if non_null key then
    '(key, h) <- for_each (zrange 0 (nRow_cols tab)) (free_entry false) (key, h) ;;
    h <- sqlite3_free h key ;;
    Done (released key, h)
  else Done (key, h).

(** [pivotEof]. *)
Definition pivotEof (tab : pivot_vtab) (cur : pivot_cursor) (h : ledger)
  : outcome (Z * pivot_cursor * ledger) :=
  if rc cur =? SQLITE_DONE then
    '(key, h) <- free_key tab (pivot_key cur) h ;;
    h <- sqlite3_finalize h (stmt cur) ;;
    Done (1, {| iRowid := iRowid cur; stmt := Null; rc := rc cur; pivot_key := key |}, h)
  else Done (0, cur, h).

(** [pivotClose]: what is in use once the cursor itself is freed. *)
Definition pivotClose (tab : pivot_vtab) (cur : pivot_cursor) (h : ledger)
  : outcome ledger :=
  '(_, h) <- free_key tab (pivot_key cur) h ;;
  h <- (if non_null (stmt cur) then sqlite3_finalize h (stmt cur) else Done h) ;;
  Done (given_back h).

(** [pivotRowid]. *)
Definition pivotRowid (cur : pivot_cursor) : Z := iRowid cur.

(** The value [cur->pivot_key[i]] points to. *)
Definition key_value (cur : pivot_cursor) (i : Z) : outcome sqlite3_value :=
  arr <- deref (pivot_key cur) ;;
  match znth arr i with
  | None => Fault OutOfBounds
  | Some p => deref p
  end.

(** [pivotColumn]; nothing is allocated or released. *)
Definition pivotColumn (tab : pivot_vtab) (cur : pivot_cursor) (i : Z)
  : outcome (pivot_vtab * sqlite3_value) :=
  if i <? nRow_cols tab then
    v <- key_value cur i ;;
    Done (tab, v)
  else
    match znth (col_stmt tab) (i - nRow_cols tab) with
    | None => Fault OutOfBounds
    | Some p =>
        p <- for_each (zrange 0 (nRow_key tab))
               (fun i p => v <- key_value cur i ;; Done (sqlite3_bind_value p (i + 1) v)) p ;;
        let (rc', p) := sqlite3_step p in
        let v := if rc' =? SQLITE_ROW then sqlite3_column_value p 0 else SqlNull in
        let p := sqlite3_reset p in
        Done (with_col_stmt tab (i - nRow_cols tab) p, v)
    end.

Fixpoint read_columns (tab : pivot_vtab) (cur : pivot_cursor) (idx : list Z)
  : outcome (pivot_vtab * row) :=
  match idx with
  | [] => Done (tab, [])
  | i :: idx' =>
      '(tab', v) <- pivotColumn tab cur i ;;
      '(tab'', vs) <- read_columns tab' cur idx' ;;
      Done (tab'', v :: vs)
  end.

(** The engine's scan loop, as above; [None] when [fuel] runs out. *)
Fixpoint scan_loop (fuel : nat) (ncol : Z) (tab : pivot_vtab) (cur : pivot_cursor)
    (h : ledger) : option (outcome (pivot_vtab * pivot_cursor * list row * ledger)) :=
  match fuel with
  | O => None
  | S fuel' =>
      match pivotEof tab cur h with
      | Fault f => Some (Fault f)
      | Done (eof, cur, h) =>
          if negb (eof =? 0) then Some (Done (tab, cur, [], h))
          else
            match read_columns tab cur (zrange 0 ncol) with
            | Fault f => Some (Fault f)
            | Done (tab, r) =>
                match pivotNext tab cur h with
                | Fault f => Some (Fault f)
                | Done (cur, h) =>
                    match scan_loop fuel' ncol tab cur h with
                    | None => None
                    | Some (Fault f) => Some (Fault f)
                    | Some (Done (tab, cur, rs, h)) => Some (Done (tab, cur, r :: rs, h))
                    end
                end
            end
      end
  end.

(** A cursor is opened and reads the whole table under a plan: xOpen,
    xFilter, the scan loop. *)
Definition scan (fuel : nat) (ncol : Z) (tab : pivot_vtab) (idxStr : string)
    (argv : list sqlite3_value) (h : ledger)
  : option (outcome (pivot_vtab * pivot_cursor * list row * ledger)) :=
  let (cur, h) := pivotOpen h in
  match pivotFilter tab cur 0 idxStr argv h with
  | Fault f => Some (Fault f)
  | Done (cur, h) => scan_loop fuel ncol tab cur h
  end.

(** The life of that cursor: it is closed after the scan. *)
Definition session (fuel : nat) (ncol : Z) (tab : pivot_vtab) (idxStr : string)
    (argv : list sqlite3_value) (h : ledger)
  : option (outcome (pivot_vtab * list row * ledger)) :=
  match scan fuel ncol tab idxStr argv h with
  | None => None
  | Some (Fault f) => Some (Fault f)
  | Some (Done (tab, cur, rs, h)) =>
      match pivotClose tab cur h with
      | Fault f => Some (Fault f)
      | Done h => Some (Done (tab, rs, h))
      end
  end.

(** [n] calls of xNext in a row. *)
Fixpoint pivotNext_times (n : nat) (tab : pivot_vtab) (cur : pivot_cursor) (h : ledger)
  : outcome (pivot_cursor * ledger) :=
  match n with
  | O => Done (cur, h)
  | S n' => '(cur', h') <- pivotNext tab cur h ;; pivotNext_times n' tab cur' h'
  end.

(** The life of a cursor that is closed after [n] calls of xNext,
    without a call of xEof: a statement that stops reading early. *)
Definition short_session (n : nat) (tab : pivot_vtab) (idxStr : string)
    (argv : list sqlite3_value) (h : ledger) : outcome ledger :=
  let (cur, h) := pivotOpen h in
  '(cur, h) <- pivotFilter tab cur 0 idxStr argv h ;;
  '(cur, h) <- pivotNext_times n tab cur h ;;
  pivotClose tab cur h.

End Lifetime.

(** The cursor stands on the row [r] of its statement, [rest] being the
    rows still to come, and owns a copy of every value of [r]. *)
Definition owns_row (cur : Lifetime.pivot_cursor) (r : row) (rest : list row) : Prop :=
  Lifetime.rc cur = SQLITE_ROW
  /\ Lifetime.pivot_key cur = Lifetime.Live (map Lifetime.Live r)
  /\ exists st, Lifetime.stmt cur = Lifetime.Live st /\ stmt_pending st = rest.

(** The way the run of the cursor's statement ends. *)
Definition cursor_end (cur : Lifetime.pivot_cursor) : option run_end :=
  match Lifetime.stmt cur with
  | Lifetime.Live st => Some (stmt_end st)
  | _ => None
  end.

(** The ledger [h] after [b] more blocks and [s] more statements. *)
Definition ledger_plus (h : Lifetime.ledger) (b s : Z) : Lifetime.ledger :=
  {| Lifetime.blocks := Lifetime.blocks h + b;
     Lifetime.statements := Lifetime.statements h + s |}.

(** The value-level cursor a cursor with a valid key array stands for. *)
Definition values_of (cur : Lifetime.pivot_cursor) (key : row) : pivot_cursor :=
  {| iRowid := Lifetime.iRowid cur;
     stmt := match Lifetime.stmt cur with Lifetime.Live st => Some st | _ => None end;
     rc := Lifetime.rc cur;
     pivot_key := Some (map Some key) |}.

(* ================================================================== *)
(** * Ownership: what creation allocates, and what is released *)
(* ================================================================== *)

(** pivotConnect and pivotDisconnect with the allocator made explicit.
    A sqlite3_str and its buffer count as one block, so does the result
    of sqlite3_get_table; the message left in [*pzErr] belongs to the
    engine and is not counted. *)
Module TableLifetime.

Import Lifetime.

(** [n] more blocks in use. *)
Definition taken_n (h : ledger) (n : Z) : ledger :=
  {| blocks := blocks h + n; statements := statements h |}.

(** [sqlite3_free_table]: nothing happens on NULL. *)
Definition sqlite3_free_table (h : ledger) (p : ptr table) : outcome ledger :=
  sqlite3_free h p.

(** The local variables of pivotConnect that own something, and the
    table object as far as it has been filled in.  In the table object
    the arrays [col_stmt] and [key_sql_col_names] are NULL as long as they
    have no entry; [key_sql_full_table_scan] is set before the first
    return. *)
Record connect_frame : Type := {
  cf_tab : pivot_vtab;
  stmt_key_query : ptr sqlite3_stmt;
  stmt_pivot_query : ptr sqlite3_stmt;
  stmt_col_query : ptr sqlite3_stmt;
  sql : ptr string;
  pivot_query_sql : ptr string;
  zMsg : ptr string;
  azData : ptr table
}.

(** The loop over [col_stmt] and the release of the array, as
    PIVOT_VTAB_CONNECT_ERROR and pivotDisconnect have them. *)
Definition release_col_stmt (tab : pivot_vtab) (h : ledger) : outcome ledger :=
  h <- for_each (zrange 0 (nCol_key tab))
         (fun i h =>
            match znth (col_stmt tab) i with
            | None => Fault OutOfBounds
            | Some p => sqlite3_finalize h (stmt_field p)
            end) h ;;
  Done (match col_stmt tab with [] => h | _ => given_back h end).

(** The loop over [key_sql_col_names] and the release of the array. *)
Definition release_names (tab : pivot_vtab) (h : ledger) : outcome ledger :=
  h <- for_each (zrange 0 (nRow_cols tab))
         (fun i h =>
            match znth (key_sql_col_names tab) i with
            | None => Fault OutOfBounds
            | Some _ => Done (given_back h)
            end) h ;;
  Done (match key_sql_col_names tab with [] => h | _ => given_back h end).

(** The macro PIVOT_VTAB_CONNECT_ERROR, up to its [return]. *)
Definition PIVOT_VTAB_CONNECT_ERROR (f : connect_frame) (h : ledger) : outcome ledger :=
  h <- sqlite3_finalize h (stmt_key_query f) ;;
  h <- sqlite3_finalize h (stmt_pivot_query f) ;;
  h <- sqlite3_finalize h (stmt_col_query f) ;;
  h <- sqlite3_free h (sql f) ;;
  h <- sqlite3_free h (pivot_query_sql f) ;;
  let h := given_back h in                    (* tab->key_sql_full_table_scan *)
  h <- sqlite3_free h (zMsg f) ;;
  h <- sqlite3_free_table h (azData f) ;;
  let h := given_back h in                    (* sqlite3_str_finish(create_vtab_sql) *)
  h <- release_col_stmt (cf_tab f) h ;;
  h <- release_names (cf_tab f) h ;;
  Done (given_back h).                        (* tab *)

(** [pivotDisconnect]. *)
Definition pivotDisconnect (tab : pivot_vtab) (h : ledger) : outcome ledger :=
  h <- release_col_stmt tab h ;;
  h <- release_names tab h ;;
  let h := given_back h in                    (* tab->key_sql_full_table_scan *)
  Done (given_back h).                        (* tab *)

(** [argv[i]]. *)
Definition arg (argv : list string) (i : Z) : outcome string :=
  match znth argv i with
  | Some a => Done a
  | None => Fault OutOfBounds
  end.

(** An error return of pivotConnect: the macro, then SQLITE_ERROR with
    the message in [*pzErr]. *)
Definition error_return {A} (f : connect_frame) (h : ledger) (zErr : string)
  : outcome (connect_result * ledger + A) :=
  h <- PIVOT_VTAB_CONNECT_ERROR f h ;;
  Done (inl (ConnectError zErr, h)).

(** What pivotConnect holds when it enters its last loop. *)
Record connect_ready : Type := {
  cr_tab : pivot_vtab;
  cr_create_vtab_sql : string;
  cr_pivot_query_sql : string;
  cr_stmt_col_query : sqlite3_stmt
}.

(** pivotConnect up to the end of the uniqueness validation (source
    lines 271-383): an error return, or the state in which the last loop
    is entered. *)
Definition connect_validate (db0 : sqlite3) (argv : list string) (h : ledger)
  : outcome (connect_result * ledger + connect_ready * ledger) :=
  (* tab = sqlite3_malloc(sizeof(pivot_vtab)); create_vtab_sql = sqlite3_str_new(db) *)
  let h := taken (taken h) in
  let create_vtab_sql := "CREATE TABLE x(" in
  (* Pivot table key query *)
  argv3 <- arg argv 3 ;;
  let full_scan := select_from argv3 in
  let h := taken h in
  let tab :=
    {| db := db0; nRow_key := 0; nRow_cols := 0; nCol_key := 0; col_stmt := [];
       key_sql_full_table_scan := full_scan; key_sql_col_names := [] |} in
  let f :=
    {| cf_tab := tab; stmt_key_query := Null; stmt_pivot_query := Null;
       stmt_col_query := Null; sql := Null; pivot_query_sql := Null; zMsg := Null;
       azData := Null |} in
  match sqlite3_prepare_v2 db0 full_scan with
  | inl msg => error_return f h ("Pivot table key query prepare error - " +++ msg)
  | inr st =>
  let h := prepared h in
  let n_row_cols := sqlite3_column_count (Some st) in
  (* the names array, then one sqlite3_mprintf per name *)
  let h := snd (sqlite3_malloc h (n_row_cols * sizeof_pointer) tt) in
  let (names, create_vtab_sql) :=
    connect_key_names (Some st) n_row_cols create_vtab_sql in
  let h := taken_n h (Z.of_nat (List.length names)) in
  let tab :=
    {| db := db0; nRow_key := 0; nRow_cols := n_row_cols; nCol_key := 0; col_stmt := [];
       key_sql_full_table_scan := full_scan; key_sql_col_names := names |} in
  h <- sqlite3_finalize h (Live st) ;;
  (* Pivot query *)
  argv5 <- arg argv 5 ;;
  let pivot_query := select_from argv5 in
  let h := taken h in
  let f :=
    {| cf_tab := tab; stmt_key_query := Null; stmt_pivot_query := Null;
       stmt_col_query := Null; sql := Null; pivot_query_sql := Live pivot_query;
       zMsg := Null; azData := Null |} in
  match sqlite3_prepare_v2 db0 pivot_query with
  | inl msg => error_return f h ("Pivot query prepare error - " +++ msg)
  | inr st =>
  let h := prepared h in
  let n_row_key := sqlite3_bind_parameter_count (Some st) - 1 in
  let tab :=
    {| db := db0; nRow_key := n_row_key; nRow_cols := n_row_cols; nCol_key := 0;
       col_stmt := []; key_sql_full_table_scan := full_scan;
       key_sql_col_names := names |} in
  let f :=
    {| cf_tab := tab; stmt_key_query := Null; stmt_pivot_query := Live st;
       stmt_col_query := Null; sql := Null; pivot_query_sql := Live pivot_query;
       zMsg := Null; azData := Null |} in
  (* Validate bound param count *)
  if n_row_cols <? n_row_key
  then error_return f h "Pivot table key query error - Unexpected number of bound parameters."
  else
  h <- sqlite3_finalize h (Live st) ;;
  (* Pivot table column definition query *)
  argv4 <- arg argv 4 ;;
  let col_query := select_from argv4 in
  let h := taken h in
  let f :=
    {| cf_tab := tab; stmt_key_query := Null; stmt_pivot_query := Null;
       stmt_col_query := Null; sql := Live col_query; pivot_query_sql := Live pivot_query;
       zMsg := Null; azData := Null |} in
  match sqlite3_prepare_v2 db0 col_query with
  | inl msg =>
      error_return f h ("Pivot table column definition query prepare error - " +++ msg)
  | inr st =>
  let h := prepared h in
  let f :=
    {| cf_tab := tab; stmt_key_query := Null; stmt_pivot_query := Null;
       stmt_col_query := Live st; sql := Live col_query;
       pivot_query_sql := Live pivot_query; zMsg := Null; azData := Null |} in
  if negb (sqlite3_column_count (Some st) =? 2)
  then error_return f h
         ("Pivot table column definition query expects 2 result column. Query contains "
            +++ decimal (sqlite3_column_count (Some st)) +++ " columns.")
  else
  (* Validate pivot columns for uniqueness *)
  match sqlite3_get_table db0 col_query with
  | inl msg =>
      let h := taken h in
      let f :=
        {| cf_tab := tab; stmt_key_query := Null; stmt_pivot_query := Null;
           stmt_col_query := Live st; sql := Live col_query;
           pivot_query_sql := Live pivot_query; zMsg := Live msg; azData := Null |} in
      error_return f h msg
  | inr t =>
  let h := taken h in
  let f :=
    {| cf_tab := tab; stmt_key_query := Null; stmt_pivot_query := Null;
       stmt_col_query := Live st; sql := Live col_query;
       pivot_query_sql := Live pivot_query; zMsg := Null; azData := Live t |} in
  match connect_check_unique t with
  | Some (ConnectError zErr) => error_return f h zErr
  | Some _ => Fault NullDereference
  | None =>
  h <- sqlite3_free_table h (Live t) ;;
  h <- sqlite3_free h (Live col_query) ;;
  Done (inr ({| cr_tab := tab; cr_create_vtab_sql := create_vtab_sql;
                cr_pivot_query_sql := pivot_query; cr_stmt_col_query := st |}, h))
  end end end end end.

(** The loop that builds the column statements (source lines 389-398):
    the array is allocated by the first sqlite3_realloc and grown by the
    later ones, every turn prepares a statement. *)
Fixpoint connect_columns (fuel : nat) (pivot_query_sql : string)
    (stmt_col_query : option sqlite3_stmt) (tab : pivot_vtab) (create_vtab_sql : string)
    (h : ledger) : option (pivot_vtab * string * ledger) :=
  match fuel with
  | O => None
  | S fuel' =>
      let (rc, stmt_col_query) := sqlite3_step stmt_col_query in
      if rc =? SQLITE_ROW then
        let h := match col_stmt tab with [] => taken h | _ => h end in
        let r := sqlite3_prepare_v2 (db tab) pivot_query_sql in
        let h := match r with inr _ => prepared h | inl _ => h end in
        let st := sqlite3_bind_value (stmt_ptr r) (nRow_key tab + 1)
                    (sqlite3_column_value stmt_col_query 0) in
        let tab :=
          {| db := db tab;
             nRow_key := nRow_key tab;
             nRow_cols := nRow_cols tab;
             nCol_key := nCol_key tab + 1;
             col_stmt := col_stmt tab ++ [st];
             key_sql_full_table_scan := key_sql_full_table_scan tab;
             key_sql_col_names := key_sql_col_names tab |} in
        connect_columns fuel' pivot_query_sql stmt_col_query tab
          (create_vtab_sql +++ ","
             +++ quote_ident_ptr (sqlite3_column_text stmt_col_query 1)) h
      else Some (tab, create_vtab_sql, h)
  end.

(** [pivotConnect]: how the call ends, and what is in use then.  After
    the loop the column query is finalized, the pivot query text freed,
    the declaration finished, handed to sqlite3_declare_vtab and freed;
    the answer of sqlite3_declare_vtab is returned as it is. *)
Definition pivotConnect (db0 : sqlite3) (argv : list string) (h : ledger)
  : option (outcome (connect_result * ledger)) :=
  match connect_validate db0 argv h with
  | Fault f => Some (Fault f)
  | Done (inl res) => Some (Done res)
  | Done (inr (cr, h)) =>
      match connect_columns (S (List.length (stmt_pending (cr_stmt_col_query cr))))
              (cr_pivot_query_sql cr) (Some (cr_stmt_col_query cr)) (cr_tab cr)
              (cr_create_vtab_sql cr) h with
      | None => None
      | Some (tab, create_vtab_sql, h) =>
          let h := finalized h in             (* stmt_col_query *)
          let h := given_back h in            (* pivot_query_sql *)
          let sql := create_vtab_sql +++ ")" in
          let rc := db_declare_vtab db0 sql in
          let h := given_back h in            (* sql *)
          Some (Done (if rc =? SQLITE_OK then Connected tab sql
                      else DeclareRefused rc sql, h))
      end
  end.

(** [pivotCreate]. *)
Definition pivotCreate (db0 : sqlite3) (argv : list string) (h : ledger)
  : option (outcome (connect_result * ledger)) :=
  pivotConnect db0 argv h.

End TableLifetime.

(** One block for an array with entries, none for an array without. *)
Definition array_blocks (n : Z) : Z := if n <=? 0 then 0 else 1.

(** What a table object with [n] row-key columns and [k] pivot columns
    owns: itself, its full-scan text, its names and their array, its
    column statements and their array. *)
Definition owned_by_table (h : Lifetime.ledger) (n k : Z) : Lifetime.ledger :=
  ledger_plus h (2 + n + array_blocks n + array_blocks k) k.

Module MoreSamples.

Import Sample.

(** The sample connection, which besides compiles the plan for an
    equality on the row id. *)
Definition by_id_text : string :=
  select_from key_query +++ nl +++ " WHERE " +++ quote_ident "r_id" +++ " = ?".

Definition by_id_prog (r : list Z) : program :=
  {| prog_columns := ["r_id"];
     prog_nparams := 1;
     prog_run := fun binds =>
       match binds with
       | [SqlInteger id] => map (fun x => [SqlInteger x]) (filter (Z.eqb id) r)
       | _ => []
       end;
     prog_end := fun _ => Completes |}.

Definition filtered_db : sqlite3 :=
  {| db_compile := fun sql =>
       if String.eqb sql by_id_text then inr (by_id_prog table_r)
       else db_compile readme_db sql;
     db_declare_vtab := fun _ => SQLITE_OK |}.

Definition filtered_tab : pivot_vtab :=
  {| db := filtered_db;
     nRow_key := 1;
     nRow_cols := 1;
     nCol_key := 4;
     col_stmt :=
       map (fun k => Some (idle_stmt (pivot_prog table_r table_c) [SqlNull; SqlInteger k]))
         [1; 2; 3; 4];
     key_sql_full_table_scan := select_from key_query;
     key_sql_col_names := [quote_ident "r_id"] |}.

Definition by_id : list Constraint.t :=
  [ {| Constraint.iColumn := 0; Constraint.op := SQLITE_INDEX_CONSTRAINT_EQ;
       Constraint.usable := 1 |} ].

(** A constraint and an ordering on the rowid. *)
Definition on_rowid : list Constraint.t :=
  [ {| Constraint.iColumn := -1; Constraint.op := SQLITE_INDEX_CONSTRAINT_EQ;
       Constraint.usable := 1 |} ].

Definition by_rowid : list OrderBy.t := [ {| OrderBy.iColumn := -1; OrderBy.desc := 0 |} ].

(** A pivot query without parameter: the largest value of x. *)
Definition max_query : string := "(SELECT max(val) FROM x)".

Definition max_prog : program :=
  {| prog_columns := ["max(val)"];
     prog_nparams := 0;
     prog_run := fun _ => [[SqlText "d3"]];
     prog_end := fun _ => Completes |}.

Definition max_db : sqlite3 :=
  mk_db key_query col_query max_query
    (key_prog table_r) (col_prog table_c) max_prog.

Definition max_args : list string := module_args key_query col_query max_query.

Definition max_tab : pivot_vtab :=
  {| db := max_db;
     nRow_key := -1;
     nRow_cols := 1;
     nCol_key := 4;
     col_stmt := map (fun _ => Some (idle_stmt max_prog [])) [1; 2; 3; 4];
     key_sql_full_table_scan := select_from key_query;
     key_sql_col_names := [quote_ident "r_id"] |}.

(** A column-definition query whose first row has no column key. *)
Definition null_key_prog : program :=
  {| prog_columns := ["c_id"; "name"];
     prog_nparams := 0;
     prog_run := fun _ =>
       [[SqlNull; SqlText "a"]; [SqlInteger 2; SqlText "b"]; [SqlInteger 3; SqlText "c"]];
     prog_end := fun _ => Completes |}.

Definition null_key_db : sqlite3 :=
  mk_db key_query col_query pivot_query
    (key_prog table_r) null_key_prog (pivot_prog table_r table_c).

(** The sample connection with an engine that refuses every
    declaration. *)
Definition refusing_db : sqlite3 :=
  {| db_compile := db_compile readme_db;
     db_declare_vtab := fun _ => SQLITE_ERROR |}.

End MoreSamples.


(* ================================================================== *)
(** * Binary64 quotients *)
(* ================================================================== *)

Lemma digits2_pos_bounds p :
  2 ^ (Zpos (digits2_pos p) - 1) <= Zpos p < 2 ^ Zpos (digits2_pos p).
Proof.
  induction p as [p IH|p IH|]; cbn [digits2_pos].
  - rewrite Pos2Z.inj_succ. replace (Z.succ (Zpos (digits2_pos p)) - 1) with (Z.succ (Zpos (digits2_pos p) - 1)) by lia.
    rewrite !Z.pow_succ_r by lia. lia.
  - rewrite Pos2Z.inj_succ. replace (Z.succ (Zpos (digits2_pos p)) - 1) with (Z.succ (Zpos (digits2_pos p) - 1)) by lia.
    rewrite !Z.pow_succ_r by lia. lia.
  - cbn. lia.
Qed.

Lemma digits2_pos_unique p n :
  2 ^ (n - 1) <= Zpos p < 2 ^ n -> Zpos (digits2_pos p) = n.
Proof.
  intros H. pose proof (digits2_pos_bounds p) as B.
  assert (0 < n).
  { destruct (Z.ltb_spec 0 n); [assumption|]. exfalso.
    assert (2 ^ n <= 2 ^ 0) by (destruct (Z.eqb_spec n 0); [subst; lia|rewrite Z.pow_neg_r by lia; cbn; lia]).
    cbn in *. lia. }
  assert (E1 : Z.log2 (Zpos p) = n - 1).
  { apply Z.log2_unique; [lia|]. replace (Z.succ (n - 1)) with n by lia. exact H. }
  assert (E2 : Z.log2 (Zpos p) = Zpos (digits2_pos p) - 1).
  { apply Z.log2_unique; [lia|].
    replace (Z.succ (Zpos (digits2_pos p) - 1)) with (Zpos (digits2_pos p)) by lia. exact B. }
  lia.
Qed.

Lemma iter_xO p n : Zpos (Pos.iter xO p n) = Zpos p * 2 ^ Zpos n.
Proof.
  rewrite <- Pos2Z.inj_pow.
  induction n as [|n IH] using Pos.peano_ind.
  - cbn. lia.
  - rewrite Pos.iter_succ, Pos.pow_succ_r. rewrite Pos2Z.inj_xO, IH. lia.
Qed.

(** The conversion of a positive int below 2^53: exact, normalized. *)
Lemma binary64_of_int_pos k :
  0 < k < 2 ^ 31 ->
  exists m d,
    binary64_of_int k = S754_finite false m (d - 53)
    /\ 1 <= d <= 31
    /\ Zpos m = k * 2 ^ (53 - d)
    /\ 2 ^ 52 <= Zpos m < 2 ^ 53.
Proof.
  intros Hk. destruct k as [|p|p]; try lia.
  set (d := Zpos (digits2_pos p)).
  pose proof (digits2_pos_bounds p) as B. fold d in B.
  assert (Hd : 1 <= d <= 31).
  { split; [unfold d; lia|].
    destruct (Z.leb_spec d 31); [assumption|]. exfalso.
    assert (2 ^ 31 <= 2 ^ (d - 1)) by (apply Z.pow_le_mono_r; lia). lia. }
  unfold binary64_of_int, binary_normalize, binary_round, shl_align.
  fold d. unfold fexp, emin.
  replace (Z.max (d + 0 - 53) (3 - 1024 - 53)) with (d - 53) by lia.
  destruct (d - 53 - 0) as [|n|n] eqn:En; try lia.
  assert (Hm : Zpos (Pos.iter xO p n) = Zpos p * 2 ^ (53 - d)).
  { rewrite iter_xO. f_equal. f_equal. lia. }
  assert (Hb : 2 ^ 52 <= Zpos (Pos.iter xO p n) < 2 ^ 53).
  { rewrite Hm.
    assert (P1 : 2 ^ 52 = 2 ^ (d - 1) * 2 ^ (53 - d))
      by (rewrite <- Z.pow_add_r by lia; f_equal; lia).
    assert (P2 : 2 ^ 53 = 2 ^ d * 2 ^ (53 - d))
      by (rewrite <- Z.pow_add_r by lia; f_equal; lia).
    assert (0 < 2 ^ (53 - d)) by (apply Z.pow_pos_nonneg; lia).
    rewrite P1, P2. split.
    - apply Z.mul_le_mono_nonneg_r; lia.
    - apply Z.mul_lt_mono_pos_r; lia. }
  exists (Pos.iter xO p n), d.
  split; [|auto].
  unfold binary_round_aux, shr_fexp, shr_record_of_loc, fexp, emin.
  cbn [Zdigits2].
  rewrite (digits2_pos_unique (Pos.iter xO p n) 53) by exact Hb.
  replace (Z.max (53 + (d - 53) - 53) (3 - 1024 - 53) - (d - 53)) with 0 by lia.
  cbn [shr shr_m loc_of_shr_record round_nearest_even Zdigits2].
  rewrite (digits2_pos_unique (Pos.iter xO p n) 53) by exact Hb.
  replace (Z.max (53 + (d - 53) - 53) (3 - 1024 - 53) - (d - 53)) with 0 by lia.
  cbn [shr shr_m].
  destruct (Z.leb_spec (d - 53) (1024 - 53)); [reflexivity | lia].
Qed.

(** The last stage of rounding: a mantissa that the rounding carried to
    2^53 is renormalized. *)
Lemma round_finish (m1 e : Z) :
  2 ^ 52 <= m1 <= 2 ^ 53 -> -1000 <= e <= 900 ->
  exists m sh,
    (let '(mrs, e'') := shr_fexp 53 1024 m1 e loc_Exact in
     match shr_m mrs with
     | Z0 => S754_zero false
     | Zpos m => if Z.leb e'' (1024 - 53) then S754_finite false m e'' else S754_infinity false
     | Zneg _ => S754_nan
     end) = S754_finite false m (e + sh)
    /\ 2 ^ 52 <= Zpos m < 2 ^ 53
    /\ (sh = 0 /\ Zpos m = m1 \/ sh = 1 /\ m1 = 2 ^ 53 /\ Zpos m = 2 ^ 52).
Proof.
  intros Hm He. destruct m1 as [|p|p]; try lia.
  destruct (Z.ltb_spec (Zpos p) (2 ^ 53)) as [Hlt|Hge].
  - exists p, 0. unfold shr_fexp, fexp, emin. cbn [Zdigits2 shr_record_of_loc].
    rewrite (digits2_pos_unique p 53) by lia.
    replace (Z.max (53 + e - 53) (3 - 1024 - 53) - e) with 0 by lia.
    cbn [shr shr_m]. destruct (Z.leb_spec e (1024 - 53)); [|lia].
    rewrite Z.add_0_r. split; [reflexivity|]. split; [lia|]. left. auto.
  - assert (Hp : Zpos p = 2 ^ 53) by lia.
    assert (p = 9007199254740992%positive) as -> by (apply Pos2Z.inj; rewrite Hp; reflexivity).
    exists 4503599627370496%positive, 1.
    unfold shr_fexp, fexp, emin. cbn [Zdigits2 shr_record_of_loc].
    rewrite (digits2_pos_unique 9007199254740992 54) by lia.
    replace (Z.max (54 + e - 53) (3 - 1024 - 53) - e) with 1 by lia.
    cbn [shr iter_pos shr_1 shr_m orb]. destruct (Z.leb_spec (e + 1) (1024 - 53)); [|lia].
    split; [reflexivity|]. split; [cbn; lia|]. right. auto.
Qed.

(** Rounding the quotient of a division to nearest even.  [q] and [r]
    are the quotient and remainder of [N] by the even number [dn]. *)
Lemma binary_round_aux_div (q e N dn r : Z) :
  2 ^ 52 <= q < 2 ^ 54 ->
  N = dn * q + r -> 0 <= r < dn -> Z.even dn = true ->
  -1000 <= e <= 800 ->
  exists m sh,
    binary_round_aux 53 1024 false q e (new_location dn r) = S754_finite false m (e + sh)
    /\ 0 <= sh <= 2
    /\ 2 ^ 52 <= Zpos m < 2 ^ 53
    /\ 2 * N - dn * 2 ^ sh <= 2 * dn * (Zpos m * 2 ^ sh) <= 2 * N + dn * 2 ^ sh.
Proof.
  intros Hq HN Hr Hev He.
  destruct q as [|qp|qp]; try lia.
  unfold new_location. rewrite Hev. unfold new_location_even.
  unfold binary_round_aux.
  destruct (Z.ltb_spec (Zpos qp) (2 ^ 53)) as [Hlt|Hge].
  - (* 53 digits: no shift *)
    unfold shr_fexp at 1, fexp, emin. cbn [Zdigits2].
    rewrite (digits2_pos_unique qp 53) by lia.
    replace (Z.max (53 + e - 53) (3 - 1024 - 53) - e) with 0 by lia.
    cbn [shr].
    set (l := if r =? 0 then loc_Exact else loc_Inexact (2 * r ?= dn)).
    assert (Hl : loc_of_shr_record (shr_record_of_loc (Zpos qp) l) = l).
    { destruct l as [|[]]; reflexivity. }
    assert (Hs : shr_m (shr_record_of_loc (Zpos qp) l) = Zpos qp).
    { destruct l as [|[]]; reflexivity. }
    rewrite Hl, Hs.
    set (m1 := round_nearest_even (Zpos qp) l).
    assert (Hm1 : 2 ^ 52 <= m1 <= 2 ^ 53
                  /\ 2 * N - dn <= 2 * dn * m1 <= 2 * N + dn).
    { subst m1 l. destruct (Z.eqb_spec r 0) as [->|Hr0]; cbn [round_nearest_even].
      - split; nia.
      - destruct (Z.compare_spec (2 * r) dn); cbn [round_nearest_even];
          try destruct (Z.even (Zpos qp)); split; nia. }
    destruct Hm1 as [Hb Herr].
    destruct (round_finish m1 e Hb ltac:(lia)) as (m & sh & E & Hmb & Hcase).
    exists m, sh. split; [exact E|].
    destruct Hcase as [[-> Hm]|[-> [Hm1 Hm]]].
    + rewrite Hm. change (2 ^ 0) with 1. split; [lia|]. split; [lia|]. nia.
    + rewrite Hm1 in *. rewrite Hm. split; [lia|]. split; [lia|].
      change (2 ^ 1) with 2. change (2 ^ 52 * 2) with (2 ^ 53). nia.
  - (* 54 digits: one shift *)
    unfold shr_fexp at 1, fexp, emin. cbn [Zdigits2].
    rewrite (digits2_pos_unique qp 54) by lia.
    replace (Z.max (54 + e - 53) (3 - 1024 - 53) - e) with 1 by lia.
    cbn [shr iter_pos].
    set (l := if r =? 0 then loc_Exact else loc_Inexact (2 * r ?= dn)).
    set (rec := shr_1 (shr_record_of_loc (Zpos qp) l)).
    set (m1 := round_nearest_even (shr_m rec) (loc_of_shr_record rec)).
    assert (Hm1 : 2 ^ 52 <= m1 <= 2 ^ 53
                  /\ 2 * N - 2 * dn <= 2 * dn * (m1 * 2) <= 2 * N + 2 * dn).
    { subst m1 rec l.
      destruct qp as [qp'|qp'|]; [| |cbn in Hge; lia].
      - (* odd quotient *)
        rewrite Pos2Z.inj_xI in Hq, Hge, HN.
        destruct (Z.eqb_spec r 0) as [->|Hr0].
        + cbn [shr_record_of_loc shr_1 shr_m loc_of_shr_record orb round_nearest_even].
          destruct (Z.even (Zpos qp')); split; nia.
        + destruct (Z.compare_spec (2 * r) dn);
            cbn [shr_record_of_loc shr_1 shr_m loc_of_shr_record orb round_nearest_even];
            split; nia.
      - (* even quotient *)
        rewrite Pos2Z.inj_xO in Hq, Hge, HN.
        destruct (Z.eqb_spec r 0) as [->|Hr0].
        + cbn [shr_record_of_loc shr_1 shr_m loc_of_shr_record orb round_nearest_even].
          split; nia.
        + destruct (Z.compare_spec (2 * r) dn);
            cbn [shr_record_of_loc shr_1 shr_m loc_of_shr_record orb round_nearest_even];
            split; nia. }
    destruct Hm1 as [Hb Herr].
    destruct (round_finish m1 (e + 1) Hb ltac:(lia)) as (m & sh & E & Hmb & Hcase).
    exists m, (1 + sh). rewrite Z.add_assoc. split; [exact E|].
    destruct Hcase as [[-> Hm]|[-> [Hm1 Hm]]].
    + rewrite Hm. change (2 ^ (1 + 0)) with 2. split; [lia|]. split; [lia|]. nia.
    + rewrite Hm1 in *. rewrite Hm. split; [lia|]. split; [lia|].
      change (2 ^ (1 + 1)) with 4. change (2 ^ 52 * 4) with (2 ^ 53 * 2) . nia.
Qed.

(** The quotient 2147483647 / k in binary64: a normalized mantissa [m]
    and an exponent [e] whose value m * 2^e is within half a unit in the
    last place of the exact quotient. *)
Lemma binary64_cost_spec k :
  1 <= k <= 2147483647 ->
  exists m e,
    Plan.binary64_cost k = S754_finite false m e
    /\ 2 ^ 52 <= Zpos m < 2 ^ 53
    /\ -53 <= e <= -21
    /\ 2 ^ 54 * 2147483647 - k * 2 ^ (e + 53)
       <= 2 * k * (Zpos m * 2 ^ (e + 53))
       <= 2 ^ 54 * 2147483647 + k * 2 ^ (e + 53).
Proof.
  intros Hk. unfold Plan.binary64_cost.
  change (binary64_of_int 2147483647) with (S754_finite false 9007199250546688 (-22)).
  destruct (binary64_of_int_pos k ltac:(lia)) as (my & d & -> & Hd & Hmy & Hby).
  unfold binary64_div, SFdiv, SFdiv_core_binary. cbn [Zdigits2 xorb].
  rewrite (digits2_pos_unique my 53) by lia.
  rewrite (digits2_pos_unique 9007199250546688 53) by lia.
  unfold fexp, emin.
  replace (Z.min (Z.max (53 + -22 - (53 + (d - 53)) - 53) (3 - 1024 - 53)) (-22 - (d - 53)))
    with (-22 - d) by lia.
  replace (-22 - (d - 53) - (-22 - d)) with 53 by lia.
  cbv iota beta.
  pose proof (Z_div_mod (Z.shiftl 9007199250546688 53) (Zpos my) ltac:(lia)) as Hdiv.
  destruct (Z.div_eucl (Z.shiftl 9007199250546688 53) (Zpos my)) as [q r].
  destruct Hdiv as [HN Hr].
  change (Z.shiftl 9007199250546688 53) with (2147483647 * 2 ^ 75) in HN.
  set (T := 2 ^ (31 - d)).
  assert (HT : 1 <= T) by (subst T; apply (Z.pow_le_mono_r 2 0); lia).
  assert (Hdn : Zpos my = k * T * 2 ^ 22).
  { rewrite Hmy. subst T. rewrite <- Z.mul_assoc, <- Z.pow_add_r by lia. do 2 f_equal. lia. }
  assert (Hq : 2 ^ 52 <= q < 2 ^ 54).
  { change (2147483647 * 2 ^ 75) with 81129638376827749832831843434496 in HN.
    change (2 ^ 52) with 4503599627370496 in *. change (2 ^ 53) with 9007199254740992 in *.
    change (2 ^ 54) with 18014398509481984. nia. }
  assert (Hev : Z.even (Zpos my) = true).
  { rewrite Hdn. rewrite Z.even_mul. change (Z.even (2 ^ 22)) with true. apply orb_true_r. }
  destruct (binary_round_aux_div q (-22 - d) _ _ r Hq HN Hr Hev ltac:(lia))
    as (m & sh & E & Hsh & Hm & Hb).
  exists m, (-22 - d + sh). split; [exact E|]. split; [exact Hm|]. split; [lia|].
  replace (-22 - d + sh + 53) with ((31 - d) + sh) by lia.
  rewrite Z.pow_add_r by lia. fold T.
  rewrite Hdn in Hb.
  assert (0 < 2 ^ sh) by (apply Z.pow_pos_nonneg; lia).
  change (2 ^ 75) with (2 ^ 53 * 2 ^ 22) in Hb. change (2 ^ 54) with (2 * 2 ^ 53).
  change (2 ^ 22) with 4194304 in Hb. nia.
Qed.

(** Binary64 comparison of two such quotients is the comparison of their
    values. *)
Lemma SFltb_finite m1 e1 m2 e2 :
  2 ^ 52 <= Zpos m1 < 2 ^ 53 -> 2 ^ 52 <= Zpos m2 < 2 ^ 53 ->
  -53 <= e1 -> -53 <= e2 ->
  Zpos m1 * 2 ^ (e1 + 53) < Zpos m2 * 2 ^ (e2 + 53) ->
  SFltb (S754_finite false m1 e1) (S754_finite false m2 e2) = true.
Proof.
  intros H1 H2 He1 He2 Hlt. unfold SFltb, SFcompare.
  destruct (Z.compare_spec e1 e2) as [->|Hl|Hg].
  - assert (0 < 2 ^ (e2 + 53)) by (apply Z.pow_pos_nonneg; lia).
    assert (Zpos m1 < Zpos m2) by nia.
    change (Pos.compare_cont Eq m1 m2) with (m1 ?= m2)%positive.
    rewrite (proj2 (Pos.compare_lt_iff m1 m2)) by lia. reflexivity.
  - reflexivity.
  - exfalso.
    assert (0 < 2 ^ (e2 + 53)) by (apply Z.pow_pos_nonneg; lia).
    assert (2 ^ (e1 + 53) = 2 ^ (e1 - e2) * 2 ^ (e2 + 53))
      by (rewrite <- Z.pow_add_r by lia; f_equal; lia).
    assert (2 <= 2 ^ (e1 - e2)) by (apply (Z.pow_le_mono_r 2 1); lia).
    nia.
Qed.

(** More parameters consumed, strictly smaller cost. *)
Lemma binary64_cost_decreasing a b :
  1 <= a -> a < b -> b <= 2147483647 -> SFltb (Plan.binary64_cost b) (Plan.binary64_cost a) = true.
Proof.
  intros Ha Hab Hb.
  destruct (binary64_cost_spec a ltac:(lia)) as (ma & ea & -> & Hma & Hea & Hba).
  destruct (binary64_cost_spec b ltac:(lia)) as (mb & eb & -> & Hmb & Heb & Hbb).
  apply SFltb_finite; try lia.
  set (Ua := 2 ^ (ea + 53)) in *. set (Ub := 2 ^ (eb + 53)) in *.
  assert (0 < Ua) by (apply Z.pow_pos_nonneg; lia).
  assert (0 < Ub) by (apply Z.pow_pos_nonneg; lia).
  set (Wa := Zpos ma * Ua) in *. set (Wb := Zpos mb * Ub) in *.
  assert (2 ^ 52 * Ua <= Wa) by (subst Wa; nia).
  assert (2 ^ 52 * Ub <= Wb) by (subst Wb; nia).
  destruct (Z.lt_ge_cases Wb Wa) as [|Hge]; [assumption|exfalso].
  change (2 ^ 54) with 18014398509481984 in *. change (2 ^ 52) with 4503599627370496 in *.
  clearbody Wa Wb Ua Ub.
  assert (A1 : 4503599627370496 * (18014398509481984 * 2147483647)
               <= a * Wa * 9007199254740993) by nia.
  assert (B1 : b * Wb * 9007199254740991
               <= 4503599627370496 * (18014398509481984 * 2147483647)) by nia.
  assert (a * Wa <= a * Wb) by nia.
  assert ((a + 1) * Wb <= b * Wb) by nia.
  nia.
Qed.

(* ================================================================== *)
(** * Lemmas on strings and arrays *)
(* ================================================================== *)

Lemma append_assoc (a b c : string) : (a +++ b) +++ c = a +++ b +++ c.
Proof. induction a as [|ch a IH]; simpl; [reflexivity | now rewrite IH]. Qed.

Lemma append_nil_r (a : string) : a +++ EmptyString = a.
Proof. induction a as [|ch a IH]; simpl; [reflexivity | now rewrite IH]. Qed.

Lemma zrange_nil lo hi : hi <= lo -> zrange lo hi = [].
Proof.
  intros H. unfold zrange.
  replace (Z.to_nat (hi - lo)) with O by lia. reflexivity.
Qed.

Lemma zrange_cons lo hi : lo < hi -> zrange lo hi = lo :: zrange (lo + 1) hi.
Proof.
  intros H. unfold zrange.
  replace (Z.to_nat (hi - lo)) with (S (Z.to_nat (hi - (lo + 1)))) by lia.
  simpl. f_equal; [lia|].
  rewrite <- seq_shift, map_map. apply map_ext. intros k. lia.
Qed.

Lemma zrange_length lo hi : List.length (zrange lo hi) = Z.to_nat (hi - lo).
Proof. unfold zrange. now rewrite length_map, length_seq. Qed.

Lemma zrange_snoc lo hi : lo <= hi -> zrange lo (hi + 1) = zrange lo hi ++ [hi].
Proof.
  intros H. unfold zrange.
  replace (Z.to_nat (hi + 1 - lo)) with (Z.to_nat (hi - lo) + 1)%nat by lia.
  rewrite seq_app, map_app. simpl. do 2 f_equal. lia.
Qed.

Lemma znth_middle {A} (pre post : list A) (x : A) :
  znth (pre ++ x :: post) (Z.of_nat (List.length pre)) = Some x.
Proof.
  unfold znth. destruct (Z.ltb_spec (Z.of_nat (List.length pre)) 0) as [E|E]; [lia|].
  rewrite Nat2Z.id, nth_error_app2 by lia. now rewrite Nat.sub_diag.
Qed.

Lemma set_nth_middle {A} (pre post : list A) (x v : A) :
  set_nth (pre ++ x :: post) (List.length pre) v = pre ++ v :: post.
Proof. induction pre as [|y pre IH]; simpl; [reflexivity | now rewrite IH]. Qed.

Lemma zset_middle {A} (pre post : list A) (x v : A) :
  zset (pre ++ x :: post) (Z.of_nat (List.length pre)) v = pre ++ v :: post.
Proof.
  unfold zset. destruct (Z.ltb_spec (Z.of_nat (List.length pre)) 0) as [E|E]; [lia|].
  rewrite Nat2Z.id. apply set_nth_middle.
Qed.

Lemma set_nth_length {A} (a : list A) n v : List.length (set_nth a n v) = List.length a.
Proof.
  revert n. induction a as [|x a IH]; intros [|n]; simpl; auto.
Qed.

Lemma zset_length {A} (a : list A) i v : List.length (zset a i v) = List.length a.
Proof. unfold zset. destruct (i <? 0); [reflexivity | apply set_nth_length]. Qed.

Lemma znth_Some {A} (a : list A) i :
  0 <= i < Z.of_nat (List.length a) -> exists x, znth a i = Some x.
Proof.
  intros H. unfold znth. destruct (Z.ltb_spec i 0) as [E|E]; [lia|].
  destruct (nth_error a (Z.to_nat i)) eqn:N; [eauto|].
  apply nth_error_None in N. lia.
Qed.

Lemma znth_inv {A} (a : list A) i x :
  znth a i = Some x -> 0 <= i < Z.of_nat (List.length a).
Proof.
  unfold znth. destruct (Z.ltb_spec i 0) as [E|E]; [discriminate|].
  intros H. assert (nth_error a (Z.to_nat i) <> None) as N by congruence.
  apply nth_error_Some in N. lia.
Qed.

(** The answers of a step: an error code is neither SQLITE_ROW nor
    SQLITE_DONE. *)
Lemma error_code_range e : 1 <= Err.code e <= 28.
Proof. destruct e; cbn; lia. Qed.

Lemma end_code_DONE e : end_code e = SQLITE_DONE <-> e = Completes.
Proof.
  destruct e as [|e]; cbn [end_code]; split; try reflexivity; try discriminate.
  pose proof (error_code_range e). unfold SQLITE_DONE. lia.
Qed.

Lemma end_code_not_ROW e : end_code e <> SQLITE_ROW.
Proof.
  destruct e as [|e]; cbn [end_code]; [discriminate|].
  pose proof (error_code_range e). unfold SQLITE_ROW. lia.
Qed.

Lemma end_code_fails e : (end_code (Fails e) =? SQLITE_DONE) = false.
Proof.
  apply Z.eqb_neq. intros H. apply end_code_DONE in H. discriminate.
Qed.

Lemma end_code_eqb_ROW e : (end_code e =? SQLITE_ROW) = false.
Proof. apply Z.eqb_neq, end_code_not_ROW. Qed.
(* ================================================================== *)
(** * The planner *)
(* ================================================================== *)

Section Planner.

Import Plan.

Lemma conj_tail_join tab c l :
  conj_tail tab false (c :: l) = " AND " +++ join " AND " (map (conjunct tab) (c :: l)).
Proof.
  revert c. induction l as [|d l IH]; intros c.
  - simpl. now rewrite append_nil_r.
  - change (conj_tail tab false (c :: d :: l))
      with (" AND " +++ conjunct tab c +++ conj_tail tab false (d :: l)).
    rewrite IH. reflexivity.
Qed.

Lemma conj_tail_where tab cs :
  conj_tail tab true (filter (consumed tab) cs) = where_clause tab cs.
Proof.
  unfold where_clause. destruct (filter (consumed tab) cs) as [|c l]; [reflexivity|].
  destruct l as [|d l].
  - simpl. now rewrite append_nil_r.
  - change (conj_tail tab true (c :: d :: l))
      with ((nl +++ " WHERE ") +++ conjunct tab c +++ conj_tail tab false (d :: l)).
    rewrite conj_tail_join. rewrite append_assoc. reflexivity.
Qed.

Lemma order_tail_join tab o l :
  order_tail tab false (o :: l) = ", " +++ join ", " (map (order_term tab) (o :: l)).
Proof.
  revert o. induction l as [|d l IH]; intros o.
  - simpl. now rewrite append_nil_r.
  - change (order_tail tab false (o :: d :: l))
      with (", " +++ order_term tab o +++ order_tail tab false (d :: l)).
    rewrite IH. reflexivity.
Qed.

Lemma order_tail_clause tab obs :
  order_tail tab true (filter (ordered tab) obs) = order_clause tab obs.
Proof.
  unfold order_clause. destruct (filter (ordered tab) obs) as [|o l]; [reflexivity|].
  destruct l as [|d l].
  - simpl. now rewrite append_nil_r.
  - change (order_tail tab true (o :: d :: l))
      with ((nl +++ " ORDER BY ") +++ order_term tab o +++ order_tail tab false (d :: l)).
    rewrite order_tail_join. rewrite append_assoc. reflexivity.
Qed.

End Planner.

Section PlannerLoops.

Import Plan.

(** The switch of the source maps every constraint operator to the
    textual operator the specification gives it, and no other. *)
Lemma constraint_op_table o : constraint_op o = sql_operator o.
Proof.
  unfold constraint_op, sql_operator, operators. cbn [find fst snd].
  rewrite !(Z.eqb_sym _ o).
  repeat match goal with
         | |- context [o =? ?k] => destruct (Z.eqb_spec o k) as [->|]; [reflexivity|]
         end.
  reflexivity.
Qed.

(** One turn of the constraint loop never touches the table object, and
    keeps the size of the usage array. *)
Lemma plan_constraint_frame c i s s' :
  plan_constraint c i s = Some s' ->
  ps_tab s' = ps_tab s
  /\ ps_orderByConsumed s' = ps_orderByConsumed s
  /\ orderIdx s' = orderIdx s
  /\ List.length (ps_usage s') = List.length (ps_usage s).
Proof.
  unfold plan_constraint, update_usage.
  destruct (Constraint.usable c =? 0); [intros [= <-]; auto|].
  destruct (negb (Constraint.iColumn c <? nRow_cols (ps_tab s))); [intros [= <-]; auto|].
  destruct (constraint_op (Constraint.op c)) as [o|].
  - destruct (znth (key_sql_col_names (ps_tab s)) (Constraint.iColumn c)); [|discriminate].
    destruct (znth (ps_usage s) i); [|discriminate].
    intros [= <-]; simpl. rewrite zset_length. auto.
  - destruct (znth (ps_usage s) i); [|discriminate].
    intros [= <-]; simpl. rewrite zset_length. auto.
Qed.

Lemma plan_constraints_frame cs : forall i s s',
  plan_constraints cs i s = Some s' ->
  ps_tab s' = ps_tab s
  /\ ps_orderByConsumed s' = ps_orderByConsumed s
  /\ orderIdx s' = orderIdx s.
Proof.
  induction cs as [|c cs IH]; simpl; intros i s s' H.
  - injection H as <-. auto.
  - destruct (plan_constraint c i s) as [s1|] eqn:E; [|discriminate].
    apply plan_constraint_frame in E as (E1 & E2 & E3 & _).
    apply IH in H as (H1 & H2 & H3). repeat split; congruence.
Qed.

Lemma plan_orderby_frame o s s' :
  plan_orderby o s = Some s' ->
  ps_tab s' = ps_tab s /\ ps_usage s' = ps_usage s /\ argvIndex s' = argvIndex s.
Proof.
  unfold plan_orderby.
  destruct (negb (OrderBy.iColumn o <? nRow_cols (ps_tab s))); [intros [= <-]; auto|].
  destruct (znth (key_sql_col_names (ps_tab s)) (OrderBy.iColumn o)); [|discriminate].
  intros [= <-]; auto.
Qed.

Lemma plan_orderbys_frame obs : forall s s',
  plan_orderbys obs s = Some s' ->
  ps_tab s' = ps_tab s /\ ps_usage s' = ps_usage s /\ argvIndex s' = argvIndex s.
Proof.
  induction obs as [|o obs IH]; simpl; intros s s' H.
  - injection H as <-. auto.
  - destruct (plan_orderby o s) as [s1|] eqn:E; [|discriminate].
    apply plan_orderby_frame in E as (E1 & E2 & E3).
    apply IH in H as (H1 & H2 & H3). repeat split; congruence.
Qed.

(** What the constraint loop computes, when it returns, on a cleared
    stretch of the usage array. *)
Lemma plan_constraints_inv cs : forall i s s' pre post,
  plan_constraints cs i s = Some s' ->
  1 <= argvIndex s ->
  ps_usage s = pre ++ map (fun _ => Usage.zero) cs ++ post ->
  Z.of_nat (List.length pre) = i ->
  argvIndex s' = argvIndex s + Z.of_nat (List.length (filter (consumed (ps_tab s)) cs))
  /\ key_sql_filtered s'
     = key_sql_filtered s
         +++ conj_tail (ps_tab s) (argvIndex s =? 1) (filter (consumed (ps_tab s)) cs)
  /\ ps_usage s' = pre ++ usage (ps_tab s) cs (argvIndex s) ++ post.
Proof.
  induction cs as [|c cs IH]; intros i s s' pre post H Ha Hu Hi.
  - simpl in *. injection H as <-. rewrite append_nil_r, Z.add_0_r. auto.
  - simpl in H.
    destruct (plan_constraint c i s) as [s1|] eqn:E; [|discriminate].
    pose proof (plan_constraint_frame _ _ _ _ E) as (Ft & _ & _ & _).
    assert (Hstep :
      if consumed (ps_tab s) c
      then argvIndex s1 = argvIndex s + 1
           /\ key_sql_filtered s1
              = key_sql_filtered s
                  +++ (if argvIndex s =? 1 then nl +++ " WHERE " else " AND ")
                  +++ conjunct (ps_tab s) c
           /\ ps_usage s1
              = (pre ++ [{| Usage.argvIndex := argvIndex s; Usage.omit := 1 |}])
                  ++ map (fun _ => Usage.zero) cs ++ post
      else argvIndex s1 = argvIndex s
           /\ key_sql_filtered s1 = key_sql_filtered s
           /\ ps_usage s1 = (pre ++ [Usage.zero]) ++ map (fun _ => Usage.zero) cs ++ post).
    { revert E. unfold plan_constraint, update_usage, consumed, eligible, conjunct, op_text, column.
      rewrite <- constraint_op_table.
      simpl in Hu. rewrite Hu. subst i. rewrite znth_middle.
      destruct (Constraint.usable c =? 0); simpl.
      { intros [= <-]. rewrite <- app_assoc. auto. }
      destruct (Constraint.iColumn c <? nRow_cols (ps_tab s)); simpl.
      2: { intros [= <-]. rewrite <- app_assoc. auto. }
      destruct (constraint_op (Constraint.op c)) as [o|].
      - destruct (znth (key_sql_col_names (ps_tab s)) (Constraint.iColumn c)) as [name|];
          [|discriminate].
        intros [= <-]; simpl. rewrite zset_middle, <- app_assoc.
        repeat split; auto.
      - intros [= <-]; simpl. rewrite zset_middle, <- app_assoc. auto. }
    simpl filter. simpl usage.
    destruct (consumed (ps_tab s) c).
    + destruct Hstep as (A1 & A2 & A3).
      destruct (IH (i + 1) s1 s' _ _ H ltac:(lia) A3) as (B1 & B2 & B3);
        [rewrite length_app; simpl; lia|].
      rewrite Ft in *. rewrite B1, B2, B3, A1, A2.
      replace (argvIndex s + 1 =? 1) with false by (symmetry; apply Z.eqb_neq; lia).
      simpl List.length. rewrite <- !app_assoc. simpl.
      rewrite !append_assoc.
      repeat split; lia.
    + destruct Hstep as (A1 & A2 & A3).
      destruct (IH (i + 1) s1 s' _ _ H ltac:(lia) A3) as (B1 & B2 & B3);
        [rewrite length_app; simpl; lia|].
      rewrite Ft in *. rewrite B1, B2, B3, A1, A2.
      rewrite <- !app_assoc. simpl. auto.
Qed.

End PlannerLoops.

Section PlannerSpec.

Import Plan.

Lemma plan_orderbys_inv obs : forall s s',
  plan_orderbys obs s = Some s' ->
  0 <= orderIdx s ->
  orderIdx s' = orderIdx s + Z.of_nat (List.length (filter (ordered (ps_tab s)) obs))
  /\ key_sql_filtered s'
     = key_sql_filtered s
         +++ order_tail (ps_tab s) (orderIdx s =? 0) (filter (ordered (ps_tab s)) obs)
  /\ ps_orderByConsumed s'
     = if existsb (ordered (ps_tab s)) obs then 1 else ps_orderByConsumed s.
Proof.
  induction obs as [|o obs IH]; intros s s' H Ho.
  - simpl in *. injection H as <-. rewrite append_nil_r, Z.add_0_r. auto.
  - simpl in H.
    destruct (plan_orderby o s) as [s1|] eqn:E; [|discriminate].
    pose proof (plan_orderby_frame _ _ _ E) as (Ft & _ & _).
    assert (Hstep :
      if ordered (ps_tab s) o
      then orderIdx s1 = orderIdx s + 1
           /\ key_sql_filtered s1
              = key_sql_filtered s
                  +++ (if orderIdx s =? 0 then nl +++ " ORDER BY " else ", ")
                  +++ order_term (ps_tab s) o
           /\ ps_orderByConsumed s1 = 1
      else s1 = s).
    { revert E. unfold plan_orderby, ordered, order_term, column.
      destruct (OrderBy.iColumn o <? nRow_cols (ps_tab s)); cbn [negb].
      - destruct (znth (key_sql_col_names (ps_tab s)) (OrderBy.iColumn o)) as [name|];
          [|discriminate].
        intros [= <-]. cbn. auto.
      - intros [= <-]. reflexivity. }
    cbn [filter existsb].
    destruct (ordered (ps_tab s) o).
    + destruct Hstep as (A1 & A2 & A3).
      destruct (IH _ _ H ltac:(lia)) as (B1 & B2 & B3).
      rewrite Ft in *. rewrite B1, B2, B3, A1, A2, A3.
      replace (orderIdx s + 1 =? 0) with false by (symmetry; apply Z.eqb_neq; lia).
      cbn [order_tail List.length orb]. rewrite !append_assoc.
      repeat split; [lia | destruct (existsb _ obs); reflexivity].
    + subst s1. cbn [orb]. apply IH; assumption.
Qed.

Lemma plan_constraints_defined tab cs : forall i s,
  ps_tab s = tab ->
  names_wf tab ->
  Forall (fun c => consumed tab c = true -> 0 <= Constraint.iColumn c) cs ->
  0 <= i ->
  i + Z.of_nat (List.length cs) <= Z.of_nat (List.length (ps_usage s)) ->
  exists s', plan_constraints cs i s = Some s'.
Proof.
  induction cs as [|c cs IH]; intros i s Ht Hn Hc Hi Hl; simpl.
  - eauto.
  - inversion Hc as [|c0 cs0 Hc1 Hc2]; subst. simpl List.length in Hl.
    assert (exists s1, plan_constraint c i s = Some s1) as [s1 E].
    { unfold plan_constraint, update_usage.
      destruct (znth_Some (ps_usage s) i ltac:(lia)) as [u ->].
      destruct (Constraint.usable c =? 0) eqn:Eu; [eauto|].
      destruct (Z.ltb_spec (Constraint.iColumn c) (nRow_cols (ps_tab s))) as [Hlt|];
        simpl; [|eauto].
      destruct (constraint_op (Constraint.op c)) eqn:Eo; [|eauto].
      assert (H0 : 0 <= Constraint.iColumn c).
      { apply Hc1. unfold consumed, eligible.
        rewrite Eu, <- constraint_op_table, Eo.
        apply Z.ltb_lt in Hlt. now rewrite Hlt. }
      destruct (znth_Some (key_sql_col_names (ps_tab s)) (Constraint.iColumn c)) as [n ->];
        [unfold names_wf in Hn; lia | eauto]. }
    rewrite E.
    pose proof (plan_constraint_frame _ _ _ _ E) as (Ft & _ & _ & Fl).
    apply IH; try assumption; try lia.
Qed.

Lemma plan_orderbys_defined tab obs : forall s,
  ps_tab s = tab ->
  names_wf tab ->
  Forall (fun o => ordered tab o = true -> 0 <= OrderBy.iColumn o) obs ->
  exists s', plan_orderbys obs s = Some s'.
Proof.
  induction obs as [|o obs IH]; intros s Ht Hn Ho; simpl.
  - eauto.
  - inversion Ho as [|o0 obs0 Ho1 Ho2]; subst.
    assert (exists s1, plan_orderby o s = Some s1) as [s1 E].
    { unfold plan_orderby.
      destruct (Z.ltb_spec (OrderBy.iColumn o) (nRow_cols (ps_tab s))) as [Hlt|];
        simpl; [|eauto].
      assert (H0 : 0 <= OrderBy.iColumn o).
      { apply Ho1. unfold ordered. now apply Z.ltb_lt. }
      destruct (znth_Some (key_sql_col_names (ps_tab s)) (OrderBy.iColumn o)) as [n ->];
        [unfold names_wf in Hn; lia | eauto]. }
    rewrite E.
    pose proof (plan_orderby_frame _ _ _ E) as (Ft & _ & _).
    apply IH; try assumption.
Qed.

Lemma usage_consumed_count tab cs : forall next,
  List.length (filter (fun u => Usage.omit u =? 1) (usage tab cs next))
  = List.length (filter (consumed tab) cs).
Proof.
  induction cs as [|c cs IH]; intros next; simpl; [reflexivity|].
  destruct (consumed tab c); simpl; now rewrite IH.
Qed.

(** The plan of a request, when [pivotBestIndex] returns. *)
Lemma pivotBestIndex_spec tab cs obs tab' info :
  pivotBestIndex tab (index_info_init cs obs) = Some (tab', info) ->
  tab' = tab
  /\ aConstraintUsage info = usage tab cs 1
  /\ idxStr info
     = Some (key_sql_full_table_scan tab +++ where_clause tab cs +++ order_clause tab obs)
  /\ orderByConsumed info = (if existsb (ordered tab) obs then 1 else 0)
  /\ estimatedCost info = binary64_cost (1 + Z.of_nat (consumed_count info))
  /\ estimatedRows info = 10.
Proof.
  unfold pivotBestIndex.
  cbn [index_info_init aConstraint aOrderBy aConstraintUsage orderByConsumed].
  set (s0 := {| ps_tab := tab; ps_usage := _ |}).
  destruct (plan_constraints cs 0 s0) as [s1|] eqn:E1; [|discriminate].
  destruct (plan_orderbys obs s1) as [s2|] eqn:E2; [|discriminate].
  intros [= <- <-]. unfold consumed_count.
  cbn [aConstraintUsage idxStr orderByConsumed estimatedCost estimatedRows].
  pose proof (plan_constraints_frame _ _ _ _ E1) as (F1 & F2 & F3).
  pose proof (plan_orderbys_frame _ _ _ E2) as (G1 & G2 & G3).
  destruct (plan_constraints_inv cs 0 s0 s1 [] [] E1) as (A1 & A2 & A3);
    [subst s0; cbn; lia | subst s0; cbn; now rewrite app_nil_r | reflexivity |].
  destruct (plan_orderbys_inv obs s1 s2 E2) as (B1 & B2 & B3);
    [rewrite F3; subst s0; cbn; lia|].
  rewrite F1, F2, F3 in *. subst s0.
  cbn [ps_tab ps_usage ps_orderByConsumed key_sql_filtered argvIndex orderIdx app] in *.
  rewrite app_nil_r in A3. change (0 =? 0) with true in B2. change (1 =? 1) with true in A2.
  rewrite G1, G2, G3, B2, B3, A1, A2, A3.
  rewrite conj_tail_where, order_tail_clause, usage_consumed_count, append_assoc.
  repeat split; reflexivity.
Qed.

(** [pivotBestIndex] returns on every request that keeps what it reads
    off the rowid. *)
Lemma pivotBestIndex_defined tab cs obs :
  names_wf tab -> off_rowid tab cs obs ->
  exists info, pivotBestIndex tab (index_info_init cs obs) = Some (tab, info).
Proof.
  intros Hn [Hc Ho]. unfold pivotBestIndex.
  cbn [index_info_init aConstraint aOrderBy aConstraintUsage orderByConsumed].
  set (s0 := {| ps_tab := tab; ps_usage := _ |}).
  destruct (plan_constraints_defined tab cs 0 s0) as [s1 E1]; try assumption; try lia.
  { reflexivity. }
  { simpl. rewrite length_map. lia. }
  rewrite E1.
  pose proof (plan_constraints_frame _ _ _ _ E1) as (F1 & _ & _).
  destruct (plan_orderbys_defined tab obs s1) as [s2 E2]; try assumption.
  rewrite E2.
  pose proof (plan_orderbys_frame _ _ _ E2) as (G1 & _ & _).
  rewrite G1, F1. simpl. eauto.
Qed.

(** A usable constraint on the rowid with a textual operator makes the
    planner read entry -1 of the names array. *)
Lemma pivotBestIndex_rowid_undefined tab o obs :
  -1 < nRow_cols tab ->
  constraint_op o <> None ->
  pivotBestIndex tab
    (index_info_init
       [{| Constraint.iColumn := -1; Constraint.op := o; Constraint.usable := 1 |}] obs)
  = None.
Proof.
  intros Hn Ho. unfold pivotBestIndex.
  cbn [index_info_init aConstraint aConstraintUsage plan_constraints map].
  unfold plan_constraint.
  cbn [Constraint.usable Constraint.iColumn Constraint.op ps_tab].
  change (1 =? 0) with false. cbn iota.
  destruct (Z.ltb_spec (-1) (nRow_cols tab)); [|lia]. cbn [negb].
  destruct (constraint_op o); [|contradiction]. reflexivity.
Qed.

End PlannerSpec.

Section PlannerClaims.

Import Plan.

Lemma usage_length tab cs : forall next, List.length (usage tab cs next) = List.length cs.
Proof.
  induction cs as [|c cs IH]; intros next; simpl; [reflexivity|].
  destruct (consumed tab c); simpl; now rewrite IH.
Qed.

(** Entry [k] of the usage array: the slot of a consumed predicate is one
    more than the number of predicates consumed before it. *)
Lemma usage_nth tab cs : forall next k c,
  nth_error cs k = Some c ->
  nth_error (usage tab cs next) k
  = Some (if consumed tab c
          then {| Usage.argvIndex :=
                    next + Z.of_nat (List.length (filter (consumed tab) (firstn k cs)));
                  Usage.omit := 1 |}
          else Usage.zero).
Proof.
  induction cs as [|c0 cs IH]; intros next [|k] c H; simpl in H; try discriminate.
  - injection H as ->. simpl. destruct (consumed tab c); simpl; [|reflexivity].
    now rewrite Z.add_0_r.
  - cbn [usage firstn filter]. destruct (consumed tab c0) eqn:E0; cbn [nth_error].
    + rewrite (IH _ _ _ H). destruct (consumed tab c); [|reflexivity].
      cbn [List.length]. do 2 f_equal. lia.
    + now rewrite (IH _ _ _ H).
Qed.

Lemma plan_constraint_similar c i s1 s2 :
  plan_state_similar s1 s2 ->
  plan_result_similar (plan_constraint c i s1) (plan_constraint c i s2).
Proof.
  intros ((Hc & Hn & Hf) & Hu & Ho & Hk & Ha & Hi).
  unfold plan_constraint, update_usage. rewrite <- Hc, <- Hn, <- Hu, <- Hk, <- Ha, <- Ho, <- Hi.
  destruct (Constraint.usable c =? 0); [repeat split; assumption|].
  destruct (negb (Constraint.iColumn c <? nRow_cols (ps_tab s1))); [repeat split; assumption|].
  destruct (constraint_op (Constraint.op c)).
  - destruct (znth (key_sql_col_names (ps_tab s1)) (Constraint.iColumn c)); [|exact I].
    destruct (znth (ps_usage s1) i); [|exact I].
    repeat split; assumption.
  - destruct (znth (ps_usage s1) i); [|exact I].
    repeat split; assumption.
Qed.

Lemma plan_constraints_similar cs : forall i s1 s2,
  plan_state_similar s1 s2 ->
  plan_result_similar (plan_constraints cs i s1) (plan_constraints cs i s2).
Proof.
  induction cs as [|c cs IH]; intros i s1 s2 H; cbn [plan_constraints]; [exact H|].
  pose proof (plan_constraint_similar c i s1 s2 H) as Hs.
  destruct (plan_constraint c i s1), (plan_constraint c i s2); try contradiction; [|exact I].
  apply IH, Hs.
Qed.

Lemma plan_orderby_similar o s1 s2 :
  plan_state_similar s1 s2 ->
  plan_result_similar (plan_orderby o s1) (plan_orderby o s2).
Proof.
  intros ((Hc & Hn & Hf) & Hu & Ho & Hk & Ha & Hi).
  unfold plan_orderby. rewrite <- Hc, <- Hn, <- Hu, <- Hk, <- Ha, <- Hi.
  destruct (negb (OrderBy.iColumn o <? nRow_cols (ps_tab s1))); [repeat split; assumption|].
  destruct (znth (key_sql_col_names (ps_tab s1)) (OrderBy.iColumn o)); [|exact I].
  repeat split; assumption.
Qed.

Lemma plan_orderbys_similar obs : forall s1 s2,
  plan_state_similar s1 s2 ->
  plan_result_similar (plan_orderbys obs s1) (plan_orderbys obs s2).
Proof.
  induction obs as [|o obs IH]; intros s1 s2 H; cbn [plan_orderbys]; [exact H|].
  pose proof (plan_orderby_similar o s1 s2 H) as Hs.
  destruct (plan_orderby o s1), (plan_orderby o s2); try contradiction; [|exact I].
  apply IH, Hs.
Qed.

End PlannerClaims.

(** X16.  Take a request in which no constraint the planner consumes
    and no ordering term it takes up is on the rowid (column index -1).
    The planner returns, and consumes exactly the
    usable constraints whose column index is below the number of row-key
    columns and whose operator has a textual form in the table of the
    specification: the derived query is the full-scan query followed by
    their conjuncts [column operator ?] in input order (then by the ORDER
    BY clause), the k-th of them gets parameter slot k and omit = 1, and
    every other constraint keeps argvIndex = 0 and omit = 0. *)
Theorem pivotBestIndex_consumes_eligible_constraints
    (tab : pivot_vtab) (cs : list Constraint.t) (obs : list OrderBy.t) :
  Plan.names_wf tab ->
  Plan.off_rowid tab cs obs ->
  exists info,
    pivotBestIndex tab (index_info_init cs obs) = Some (tab, info)
    /\ idxStr info
       = Some (key_sql_full_table_scan tab
                 +++ Plan.where_clause tab cs +++ Plan.order_clause tab obs)
    /\ List.length (aConstraintUsage info) = List.length cs
    /\ forall k c,
         nth_error cs k = Some c ->
         nth_error (aConstraintUsage info) k
         = Some (if Plan.consumed tab c
                 then {| Usage.argvIndex :=
                           1 + Z.of_nat (List.length
                                           (filter (Plan.consumed tab) (firstn k cs)));
                         Usage.omit := 1 |}
                 else {| Usage.argvIndex := 0; Usage.omit := 0 |}).
Proof.
  intros Hn Hd.
  destruct (pivotBestIndex_defined tab cs obs Hn Hd) as [info E].
  destruct (pivotBestIndex_spec _ _ _ _ _ E) as (_ & Hu & Hs & _).
  exists info. repeat split; try assumption.
  - rewrite Hu. apply usage_length.
  - intros k c Hk. rewrite Hu. apply usage_nth, Hk.
Qed.

(** X17.  Take a request in which no constraint the planner consumes
    and no ordering term it takes up is on the rowid (column index -1).
    When some ordering term has a column index below
    the number of row-key columns, the derived query ends with an ORDER BY
    clause made of exactly the eligible terms, in the requested order and
    direction, and orderByConsumed is set; when no term is eligible the
    derived query has no ORDER BY clause and orderByConsumed stays 0. *)
Theorem pivotBestIndex_orders_by_eligible_terms
    (tab : pivot_vtab) (cs : list Constraint.t) (obs : list OrderBy.t) :
  Plan.names_wf tab ->
  Plan.off_rowid tab cs obs ->
  exists info,
    pivotBestIndex tab (index_info_init cs obs) = Some (tab, info)
    /\ match filter (Plan.ordered tab) obs with
       | [] =>
           idxStr info = Some (key_sql_full_table_scan tab +++ Plan.where_clause tab cs)
           /\ orderByConsumed info = 0
       | terms =>
           idxStr info
           = Some (key_sql_full_table_scan tab +++ Plan.where_clause tab cs
                     +++ nl +++ " ORDER BY "
                     +++ join ", " (map (Plan.order_term tab) terms))
           /\ orderByConsumed info = 1
       end.
Proof.
  intros Hn Hd.
  destruct (pivotBestIndex_defined tab cs obs Hn Hd) as [info E].
  destruct (pivotBestIndex_spec _ _ _ _ _ E) as (_ & _ & Hs & Ho & _).
  exists info. split; [assumption|].
  rewrite Hs, Ho. unfold Plan.order_clause.
  assert (Hex : existsb (Plan.ordered tab) obs
                = match filter (Plan.ordered tab) obs with [] => false | _ => true end).
  { clear. induction obs as [|o obs IH]; simpl; [reflexivity|].
    destruct (Plan.ordered tab o); simpl; [reflexivity | exact IH]. }
  rewrite Hex.
  destruct (filter (Plan.ordered tab) obs); [rewrite append_nil_r|]; auto.
Qed.

(** C8.  Of two plans over the same table, the one that reports more
    consumed predicates has the strictly smaller estimated cost, as a
    comparison of binary64 numbers; the estimated row count is 10 in
    every plan.  (The parameter counter of the plan is an [int]: the
    plans considered consume fewer than INT_MAX predicates.) *)
Theorem pivotBestIndex_cost_decreases
    (tab : pivot_vtab) (cs1 cs2 : list Constraint.t) (obs1 obs2 : list OrderBy.t)
    (tab1 tab2 : pivot_vtab) (info1 info2 : sqlite3_index_info) :
  pivotBestIndex tab (index_info_init cs1 obs1) = Some (tab1, info1) ->
  pivotBestIndex tab (index_info_init cs2 obs2) = Some (tab2, info2) ->
  (Plan.consumed_count info1 < Plan.consumed_count info2)%nat ->
  Z.of_nat (Plan.consumed_count info2) < 2147483647 ->
  SFltb (estimatedCost info2) (estimatedCost info1) = true
  /\ estimatedRows info1 = 10
  /\ estimatedRows info2 = 10.
Proof.
  intros E1 E2 Hlt Hmax.
  destruct (pivotBestIndex_spec _ _ _ _ _ E1) as (_ & _ & _ & _ & C1 & R1).
  destruct (pivotBestIndex_spec _ _ _ _ _ E2) as (_ & _ & _ & _ & C2 & R2).
  rewrite C1, C2. repeat split; try assumption.
  apply binary64_cost_decreasing; lia.
Qed.

(** C9.  The planner leaves the table object as it found it, and leaves
    the request's constraints and orderings in place; the plan it writes
    depends on the request and on the table's definition (number of
    row-key columns, their names, full-scan query text) only: a table
    object with the same definition gets the same plan. *)
Theorem pivotBestIndex_leaves_definition_unchanged
    (tab : pivot_vtab) (pIdxInfo : sqlite3_index_info) :
  (forall tab' info,
     pivotBestIndex tab pIdxInfo = Some (tab', info) ->
     tab' = tab
     /\ aConstraint info = aConstraint pIdxInfo
     /\ aOrderBy info = aOrderBy pIdxInfo)
  /\ (forall tab2,
        Plan.same_definition tab tab2 ->
        option_map snd (pivotBestIndex tab2 pIdxInfo)
        = option_map snd (pivotBestIndex tab pIdxInfo)).
Proof.
  split.
  - intros tab' info. unfold pivotBestIndex.
    destruct (plan_constraints _ 0 _) as [s1|] eqn:E1; [|discriminate].
    destruct (plan_orderbys _ s1) as [s2|] eqn:E2; [|discriminate].
    intros [= <- <-]. cbn.
    pose proof (plan_constraints_frame _ _ _ _ E1) as (F1 & _).
    pose proof (plan_orderbys_frame _ _ _ E2) as (G1 & _).
    rewrite G1, F1. auto.
  - intros tab2 Hd. unfold pivotBestIndex.
    set (s := {| ps_tab := tab; ps_usage := _ |}).
    set (s' := {| ps_tab := tab2; ps_usage := _ |}).
    assert (Hs : plan_state_similar s s').
    { destruct Hd as (H1 & H2 & H3). repeat split; try assumption. }
    pose proof (plan_constraints_similar (aConstraint pIdxInfo) 0 s s' Hs) as H1.
    destruct (plan_constraints _ 0 s) as [s1|], (plan_constraints _ 0 s') as [s1'|];
      try contradiction; [|reflexivity].
    pose proof (plan_orderbys_similar (aOrderBy pIdxInfo) s1 s1' H1) as H2.
    destruct (plan_orderbys _ s1) as [s2|], (plan_orderbys _ s1') as [s2'|];
      try contradiction; [|reflexivity].
    destruct H2 as (_ & Hu & Ho & Hk & Ha & _). cbn.
    now rewrite Hu, Ho, Hk, Ha.
Qed.

(* ================================================================== *)
(** * Cursors *)
(* ================================================================== *)

Lemma sqlite3_step_DONE_open p p' :
  sqlite3_step p = (SQLITE_DONE, p') -> p' <> None.
Proof.
  unfold sqlite3_step. destruct p as [st|]; [|discriminate].
  destruct (stmt_pending st); intros [= _ <-]; discriminate.
Qed.

(** A step answers SQLITE_DONE exactly on a prepared statement without
    pending row whose run completes. *)
Lemma sqlite3_step_DONE_iff p :
  fst (sqlite3_step p) = SQLITE_DONE <-> no_further_row p.
Proof.
  unfold sqlite3_step, no_further_row. destruct p as [st|].
  - destruct (stmt_pending st) as [|r rs] eqn:E; cbn [fst].
    + rewrite end_code_DONE. split.
      * intros H. exists st. auto.
      * intros (st' & [= <-] & _ & H). exact H.
    + split; [discriminate|]. intros (st' & [= <-] & H & _). congruence.
  - cbn [fst]. split; [discriminate|]. intros (st' & H & _). discriminate.
Qed.

Lemma copy_row_key_values tab p :
  exists vals, copy_row_key tab p = map Some vals
               /\ List.length vals = Z.to_nat (nRow_cols tab).
Proof.
  unfold copy_row_key.
  exists (map (sqlite3_column_value p) (zrange 0 (nRow_cols tab))).
  rewrite map_map, length_map, zrange_length. split; [reflexivity | f_equal; lia].
Qed.

(** The last step result of the cursor an advance leaves is the answer
    of the step on the advance's statement. *)
Lemma advance_rc tab p cur :
  advance tab p cur -> rc cur = fst (sqlite3_step p).
Proof.
  intros [c idxNum idxStr argv | c c' Hn].
  - unfold pivotFilter. destruct (sqlite3_step _) as [rc' q]. reflexivity.
  - revert Hn. unfold pivotNext. destruct (sqlite3_step _) as [rc' q].
    destruct (negb (rc' =? SQLITE_DONE)).
    + destruct (pivot_key c); [|discriminate]. now intros [= <-].
    + now intros [= <-].
Qed.

(** C7 (as the code has it).  Take any advance, Filter or Next.  xEof
    answers true after it exactly when its step found no further row: the
    row-key statement was prepared, no row was left and the run ended
    without error.  After such an advance the cursor is exhausted (its
    last step result is SQLITE_DONE) and holds no row-key value, but its
    row-key statement is still open: it is the call of xEof which
    finalizes the statement and clears the statement pointer of the
    cursor. *)
Theorem exhausted_cursor_finalized_by_eof
    (tab : pivot_vtab) (p : option sqlite3_stmt) (cur : pivot_cursor) :
  advance tab p cur ->
  (fst (pivotEof tab cur) <> 0 <-> no_further_row p)
  /\ (no_further_row p ->
      exhausted cur
      /\ no_key_retained cur
      /\ stmt cur <> None
      /\ fst (pivotEof tab cur) = 1
      /\ stmt (snd (pivotEof tab cur)) = None).
Proof.
  intros Ha. pose proof (advance_rc tab p cur Ha) as Hrc.
  assert (Hiff : rc cur = SQLITE_DONE <-> no_further_row p).
  { rewrite Hrc. apply sqlite3_step_DONE_iff. }
  split.
  - rewrite <- Hiff. unfold pivotEof.
    destruct (Z.eqb_spec (rc cur) SQLITE_DONE); cbn [fst]; split; intros H;
      try assumption; try discriminate; contradiction.
  - intros Hn. apply Hiff in Hn as He.
    assert (Hkey : no_key_retained cur /\ stmt cur <> None).
    { clear Hrc Hiff Hn. destruct Ha as [c idxNum idxStr argv | c c' Hn].
      - revert He. unfold pivotFilter, no_key_retained, key_array.
        destruct (sqlite3_step _) as [rc' q] eqn:Es. cbn [rc pivot_key stmt].
        intros ->. rewrite Z.eqb_refl. split; [constructor|].
        eapply sqlite3_step_DONE_open, Es.
      - revert Hn He. unfold pivotNext, no_key_retained, key_array.
        destruct (sqlite3_step _) as [rc' q] eqn:Es.
        destruct (Z.eqb_spec rc' SQLITE_DONE) as [->|Hne]; cbn [negb].
        + intros [= <-] _. cbn [pivot_key stmt]. split.
          * destruct (pivot_key c); [|constructor].
            apply Forall_forall. intros v Hv. apply in_map_iff in Hv as (_ & <- & _).
            reflexivity.
          * eapply sqlite3_step_DONE_open, Es.
        + destruct (pivot_key c); [|discriminate].
          intros [= <-]. cbn [rc]. contradiction. }
    destruct Hkey as [Hk Hs]. repeat split; try assumption.
    + unfold pivotEof. now rewrite He, Z.eqb_refl.
    + unfold pivotEof. now rewrite He, Z.eqb_refl.
Qed.

Lemma znth_map_Some {A} (l : list A) i :
  0 <= i < Z.of_nat (List.length l) ->
  exists v, znth (map Some l) i = Some (Some v) /\ nth_error l (Z.to_nat i) = Some v.
Proof.
  intros H. unfold znth. destruct (Z.ltb_spec i 0) as [E|E]; [lia|].
  rewrite nth_error_map.
  destruct (nth_error l (Z.to_nat i)) as [v|] eqn:N.
  - exists v. auto.
  - apply nth_error_None in N. lia.
Qed.

Lemma firstn_succ_nth {A} (l : list A) n v :
  nth_error l n = Some v -> firstn (S n) l = firstn n l ++ [v].
Proof.
  revert n. induction l as [|x l IH]; intros [|n] H; simpl in *; try discriminate.
  - now injection H as ->.
  - f_equal. now apply IH.
Qed.

Lemma set_nth_app_skipn {A} (pre l : list A) v :
  (List.length pre < List.length l)%nat ->
  set_nth (pre ++ skipn (List.length pre) l) (List.length pre) v
  = (pre ++ [v]) ++ skipn (S (List.length pre)) l.
Proof.
  intros H.
  destruct (skipn (List.length pre) l) as [|x rest] eqn:E.
  - apply (f_equal (@List.length A)) in E. rewrite length_skipn in E. simpl in E. lia.
  - rewrite set_nth_middle, <- app_assoc. cbn [app]. do 2 f_equal.
    replace (skipn (S (List.length pre)) l) with (skipn 1 (skipn (List.length pre) l))
      by (rewrite skipn_skipn; reflexivity).
    rewrite E. reflexivity.
Qed.

(** The binding loop of pivotColumn on an idle statement and a key array
    without NULL entry: parameters lo+1 .. hi receive key values lo .. hi-1. *)
Lemma bind_row_key_idle pp (key binds0 : list sqlite3_value) : forall (n lo : nat),
  (lo + n <= List.length key)%nat ->
  (lo + n <= List.length binds0)%nat ->
  bind_row_key (Some (idle_stmt pp (firstn lo key ++ skipn lo binds0))) (map Some key)
    (zrange (Z.of_nat lo) (Z.of_nat (lo + n)))
  = Some (Some (idle_stmt pp (firstn (lo + n) key ++ skipn (lo + n) binds0))).
Proof.
  induction n as [|n IH]; intros lo Hk Hb.
  - rewrite Nat.add_0_r, zrange_nil by lia. reflexivity.
  - rewrite zrange_cons by lia. cbn [bind_row_key].
    destruct (znth_map_Some key (Z.of_nat lo) ltac:(lia)) as (v & -> & Hv).
    rewrite Nat2Z.id in Hv.
    assert (Hl : List.length (firstn lo key) = lo) by (rewrite length_firstn; lia).
    unfold sqlite3_bind_value, idle_stmt. cbn [st_state st_binds st_prog].
    rewrite length_app, Hl, length_skipn.
    destruct (Z.leb_spec 1 (Z.of_nat lo + 1)); [|lia].
    destruct (Z.leb_spec (Z.of_nat lo + 1) (Z.of_nat (lo + (List.length binds0 - lo))));
      [|lia].
    cbn [andb]. unfold zset.
    destruct (Z.ltb_spec (Z.of_nat lo + 1 - 1) 0); [lia|].
    replace (Z.to_nat (Z.of_nat lo + 1 - 1)) with (List.length (firstn lo key)) by lia.
    replace (skipn lo binds0) with (skipn (List.length (firstn lo key)) binds0)
      by now rewrite Hl.
    rewrite set_nth_app_skipn by lia. rewrite Hl.
    rewrite <- (firstn_succ_nth key lo v Hv).
    replace (Z.of_nat lo + 1) with (Z.of_nat (S lo)) by lia.
    replace (lo + S n)%nat with (S lo + n)%nat by lia.
    apply (IH (S lo)); lia.
Qed.

Lemma in_zrange k lo hi : In k (zrange lo hi) -> lo <= k < hi.
Proof.
  unfold zrange. intros H. apply in_map_iff in H as (n & <- & Hn).
  apply in_seq in Hn. lia.
Qed.


Lemma zrange_to_nat hi : zrange 0 hi = zrange (Z.of_nat 0) (Z.of_nat (0 + Z.to_nat hi)).
Proof. unfold zrange. do 2 f_equal. lia. Qed.

(** A lookup through an idle column statement: the statement is bound to
    the leading key values, run, read and reset. *)
Lemma pivotColumn_cell tab cur key i pp binds0 :
  pivot_key cur = Some (map Some key) ->
  nRow_cols tab <= i ->
  znth (col_stmt tab) (i - nRow_cols tab) = Some (Some (idle_stmt pp binds0)) ->
  nRow_key tab <= Z.of_nat (List.length key) ->
  nRow_key tab <= Z.of_nat (List.length binds0) ->
  let n := Z.to_nat (nRow_key tab) in
  let binds := firstn n key ++ skipn n binds0 in
  pivotColumn tab cur i
  = Some (with_col_stmt tab (i - nRow_cols tab) (Some (idle_stmt pp binds)),
          first_value (prog_run pp binds)).
Proof.
  intros Hk Hi Hs Hlk Hlb n binds. unfold pivotColumn.
  destruct (Z.ltb_spec i (nRow_cols tab)); [lia|].
  rewrite Hs. unfold key_array. rewrite Hk.
  rewrite zrange_to_nat.
  change (idle_stmt pp binds0) with (idle_stmt pp (firstn 0 key ++ skipn 0 binds0)).
  rewrite bind_row_key_idle by lia.
  fold n. cbn [Nat.add]. fold binds.
  unfold sqlite3_step, stmt_pending, idle_stmt. cbn [st_state st_prog st_binds].
  destruct (prog_run pp binds) as [|r rs]; [|reflexivity].
  rewrite end_code_eqb_ROW. reflexivity.
Qed.

(** A row-key column is answered from the key array. *)
Lemma pivotColumn_key tab cur key i v :
  pivot_key cur = Some (map Some key) ->
  0 <= i < nRow_cols tab ->
  nth_error key (Z.to_nat i) = Some v ->
  pivotColumn tab cur i = Some (tab, v).
Proof.
  intros Hk Hi Hv. unfold pivotColumn, key_array.
  destruct (Z.ltb_spec i (nRow_cols tab)); [|lia].
  rewrite Hk. unfold znth. destruct (Z.ltb_spec i 0); [lia|].
  now rewrite nth_error_map, Hv.
Qed.

(** C10.  A cell lookup binds the first nRow_key values of the current
    row key into parameters 1 .. nRow_key of the column statement, leaves
    the other parameters as they were, and answers the first value of the
    statement run under these bindings (NULL when it yields no row); a
    cursor whose key has the same first nRow_key values gets the same
    answer, whatever the remaining values of its key are. *)
Theorem pivotColumn_binds_leading_key_values
    (tab : pivot_vtab) (cur : pivot_cursor) (key : list sqlite3_value) (i : Z)
    (pp : program) (binds0 : list sqlite3_value) :
  pivot_key cur = Some (map Some key) ->
  nRow_cols tab <= i ->
  znth (col_stmt tab) (i - nRow_cols tab) = Some (Some (idle_stmt pp binds0)) ->
  nRow_key tab <= Z.of_nat (List.length key) ->
  nRow_key tab <= Z.of_nat (List.length binds0) ->
  let n := Z.to_nat (nRow_key tab) in
  let binds := firstn n key ++ skipn n binds0 in
  exists tab',
    pivotColumn tab cur i = Some (tab', first_value (prog_run pp binds))
    /\ znth (col_stmt tab') (i - nRow_cols tab) = Some (Some (idle_stmt pp binds))
    /\ forall cur2 key2,
         pivot_key cur2 = Some (map Some key2) ->
         firstn n key2 = firstn n key ->
         pivotColumn tab cur2 i = pivotColumn tab cur i.
Proof.
  intros Hk Hi Hs Hlk Hlb n binds.
  pose proof (pivotColumn_cell tab cur key i pp binds0 Hk Hi Hs Hlk Hlb) as Hc.
  cbv zeta in Hc. fold n in Hc. fold binds in Hc.
  eexists. split; [exact Hc|]. split.
  - unfold with_col_stmt, set_col_stmt. cbn [col_stmt].
    apply znth_inv in Hs as Hr.
    destruct (nth_error_split (col_stmt tab) (Z.to_nat (i - nRow_cols tab)))
      with (a := Some (idle_stmt pp binds0)) as (l1 & l2 & El & Ell).
    { revert Hs. unfold znth. destruct (Z.ltb_spec (i - nRow_cols tab) 0); [lia|]. auto. }
    rewrite El. replace (i - nRow_cols tab) with (Z.of_nat (List.length l1)) by lia.
    now rewrite zset_middle, znth_middle.
  - intros cur2 key2 Hk2 Hf.
    assert (Hl2 : (n <= List.length key2)%nat).
    { apply (f_equal (@List.length _)) in Hf. rewrite !length_firstn in Hf. lia. }
    rewrite Hc.
    rewrite (pivotColumn_cell tab cur2 key2 i pp binds0 Hk2 Hi Hs ltac:(lia) Hlb).
    cbv zeta. fold n. now rewrite Hf.
Qed.

(* ================================================================== *)
(** * Creation *)
(* ================================================================== *)

Section Connect.

Import Schema.

Lemma join_snoc sep l x :
  join sep (l ++ [x]) = match l with [] => x | _ => join sep l +++ sep +++ x end.
Proof.
  induction l as [|y l IH]; [reflexivity|].
  destruct l as [|z l]; [reflexivity|].
  change (join sep ((y :: z :: l) ++ [x])) with (y +++ sep +++ join sep ((z :: l) ++ [x])).
  rewrite IH. change (join sep (y :: z :: l)) with (y +++ sep +++ join sep (z :: l)).
  now rewrite !append_assoc.
Qed.

Lemma join_append_each sep m : forall l,
  l <> [] -> join sep (l ++ m) = join sep l +++ append_each sep m.
Proof.
  induction m as [|x m IH]; intros l Hl.
  - rewrite app_nil_r. cbn [append_each]. now rewrite append_nil_r.
  - replace (l ++ x :: m) with ((l ++ [x]) ++ m) by now rewrite <- app_assoc.
    rewrite IH by (destruct l; discriminate).
    rewrite join_snoc. destruct l as [|y l]; [contradiction|].
    cbn [append_each]. now rewrite !append_assoc.
Qed.

Lemma nth_error_znth {A} (l : list A) (n : nat) :
  znth l (Z.of_nat n) = nth_error l n.
Proof.
  unfold znth. destruct (Z.ltb_spec (Z.of_nat n) 0); [lia|]. now rewrite Nat2Z.id.
Qed.

(** The loop over the key query's columns quotes every name and joins the
    quoted names with commas. *)
Lemma connect_key_names_spec st sql :
  connect_key_names (Some st) (sqlite3_column_count (Some st)) sql
  = (map quote_ident (prog_columns (st_prog st)),
     sql +++ join "," (map quote_ident (prog_columns (st_prog st)))).
Proof.
  unfold connect_key_names, sqlite3_column_count, sqlite3_column_name.
  set (cols := prog_columns (st_prog st)).
  set (f := fun (acc : list string * string) (i : Z) => _).
  assert (H : forall rest done,
             cols = done ++ rest ->
             fold_left f (zrange (Z.of_nat (List.length done)) (Z.of_nat (List.length cols)))
               (map quote_ident done, sql +++ join "," (map quote_ident done))
             = (map quote_ident cols, sql +++ join "," (map quote_ident cols))).
  { induction rest as [|c rest IH]; intros done E.
    - rewrite app_nil_r in E. subst done. rewrite zrange_nil by lia. reflexivity.
    - assert (Hlen : List.length cols = (List.length done + S (List.length rest))%nat).
      { rewrite E, length_app. reflexivity. }
      rewrite zrange_cons by lia. cbn [fold_left].
      replace (Z.of_nat (List.length done) + 1) with (Z.of_nat (List.length (done ++ [c])))
        by (rewrite length_app; simpl; lia).
      rewrite <- (IH (done ++ [c])) by now rewrite <- app_assoc.
      f_equal. unfold f. cbn [fst snd].
      rewrite nth_error_znth, E, nth_error_app2, Nat.sub_diag by lia. cbn [nth_error].
      change (quote_ident_ptr (Some c)) with (quote_ident c).
      rewrite !map_app. cbn [map]. rewrite join_snoc.
      destruct done as [|d done]; cbn [List.length map].
      + change (0 <? Z.of_nat 0) with false. cbn [join]. now rewrite append_nil_r.
      + destruct (Z.ltb_spec 0 (Z.of_nat (S (List.length done)))); [|lia].
        now rewrite !append_assoc. }
  specialize (H cols [] eq_refl). cbn [List.length map join] in H.
  rewrite append_nil_r in H. exact H.
Qed.

(** The statement the loop of pivotConnect stores for a column key. *)
Lemma connect_binding db sql pp k n :
  db_compile db sql = inr pp ->
  n = Z.of_nat (prog_nparams pp) - 1 ->
  sqlite3_bind_value (stmt_ptr (sqlite3_prepare_v2 db sql)) (n + 1) k
  = Some (binding pp k).
Proof.
  intros E ->. unfold sqlite3_prepare_v2. rewrite E. cbn [stmt_ptr].
  unfold sqlite3_bind_value, binding, idle_stmt. cbn [st_state st_binds st_prog].
  rewrite repeat_length.
  destruct (prog_nparams pp) as [|n] eqn:En.
  - reflexivity.
  - destruct (Z.leb_spec 1 (Z.of_nat (S n) - 1 + 1)); [|lia].
    destruct (Z.leb_spec (Z.of_nat (S n) - 1 + 1) (Z.of_nat (S n))); [|lia].
    cbn [andb]. do 3 f_equal. lia.
Qed.

(** The loop over the rows of the column-definition query: one binding
    and one declared column per row, in row order. *)
Lemma connect_columns_spec pq pp : forall rs fuel st tab sql,
  stmt_pending st = rs ->
  (List.length rs < fuel)%nat ->
  db_compile (db tab) pq = inr pp ->
  nRow_key tab = Z.of_nat (prog_nparams pp) - 1 ->
  connect_columns fuel pq (Some st) tab sql
  = Some ({| db := db tab;
             nRow_key := nRow_key tab;
             nRow_cols := nRow_cols tab;
             nCol_key := nCol_key tab + Z.of_nat (List.length rs);
             col_stmt := col_stmt tab ++ map (fun r => Some (binding pp (cell r 0))) rs;
             key_sql_full_table_scan := key_sql_full_table_scan tab;
             key_sql_col_names := key_sql_col_names tab |},
          sql +++ append_each ","
                    (map (fun r => quote_ident_ptr (value_text (cell r 1))) rs)).
Proof.
  induction rs as [|r rs IH]; intros fuel st tab sql Hp Hf Hc Hk;
    (destruct fuel as [|fuel]; [simpl in Hf; lia|]);
    cbn [connect_columns]; unfold sqlite3_step; rewrite Hp.
  - rewrite end_code_eqb_ROW.
    cbn [List.length map append_each]. rewrite app_nil_r, Z.add_0_r, append_nil_r.
    destruct tab; reflexivity.
  - change (SQLITE_ROW =? SQLITE_ROW) with true. cbn iota.
    rewrite (connect_binding _ _ _ _ _ Hc Hk).
    rewrite IH; [| reflexivity | simpl in Hf; lia | exact Hc | exact Hk].
    cbn [db nRow_key nRow_cols nCol_key col_stmt key_sql_full_table_scan key_sql_col_names].
    unfold sqlite3_column_text, sqlite3_column_value. cbn [st_state].
    fold (cell r 0). fold (cell r 1).
    cbn [List.length map append_each]. rewrite <- app_assoc, !append_assoc. cbn [app].
    do 3 f_equal. lia.
Qed.

Lemma first_hit_Some {A E} (f : A -> option E) l e :
  first_hit f l = Some e -> exists x, In x l /\ f x = Some e.
Proof.
  induction l as [|x l IH]; cbn [first_hit]; [discriminate|].
  destruct (f x) as [e'|] eqn:Ef.
  - intros [= <-]. exists x. split; [now left | assumption].
  - intros H. destruct (IH H) as (y & Hy & Hf). exists y. split; [now right | assumption].
Qed.

(** The uniqueness validation ends creation with one of its two errors,
    or reads a NULL or missing cell. *)
Lemma connect_check_unique_result t r :
  connect_check_unique t = Some r ->
  r = ConnectUndefined
  \/ (exists k, r = duplicate_key_error k)
  \/ (exists n, r = duplicate_name_error n).
Proof.
  unfold connect_check_unique. destruct (1 <? nRow t); [|discriminate].
  intros H. apply first_hit_Some in H as (i & _ & H).
  apply first_hit_Some in H as (j & _ & H).
  revert H. unfold connect_check_pair.
  destruct (znth (azData t) (i * nCol t)) as [[ki|]|]; try (intros [= <-]; now left).
  destruct (znth (azData t) (j * nCol t)) as [[kj|]|]; try (intros [= <-]; now left).
  destruct (strcmp ki kj =? 0); [intros [= <-]; right; left; now exists ki|].
  destruct (znth (azData t) (i * nCol t + 1)) as [ni|]; try (intros [= <-]; now left).
  destruct (znth (azData t) (j * nCol t + 1)) as [nj|]; try (intros [= <-]; now left).
  destruct (sqlite3_stricmp ni nj =? 0); [intros [= <-]; right; right; now exists (fmt_s ni)|].
  discriminate.
Qed.

(** Reading the table of a text that compiles fails only when the run of
    its program fails, and then with the engine's message for the code. *)
Lemma sqlite3_get_table_compiled db0 sql p :
  db_compile db0 sql = inr p ->
  match prog_end p (repeat SqlNull (prog_nparams p)) with
  | Completes => exists t, sqlite3_get_table db0 sql = inr t
  | Fails e => sqlite3_get_table db0 sql = inl (Err.message e)
  end.
Proof.
  intros E. unfold sqlite3_get_table. rewrite E.
  destruct (prog_end p _); [|reflexivity].
  destruct (prog_run p _); eauto.
Qed.

(** No message of the engine is the text of the bound-parameter error. *)
Lemma message_not_bound_parameter_error e :
  ConnectError (Err.message e) <> bound_parameter_error.
Proof. destruct e; discriminate. Qed.

(** What a successful creation has built. *)
Lemma pivotConnect_Connected db0 argv tab schema :
  pivotConnect db0 argv = Connected tab schema ->
  exists kp cp pp,
    queries db0 argv kp cp pp
    /\ db tab = db0
    /\ db_compile db0 (key_sql_full_table_scan tab) = inr kp
    /\ key_sql_col_names tab = key_names kp
    /\ nRow_cols tab = Z.of_nat (List.length (prog_columns kp))
    /\ nRow_key tab = Z.of_nat (prog_nparams pp) - 1
    /\ nRow_key tab <= nRow_cols tab
    /\ nCol_key tab = Z.of_nat (List.length (rows_of cp))
    /\ col_stmt tab = bindings pp cp
    /\ schema = "CREATE TABLE x(" +++ join "," (key_names kp)
                  +++ append_each "," (display_names cp) +++ ")".
Proof.
  unfold pivotConnect.
  destruct (znth argv 3) as [argv3|] eqn:A3; [|discriminate].
  unfold sqlite3_prepare_v2 at 1.
  destruct (db_compile db0 (select_from argv3)) as [msg|kp] eqn:Ck; [discriminate|].
  rewrite connect_key_names_spec. cbn [st_prog].
  destruct (znth argv 5) as [argv5|] eqn:A5; [|discriminate].
  unfold sqlite3_prepare_v2 at 1.
  destruct (db_compile db0 (select_from argv5)) as [msg|pp] eqn:Cp; [discriminate|].
  unfold sqlite3_bind_parameter_count, sqlite3_column_count. cbn [st_prog].
  destruct (Z.ltb_spec (Z.of_nat (List.length (prog_columns kp)))
              (Z.of_nat (prog_nparams pp) - 1)) as [Hgt|Hle]; [discriminate|].
  destruct (znth argv 4) as [argv4|] eqn:A4; [|discriminate].
  unfold sqlite3_prepare_v2 at 1.
  destruct (db_compile db0 (select_from argv4)) as [msg|cp] eqn:Cc; [discriminate|].
  cbn [st_prog].
  destruct (negb _); [discriminate|].
  destruct (sqlite3_get_table db0 (select_from argv4)); [discriminate|].
  destruct (connect_check_unique t) as [r|] eqn:U.
  { intros ->. apply connect_check_unique_result in U as [U|[[k U]|[n U]]]; discriminate. }
  erewrite connect_columns_spec;
    [| reflexivity | apply Nat.lt_succ_diag_r | exact Cp | reflexivity ].
  cbn [db nRow_key nRow_cols nCol_key col_stmt key_sql_full_table_scan key_sql_col_names
       stmt_pending st_state st_prog st_binds app].
  destruct (db_declare_vtab db0 _ =? SQLITE_OK); [|discriminate].
  intros [= <- <-].
  exists kp, cp, pp.
  cbn [db nRow_key nRow_cols nCol_key col_stmt key_sql_full_table_scan key_sql_col_names].
  repeat split; try assumption; try reflexivity.
  - exists argv3, argv4, argv5. repeat split; assumption.
  - now rewrite !append_assoc.
Qed.

End Connect.

(** A created table has one quoted name per row-key column: the
    planner's reads of the names array are in bounds for every declared
    column. *)
Lemma pivotConnect_names_wf db0 argv tab schema :
  pivotConnect db0 argv = Connected tab schema -> Plan.names_wf tab.
Proof.
  intros H.
  destruct (pivotConnect_Connected _ _ _ _ H)
    as (kp & cp & pp & _ & _ & _ & Hn & Hc & _).
  unfold Plan.names_wf. rewrite Hn, Hc. unfold Schema.key_names.
  now rewrite length_map.
Qed.

(** C6.  A created table declares the row-key query's result columns, in
    their order and under their names, followed by one column per row of
    the column-definition query, in row order and named by the row's
    display name, all identifier-quoted; the number of declared columns is
    the number of row-key columns plus the number of column-definition
    rows, and the table holds one cell-lookup binding per such row, bound
    to the row's column key. *)
Theorem pivotConnect_declares_schema
    (db0 : sqlite3) (argv : list string) (tab : pivot_vtab) (schema : string) :
  pivotConnect db0 argv = Connected tab schema ->
  exists kp cp pp,
    Schema.queries db0 argv kp cp pp
    /\ key_sql_col_names tab = Schema.key_names kp
    /\ nRow_cols tab = Z.of_nat (List.length (prog_columns kp))
    /\ nCol_key tab = Z.of_nat (List.length (Schema.rows_of cp))
    /\ Z.of_nat (List.length (Schema.declared_columns kp cp)) = nRow_cols tab + nCol_key tab
    /\ col_stmt tab = Schema.bindings pp cp
    /\ (prog_columns kp <> [] ->
        schema = Schema.create_table (Schema.declared_columns kp cp)).
Proof.
  intros H.
  destruct (pivotConnect_Connected _ _ _ _ H)
    as (kp & cp & pp & Hq & _ & _ & Hn & Hc & _ & _ & Hk & Hs & Hsql).
  exists kp, cp, pp. repeat split; try assumption.
  - unfold Schema.declared_columns, Schema.key_names, Schema.display_names.
    rewrite length_app, !length_map. lia.
  - intros Hne. rewrite Hsql. unfold Schema.create_table, Schema.declared_columns.
    rewrite join_append_each, !append_assoc; [reflexivity|].
    unfold Schema.key_names. destruct (prog_columns kp); [contradiction | discriminate].
Qed.

(** C2 (as the code has it).  Creation fails with the bound-parameter
    error exactly when the key query and the pivot query both prepare and
    the pivot query's parameter count minus one exceeds the number of
    result columns of the key query; a pivot query with fewer parameters
    is accepted. *)
Theorem pivotConnect_bound_parameter_error_iff (db0 : sqlite3) (argv : list string) :
  pivotConnect db0 argv = Schema.bound_parameter_error
  <-> exists argv3 argv5 kq pq,
        znth argv 3 = Some argv3
        /\ znth argv 5 = Some argv5
        /\ sqlite3_prepare_v2 db0 (select_from argv3) = inr kq
        /\ sqlite3_prepare_v2 db0 (select_from argv5) = inr pq
        /\ sqlite3_column_count (Some kq) < sqlite3_bind_parameter_count (Some pq) - 1.
Proof.
  unfold Schema.bound_parameter_error. split.
  - unfold pivotConnect.
    destruct (znth argv 3) as [argv3|] eqn:A3; [|discriminate].
    destruct (sqlite3_prepare_v2 db0 (select_from argv3)) as [msg|kq] eqn:Ck;
      [cbn; discriminate|].
    destruct (connect_key_names _ _ _) as [names sql0].
    destruct (znth argv 5) as [argv5|] eqn:A5; [|discriminate].
    destruct (sqlite3_prepare_v2 db0 (select_from argv5)) as [msg|pq] eqn:Cp;
      [cbn; discriminate|].
    destruct (Z.ltb_spec (sqlite3_column_count (Some kq))
                (sqlite3_bind_parameter_count (Some pq) - 1)) as [Hgt|Hle].
    { intros _. exists argv3, argv5, kq, pq. auto. }
    destruct (znth argv 4) as [argv4|] eqn:A4; [|discriminate].
    unfold sqlite3_prepare_v2 at 1.
    destruct (db_compile db0 (select_from argv4)) as [msg|cp] eqn:Cc;
      [cbn; discriminate|].
    destruct (negb _); [cbn; discriminate|].
    pose proof (sqlite3_get_table_compiled _ _ _ Cc) as Ht.
    destruct (prog_end cp _) as [|e].
    2:{ rewrite Ht. intros H. now apply message_not_bound_parameter_error in H. }
    destruct Ht as [t ->].
    destruct (connect_check_unique t) as [r|] eqn:U.
    { intros ->. apply connect_check_unique_result in U as [U|[[k U]|[n U]]];
        cbn in U; discriminate. }
    destruct (connect_columns _ _ _ _ _) as [[tab sql]|]; [|discriminate].
    destruct (db_declare_vtab db0 _ =? SQLITE_OK); discriminate.
  - intros (argv3 & argv5 & kq & pq & A3 & A5 & Ck & Cp & Hgt).
    unfold pivotConnect. rewrite A3, Ck.
    destruct (connect_key_names _ _ _) as [names sql0].
    rewrite A5, Cp.
    destruct (Z.ltb_spec (sqlite3_column_count (Some kq))
                (sqlite3_bind_parameter_count (Some pq) - 1)); [reflexivity | lia].
Qed.

(* ================================================================== *)
(** * A full scan *)
(* ================================================================== *)

Section FullScan.

Import Schema Scan.

Lemma zrange_of_nat n : zrange 0 (Z.of_nat n) = map Z.of_nat (seq 0 n).
Proof.
  unfold zrange. replace (Z.to_nat (Z.of_nat n - 0)) with n by lia.
  apply map_ext. intros k. lia.
Qed.

Lemma cells_of_row (r : row) : map (cell r) (zrange 0 (Z.of_nat (List.length r))) = r.
Proof.
  rewrite zrange_of_nat, map_map.
  assert (H : forall suf pre,
             r = pre ++ suf ->
             map (fun k => cell r (Z.of_nat k)) (seq (List.length pre) (List.length suf))
             = suf).
  { induction suf as [|v suf IH]; intros pre E; [reflexivity|].
    cbn [List.length seq map]. f_equal.
    - unfold cell. rewrite nth_error_znth, E, nth_error_app2, Nat.sub_diag by lia.
      reflexivity.
    - replace (S (List.length pre)) with (List.length (pre ++ [v]))
        by (rewrite length_app; simpl; lia).
      apply IH. now rewrite <- app_assoc. }
  apply (H r [] eq_refl).
Qed.

(** The key array copied from a statement that stands on a well-formed
    row holds the values of that row. *)
Lemma copy_row_key_current tab st r rest :
  st_state st = OnRow r rest ->
  Z.of_nat (List.length r) = nRow_cols tab ->
  copy_row_key tab (Some st) = map Some r.
Proof.
  intros Hr Hl. unfold copy_row_key, sqlite3_column_value. rewrite Hr, <- Hl.
  rewrite <- (cells_of_row r) at 2. rewrite map_map. reflexivity.
Qed.

Lemma read_columns_app cur l1 : forall tab l2,
  read_columns tab cur (l1 ++ l2)
  = match read_columns tab cur l1 with
    | None => None
    | Some (t1, v1) =>
        match read_columns t1 cur l2 with
        | None => None
        | Some (t2, v2) => Some (t2, v1 ++ v2)
        end
    end.
Proof.
  induction l1 as [|i l1 IH]; intros tab l2; cbn [read_columns app].
  - destruct (read_columns tab cur l2) as [[t2 v2]|]; reflexivity.
  - destruct (pivotColumn tab cur i) as [[t1 v]|]; [|reflexivity].
    rewrite IH.
    destruct (read_columns t1 cur l1) as [[t1' v1]|]; [|reflexivity].
    destruct (read_columns t1' cur l2) as [[t2 v2]|]; reflexivity.
Qed.

(** Reading the row-key columns answers the key array and leaves the
    table alone. *)
Lemma read_key_columns tab cur key :
  pivot_key cur = Some (map Some key) ->
  Z.of_nat (List.length key) = nRow_cols tab ->
  read_columns tab cur (zrange 0 (nRow_cols tab)) = Some (tab, key).
Proof.
  intros Hk Hl.
  assert (H : forall suf pre,
             key = pre ++ suf ->
             read_columns tab cur
               (zrange (Z.of_nat (List.length pre)) (Z.of_nat (List.length key)))
             = Some (tab, suf)).
  { induction suf as [|v suf IH]; intros pre E.
    - rewrite app_nil_r in E. subst pre. now rewrite zrange_nil by lia.
    - assert (Hlen : List.length key = (List.length pre + S (List.length suf))%nat).
      { rewrite E, length_app. reflexivity. }
      rewrite zrange_cons by lia. cbn [read_columns].
      rewrite (pivotColumn_key tab cur key _ v Hk) by
        (try lia; rewrite Nat2Z.id, E, nth_error_app2, Nat.sub_diag by lia; reflexivity).
      replace (Z.of_nat (List.length pre) + 1) with (Z.of_nat (List.length (pre ++ [v])))
        by (rewrite length_app; simpl; lia).
      rewrite IH by now rewrite <- app_assoc. reflexivity. }
  specialize (H key [] eq_refl). cbn [List.length] in H. now rewrite <- Hl.
Qed.

Lemma with_col_stmt_set tab l j p :
  with_col_stmt (set_col_stmt tab l) j p = set_col_stmt tab (zset l j p).
Proof. reflexivity. Qed.

(** Reading the pivot columns of one row: every column statement is
    rebound to the leading key values and answers its cell. *)
Lemma read_pivot_columns tab0 cur key pp :
  pivot_key cur = Some (map Some key) ->
  nRow_key tab0 <= Z.of_nat (List.length key) ->
  let n := Z.to_nat (nRow_key tab0) in
  let rebind := fun b => firstn n key ++ skipn n b in
  forall suf pre,
    Forall (fun b => nRow_key tab0 <= Z.of_nat (List.length b)) suf ->
    read_columns
      (set_col_stmt tab0 (map (fun b => Some (idle_stmt pp b)) (pre ++ suf))) cur
      (zrange (nRow_cols tab0 + Z.of_nat (List.length pre))
         (nRow_cols tab0 + Z.of_nat (List.length pre) + Z.of_nat (List.length suf)))
    = Some (set_col_stmt tab0
              (map (fun b => Some (idle_stmt pp b)) (pre ++ map rebind suf)),
            map (fun b => first_value (prog_run pp (rebind b))) suf).
Proof.
  intros Hk Hlk n rebind.
  induction suf as [|b suf IH]; intros pre Hf.
  - rewrite zrange_nil by (cbn [List.length]; lia). reflexivity.
  - inversion Hf as [|b0 suf0 Hb Hf']; subst.
    rewrite zrange_cons by (cbn [List.length]; lia). cbn [read_columns].
    rewrite (pivotColumn_cell _ cur key _ pp b Hk); cbn [nRow_cols nRow_key set_col_stmt col_stmt];
      try lia.
    2: { replace (nRow_cols tab0 + Z.of_nat (List.length pre) - nRow_cols tab0)
           with (Z.of_nat (List.length (map (fun b => Some (idle_stmt pp b)) pre)))
           by (rewrite length_map; lia).
         rewrite map_app. cbn [map]. apply znth_middle. }
    fold n. fold (rebind b). rewrite with_col_stmt_set.
    replace (nRow_cols tab0 + Z.of_nat (List.length pre) - nRow_cols tab0)
      with (Z.of_nat (List.length (map (fun b => Some (idle_stmt pp b)) pre)))
      by (rewrite length_map; lia).
    rewrite map_app. cbn [map]. rewrite zset_middle.
    specialize (IH (pre ++ [rebind b]) Hf').
    rewrite length_app in IH. cbn [List.length] in IH.
    replace (nRow_cols tab0 + Z.of_nat (List.length pre + 1))
      with (nRow_cols tab0 + Z.of_nat (List.length pre) + 1) in IH by lia.
    replace (nRow_cols tab0 + Z.of_nat (List.length pre)
               + Z.of_nat (List.length (b :: suf)))
      with (nRow_cols tab0 + Z.of_nat (List.length pre) + 1 + Z.of_nat (List.length suf))
      by (cbn [List.length]; lia).
    rewrite <- !app_assoc in IH. cbn [app] in IH.
    rewrite map_app in IH. cbn [map] in IH.
    rewrite IH. cbn [map]. rewrite map_app. reflexivity.
Qed.

Lemma zrange_app lo mid hi :
  lo <= mid -> mid <= hi -> zrange lo hi = zrange lo mid ++ zrange mid hi.
Proof.
  intros H1 H2. remember (Z.to_nat (mid - lo)) as n eqn:En.
  revert lo En H1. induction n as [|n IH]; intros lo En H1.
  - replace lo with mid by lia. now rewrite (zrange_nil mid mid) by lia.
  - rewrite (zrange_cons lo hi), (zrange_cons lo mid) by lia.
    cbn [app]. f_equal. apply IH; lia.
Qed.

(** Reading every column of the current row. *)
Lemma read_row tab0 cur key pp bl :
  pivot_key cur = Some (map Some key) ->
  Z.of_nat (List.length key) = nRow_cols tab0 ->
  nRow_key tab0 <= nRow_cols tab0 ->
  nCol_key tab0 = Z.of_nat (List.length bl) ->
  Forall (fun b => nRow_key tab0 <= Z.of_nat (List.length b)) bl ->
  let n := Z.to_nat (nRow_key tab0) in
  read_columns (set_col_stmt tab0 (map (fun b => Some (idle_stmt pp b)) bl)) cur
    (zrange 0 (nRow_cols tab0 + nCol_key tab0))
  = Some (set_col_stmt tab0
            (map (fun b => Some (idle_stmt pp b))
               (map (fun b => firstn n key ++ skipn n b) bl)),
          scanned_row pp n (map (skipn n) bl) key).
Proof.
  intros Hk Hl Hn Hc Hf n.
  rewrite (zrange_app 0 (nRow_cols tab0)) by lia.
  rewrite read_columns_app.
  set (l := map (fun b => Some (idle_stmt pp b)) bl).
  pose proof (read_key_columns (set_col_stmt tab0 l) cur key Hk Hl) as Hkc.
  change (nRow_cols (set_col_stmt tab0 l)) with (nRow_cols tab0) in Hkc.
  rewrite Hkc. subst l.
  assert (Hlk : nRow_key tab0 <= Z.of_nat (List.length key)) by lia.
  pose proof (read_pivot_columns tab0 cur key pp Hk Hlk bl [] Hf) as H.
  cbv zeta in H. cbn [List.length app] in H. rewrite Z.add_0_r in H.
  rewrite Hc, H. unfold scanned_row. fold n. now rewrite (map_map (skipn n)).
Qed.

Lemma rebind_tails (n : nat) (key : row) bl :
  (n <= List.length key)%nat ->
  map (skipn n) (map (fun b => firstn n key ++ skipn n b) bl) = map (skipn n) bl.
Proof.
  intros Hn. rewrite map_map. apply map_ext. intros b.
  rewrite skipn_app, length_firstn.
  replace (Nat.min n (List.length key)) with n by lia.
  rewrite Nat.sub_diag. cbn [skipn].
  rewrite (skipn_all2 (firstn n key)) by (rewrite length_firstn; lia). reflexivity.
Qed.

Lemma rebind_lengths (n : nat) (key : row) bl (m : Z) :
  (n <= List.length key)%nat ->
  Forall (fun b => m <= Z.of_nat (List.length b)) bl ->
  Forall (fun b => m <= Z.of_nat (List.length b))
    (map (fun b => firstn n key ++ skipn n b) bl).
Proof.
  intros Hn Hf. apply Forall_map. eapply Forall_impl; [|exact Hf].
  intros b Hb. cbv beta in *. rewrite length_app, length_firstn, length_skipn. lia.
Qed.

(** The scan loop from a cursor that stands on a row: it reports that row
    and the rows still to come, then finds the cursor exhausted and
    finalizes its statement. *)
Lemma scan_loop_rows tab0 pp : forall rest r fuel bl cur,
  positioned cur r rest ->
  Forall (fun r' => Z.of_nat (List.length r') = nRow_cols tab0) (r :: rest) ->
  nRow_key tab0 <= nRow_cols tab0 ->
  nCol_key tab0 = Z.of_nat (List.length bl) ->
  Forall (fun b => nRow_key tab0 <= Z.of_nat (List.length b)) bl ->
  (S (List.length rest) < fuel)%nat ->
  let n := Z.to_nat (nRow_key tab0) in
  exists tab' cur',
    scan_loop fuel (nRow_cols tab0 + nCol_key tab0)
      (set_col_stmt tab0 (map (fun b => Some (idle_stmt pp b)) bl)) cur
    = Some (tab', cur', map (scanned_row pp n (map (skipn n) bl)) (r :: rest))
    /\ stmt cur' = None.
Proof.
  intros rest. induction rest as [|r2 rest IH];
    intros r fuel bl cur (Hrc & Hkey & st & Hst & Hpend & Hend) Hwf Hn Hc Hf Hfuel n;
    inversion Hwf as [|r0 l0 Hr Hwf']; subst r0 l0;
    (destruct fuel as [|fuel]; [lia|]);
    cbn [scan_loop]; unfold pivotEof; rewrite Hrc;
    change (SQLITE_ROW =? SQLITE_DONE) with false; cbn iota;
    change (negb (0 =? 0)) with false; cbn iota;
    rewrite (read_row tab0 cur r pp bl Hkey Hr Hn Hc Hf); fold n;
    unfold pivotNext; rewrite Hkey, Hst; unfold sqlite3_step; rewrite Hpend.
  - rewrite Hend. cbn [end_code].
    change (negb (SQLITE_DONE =? SQLITE_DONE)) with false. cbn iota.
    destruct fuel as [|fuel]; [simpl in Hfuel; lia|].
    cbn [scan_loop]. unfold pivotEof. cbn [rc].
    change (SQLITE_DONE =? SQLITE_DONE) with true. cbn iota.
    change (negb (1 =? 0)) with true. cbn iota.
    eexists _, _. split; reflexivity.
  - change (negb (SQLITE_ROW =? SQLITE_DONE)) with true. cbn iota.
    inversion Hwf' as [|r0 l0 Hr2 Hwf'']; subst r0 l0.
    assert (Hn' : (n <= List.length r)%nat) by lia.
    match goal with |- context [scan_loop fuel _ _ ?c] =>
      destruct (IH r2 fuel (map (fun b => firstn n r ++ skipn n b) bl) c)
        as (tab' & cur' & E & Hs)
    end.
    + split; [reflexivity|]. split.
      * cbn [pivot_key]. apply f_equal.
        apply (copy_row_key_current _ _ r2 rest); [reflexivity | exact Hr2].
      * eexists. split; [reflexivity|]. split; [reflexivity | exact Hend].
    + exact Hwf'.
    + exact Hn.
    + now rewrite length_map.
    + apply rebind_lengths; assumption.
    + simpl in Hfuel. lia.
    + fold n in E. rewrite rebind_tails in E by exact Hn'.
      rewrite E. eexists _, _. split; [reflexivity | exact Hs].
Qed.

Lemma set_nth_repeat_last {A} (x k : A) m :
  set_nth (repeat x (S m)) m k = repeat x m ++ [k].
Proof. induction m as [|m IH]; [reflexivity|]. cbn [repeat set_nth app] in *. now rewrite IH. Qed.

(** The bindings of a column statement during a scan are the parameters
    the specification gives to the cell query. *)
Lemma cell_binds_eq pp key k :
  let n := Z.to_nat (Z.of_nat (prog_nparams pp) - 1) in
  firstn n key
    ++ skipn n (zset (repeat SqlNull (prog_nparams pp)) (Z.of_nat (prog_nparams pp) - 1) k)
  = cell_binds pp key k.
Proof.
  unfold cell_binds. destruct (prog_nparams pp) as [|m]; [reflexivity|].
  cbv zeta. replace (Z.to_nat (Z.of_nat (S m) - 1)) with m by lia.
  unfold zset. destruct (Z.ltb_spec (Z.of_nat (S m) - 1) 0); [lia|].
  replace (Z.to_nat (Z.of_nat (S m) - 1)) with m by lia.
  rewrite set_nth_repeat_last, skipn_app, repeat_length, Nat.sub_diag.
  rewrite skipn_all2 by (rewrite repeat_length; lia). reflexivity.
Qed.

Lemma set_col_stmt_same tab : set_col_stmt tab (col_stmt tab) = tab.
Proof. destruct tab; reflexivity. Qed.

Lemma queries_unique db0 argv kp cp pp kp' cp' pp' :
  queries db0 argv kp cp pp -> queries db0 argv kp' cp' pp' ->
  kp' = kp /\ cp' = cp /\ pp' = pp.
Proof.
  intros (a3 & a4 & a5 & A3 & A4 & A5 & Ck & Cc & Cp)
         (b3 & b4 & b5 & B3 & B4 & B5 & Ck' & Cc' & Cp').
  rewrite A3 in B3. rewrite A4 in B4. rewrite A5 in B5.
  injection B3 as <-. injection B4 as <-. injection B5 as <-.
  rewrite Ck in Ck'. rewrite Cc in Cc'. rewrite Cp in Cp'.
  injection Ck' as <-. injection Cc' as <-. injection Cp' as <-. auto.
Qed.

End FullScan.

(** A cursor whose statement fails at the end of its run never reaches
    the end of the scan: no step answers SQLITE_DONE, xEof answers false
    after every row and the loop goes on, whatever the fuel. *)
Lemma scan_loop_never_ends ncol : forall fuel tab cur st,
  stmt cur = Some st ->
  stmt_end st <> Completes ->
  rc cur <> SQLITE_DONE ->
  scan_loop fuel ncol tab cur = None.
Proof.
  induction fuel as [|fuel IH]; intros tab cur st Hs He Hrc; [reflexivity|].
  cbn [scan_loop]. unfold pivotEof.
  destruct (Z.eqb_spec (rc cur) SQLITE_DONE) as [E|_]; [contradiction|].
  change (negb (0 =? 0)) with false. cbn iota.
  destruct (read_columns tab cur (zrange 0 ncol)) as [[tab' r]|]; [|reflexivity].
  unfold pivotNext. rewrite Hs. unfold sqlite3_step.
  destruct (stmt_pending st) as [|r1 rs].
  - destruct (Z.eqb_spec (end_code (stmt_end st)) SQLITE_DONE) as [E|Hne].
    { apply end_code_DONE in E. contradiction. }
    cbn [negb]. destruct (pivot_key cur); [|reflexivity].
    erewrite IH; [reflexivity | reflexivity | exact He | exact Hne].
  - change (negb (SQLITE_ROW =? SQLITE_DONE)) with true. cbn iota.
    destruct (pivot_key cur); [|reflexivity].
    erewrite IH; [reflexivity | reflexivity | exact He | discriminate].
Qed.

(** C3 (as the code has it).  On a created table whose row-key query
    runs to completion and yields well-formed rows, the engine's full scan
    (no constraint, no ordering) returns, run with more fuel than the
    row-key query has rows: it reports exactly one row per row of the
    row-key query, in that query's order; the row holds the row-key
    values, then for every row of the column-definition query the first
    value of the cell query bound to the leading row-key values and that
    row's column key, NULL when the cell query yields no row.  The cursor
    ends with its statement finalized.  When the cell query has one
    parameter more than the row-key query has columns, the parameters of
    a cell are all the row-key values of the row, then the column key. *)
Theorem full_scan_enumerates_pivot_rows
    (db0 : sqlite3) (argv : list string) (tab : pivot_vtab) (schema : string)
    (kp cp pp : program) (fuel : nat) :
  pivotConnect db0 argv = Connected tab schema ->
  Schema.queries db0 argv kp cp pp ->
  Scan.completes kp ->
  Scan.rows_wf kp ->
  (List.length (Schema.rows_of kp) < fuel)%nat ->
  (exists tab' cur',
     scan fuel (nRow_cols tab + nCol_key tab) tab [] [] []
     = Some (tab', cur', Scan.pivot_rows kp cp pp)
     /\ stmt cur' = None)
  /\ (prog_nparams pp = S (List.length (prog_columns kp)) ->
      Scan.pivot_rows kp cp pp
      = map (fun key =>
               key ++ map (fun c =>
                             first_value
                               (prog_run pp (Scan.key_then_column key (Schema.cell c 0))))
                        (Schema.rows_of cp))
          (Schema.rows_of kp)).
Proof.
  intros Hconn Hq Hcomp Hwf Hfuel. split.
  2:{ intros Hp. unfold Scan.pivot_rows. apply map_ext_in. intros key Hin.
      unfold Scan.rows_wf in Hwf. rewrite Forall_forall in Hwf.
      specialize (Hwf key Hin). cbv beta in Hwf.
      unfold Scan.pivot_row. f_equal. apply map_ext. intros c.
      unfold Scan.cell_value, Scan.cell_binds, Scan.key_then_column.
      rewrite Hp, <- Hwf, firstn_all. reflexivity. }
  destruct (pivotConnect_Connected _ _ _ _ Hconn)
    as (kp' & cp' & pp' & Hq' & Hdb & Hfull & _ & Hcols & Hkey & Hle & Hnk & Hstmts & _).
  destruct (queries_unique _ _ _ _ _ _ _ _ Hq Hq') as (-> & -> & ->).
  unfold scan, pivotBestIndex.
  cbn [index_info_init aConstraint aOrderBy plan_constraints plan_orderbys idxStr idxNum
       ps_tab key_sql_filtered].
  unfold pivotFilter, sqlite3_prepare_v2. rewrite Hdb, Hfull.
  cbn [stmt_ptr bind_args]. unfold sqlite3_step, stmt_pending at 1, stmt_end at 1.
  cbn [st_state st_prog st_binds].
  unfold Scan.completes in Hcomp. rewrite Hcomp. cbn [end_code].
  fold (Schema.rows_of kp). unfold Scan.pivot_rows.
  unfold Scan.rows_wf in Hwf.
  destruct (Schema.rows_of kp) as [|r rest] eqn:Erows.
  - change (SQLITE_DONE =? SQLITE_DONE) with true. cbn iota.
    destruct fuel as [|fuel]; [simpl in Hfuel; lia|].
    cbn [scan_loop]. unfold pivotEof. cbn [rc].
    change (SQLITE_DONE =? SQLITE_DONE) with true. cbn iota.
    change (negb (1 =? 0)) with true. cbn iota.
    eexists _, _. split; reflexivity.
  - change (SQLITE_ROW =? SQLITE_DONE) with false. cbn iota.
    assert (Hwf' : Forall (fun r' => Z.of_nat (List.length r') = nRow_cols tab) (r :: rest)).
    { eapply Forall_impl; [|exact Hwf]. intros r' Hr'. cbv beta in Hr'. lia. }
    match goal with |- context [scan_loop fuel ?m tab ?c] =>
      replace (scan_loop fuel m tab c)
        with (scan_loop fuel m (set_col_stmt tab (col_stmt tab)) c)
        by now rewrite set_col_stmt_same
    end.
    rewrite Hstmts.
    unfold Schema.bindings, Schema.binding. rewrite <- (map_map _ (fun b => Some (idle_stmt pp b))).
    match goal with |- context [scan_loop fuel _ (set_col_stmt tab (map _ ?bl)) ?c] =>
      destruct (scan_loop_rows tab pp rest r fuel bl c) as (tab' & cur' & E & Hs)
    end.
    + split; [reflexivity|]. split.
      * cbn [pivot_key]. apply f_equal.
        apply (copy_row_key_current _ _ r rest); [reflexivity|].
        now inversion Hwf'.
      * eexists. split; [reflexivity|]. split; [reflexivity | exact Hcomp].
    + exact Hwf'.
    + exact Hle.
    + now rewrite length_map.
    + apply Forall_map, Forall_forall. intros c _. cbv beta.
      unfold zset. destruct (_ <? 0); rewrite ?set_nth_length, repeat_length; lia.
    + simpl in Hfuel. lia.
    + exists tab', cur'. split; [|exact Hs].
      cbv zeta in E. rewrite E. do 2 f_equal.
      apply map_ext. intros key. unfold scanned_row, Scan.pivot_row.
      rewrite !map_map. f_equal. apply map_ext. intros c.
      rewrite Hkey. apply (f_equal (fun b => first_value (prog_run pp b))).
      apply cell_binds_eq.
Qed.
(* ================================================================== *)
(** * The planner outside the declared columns *)
(* ================================================================== *)

Section PlannerBounds.

Lemma plan_constraints_rowid cs : forall i s,
  Exists (fun c => names_read_by (ps_tab s) c /\ Constraint.iColumn c < 0) cs ->
  plan_constraints cs i s = None.
Proof.
  induction cs as [|c cs IH]; intros i s H; [inversion H|].
  cbn [plan_constraints].
  destruct (plan_constraint c i s) as [s1|] eqn:E; [|reflexivity].
  inversion H as [c0 l0 ((Hu & Hc & Ho) & Hneg)|c0 l0 Ht]; subst.
  - exfalso. revert E. unfold plan_constraint.
    destruct (Z.eqb_spec (Constraint.usable c) 0); [contradiction|].
    destruct (Z.ltb_spec (Constraint.iColumn c) (nRow_cols (ps_tab s))); [|lia].
    cbn [negb]. destruct (constraint_op (Constraint.op c)); [|contradiction].
    unfold znth. destruct (Z.ltb_spec (Constraint.iColumn c) 0); [discriminate | lia].
  - apply IH. apply plan_constraint_frame in E as (-> & _). exact Ht.
Qed.

Lemma plan_orderbys_rowid obs : forall s,
  0 <= nRow_cols (ps_tab s) ->
  Exists (fun o => OrderBy.iColumn o < 0) obs ->
  plan_orderbys obs s = None.
Proof.
  induction obs as [|o obs IH]; intros s Hn H; [inversion H|].
  cbn [plan_orderbys].
  destruct (plan_orderby o s) as [s1|] eqn:E; [|reflexivity].
  inversion H as [o0 l0 Hneg|o0 l0 Ht]; subst.
  - exfalso. revert E. unfold plan_orderby.
    destruct (Z.ltb_spec (OrderBy.iColumn o) (nRow_cols (ps_tab s))); [|lia].
    cbn [negb]. unfold znth.
    destruct (Z.ltb_spec (OrderBy.iColumn o) 0); [discriminate | lia].
  - apply plan_orderby_frame in E as (Ft & _). apply IH; [now rewrite Ft | exact Ht].
Qed.

End PlannerBounds.

(** X1.  The planner reads the names array at the column index of every
    constraint it consumes and of every ordering term on a column index
    below the number of row-key columns, without a lower bound: on a
    request with such a constraint or term on the rowid (column index -1,
    or any negative index) it reads before the start of the array, and
    its outcome is undefined. *)
Theorem pivotBestIndex_rowid_out_of_bounds
    (tab : pivot_vtab) (pIdxInfo : sqlite3_index_info) :
  0 <= nRow_cols tab ->
  Exists (fun c => names_read_by tab c /\ Constraint.iColumn c < 0) (aConstraint pIdxInfo)
  \/ Exists (fun o => OrderBy.iColumn o < 0) (aOrderBy pIdxInfo) ->
  pivotBestIndex tab pIdxInfo = None.
Proof.
  intros Hn H. unfold pivotBestIndex.
  destruct (plan_constraints _ 0 _) as [s1|] eqn:E1; [|reflexivity].
  destruct H as [H|H].
  - rewrite plan_constraints_rowid in E1; [discriminate | exact H].
  - apply plan_constraints_frame in E1 as (Ft & _).
    rewrite plan_orderbys_rowid; [reflexivity | now rewrite Ft | exact H].
Qed.

(* ================================================================== *)
(** * Rowids, and a plan that does not compile *)
(* ================================================================== *)

Section Advances.

Lemma pivotNext_iRowid tab cur cur' :
  pivotNext tab cur = Some cur' -> iRowid cur' = iRowid cur + 1.
Proof.
  unfold pivotNext. destruct (sqlite3_step (stmt cur)) as [rc' p].
  destruct (negb (rc' =? SQLITE_DONE)).
  - destruct (pivot_key cur); [|discriminate]. now intros [= <-].
  - now intros [= <-].
Qed.

Lemma pivotNext_times_iRowid tab : forall n cur cur',
  pivotNext_times n tab cur = Some cur' -> iRowid cur' = iRowid cur + Z.of_nat n.
Proof.
  induction n as [|n IH]; intros cur cur'; cbn [pivotNext_times].
  - intros [= <-]. lia.
  - destruct (pivotNext tab cur) as [c|] eqn:E; [|discriminate].
    intros H. apply IH in H. apply pivotNext_iRowid in E. lia.
Qed.

Lemma bind_args_NULL : forall argv i, bind_args None i argv = None.
Proof. induction argv as [|v argv IH]; intros i; [reflexivity | apply IH]. Qed.

Lemma pivotNext_unprepared tab cur :
  unprepared tab cur ->
  exists cur', pivotNext tab cur = Some cur' /\ unprepared tab cur'.
Proof.
  intros (Hs & Hr & Hk). unfold pivotNext. rewrite Hs, Hk. cbn [sqlite3_step].
  change (negb (SQLITE_MISUSE =? SQLITE_DONE)) with true. cbn iota.
  eexists. split; [reflexivity|]. repeat split.
Qed.

End Advances.

(** X2.  The rowid of a cursor is the position of its row in the current
    scan: xFilter sets it to 1 and every xNext adds 1, so the row reached
    by [n] calls of xNext has rowid n + 1, whatever the plan and whatever
    the row.  (The counter is a 64-bit integer; no scan comes near its
    range.) *)
Theorem pivotRowid_counts_rows_of_scan
    (tab : pivot_vtab) (cur cur' : pivot_cursor) (idxNum : Z) (idxStr : string)
    (argv : list sqlite3_value) (n : nat) :
  pivotNext_times n tab (pivotFilter tab cur idxNum idxStr argv) = Some cur' ->
  pivotRowid cur' = Z.of_nat n + 1.
Proof.
  intros H. apply pivotNext_times_iRowid in H. unfold pivotRowid. rewrite H.
  unfold pivotFilter. destruct (sqlite3_step _). cbn [iRowid]. lia.
Qed.

(** X3.  xFilter does not examine the result of sqlite3_prepare_v2.  When
    the plan text does not compile the cursor has no statement, every
    step answers SQLITE_MISUSE, which is not SQLITE_DONE: the cursor
    stands on a row whose row-key values are all NULL, xEof answers false,
    and this stays so after any number of calls of xNext.  The scan never
    reaches its end. *)
Theorem pivotFilter_unprepared_scan_never_ends
    (tab : pivot_vtab) (cur : pivot_cursor) (idxNum : Z) (idxStr msg : string)
    (argv : list sqlite3_value) :
  db_compile (db tab) idxStr = inl msg ->
  forall n, exists cur',
    pivotNext_times n tab (pivotFilter tab cur idxNum idxStr argv) = Some cur'
    /\ stmt cur' = None
    /\ fst (pivotEof tab cur') = 0
    /\ key_array cur' = map (fun _ => Some SqlNull) (zrange 0 (nRow_cols tab)).
Proof.
  intros Hc n.
  assert (H0 : unprepared tab (pivotFilter tab cur idxNum idxStr argv)).
  { unfold pivotFilter, sqlite3_prepare_v2. rewrite Hc. cbn [stmt_ptr].
    rewrite bind_args_NULL. cbn [sqlite3_step].
    change (SQLITE_MISUSE =? SQLITE_DONE) with false. cbn iota.
    repeat split. }
  generalize dependent (pivotFilter tab cur idxNum idxStr argv).
  induction n as [|n IH]; intros c Hu.
  - exists c. destruct Hu as (Hs & Hr & Hk). cbn [pivotNext_times].
    unfold pivotEof, key_array. rewrite Hr, Hk. repeat split; assumption.
  - destruct (pivotNext_unprepared tab c Hu) as (c1 & E & Hu1).
    cbn [pivotNext_times]. rewrite E. apply IH, Hu1.
Qed.

(* ================================================================== *)
(** * Column reads on a created table *)
(* ================================================================== *)

Section ColumnReads.

Import Schema.

Lemma znth_None {A} (a : list A) i :
  i < 0 \/ Z.of_nat (List.length a) <= i -> znth a i = None.
Proof.
  intros H. unfold znth. destruct (Z.ltb_spec i 0); [reflexivity|].
  apply nth_error_None. lia.
Qed.

Lemma zset_same {A} (a : list A) i x : znth a i = Some x -> zset a i x = a.
Proof.
  unfold znth, zset. destruct (Z.ltb_spec i 0); [discriminate|].
  generalize (Z.to_nat i). clear. intros n. revert n.
  induction a as [|y a IH]; intros [|n]; cbn [nth_error set_nth]; try discriminate.
  - now intros [= ->].
  - intros H. now rewrite IH.
Qed.

Lemma binding_length pp k : List.length (st_binds (binding pp k)) = prog_nparams pp.
Proof.
  unfold binding, idle_stmt. cbn [st_binds]. now rewrite zset_length, repeat_length.
Qed.

(** Entry [j] of the column statements of a created table. *)
Lemma znth_bindings pp cp j :
  0 <= j < Z.of_nat (List.length (rows_of cp)) ->
  exists r, nth_error (rows_of cp) (Z.to_nat j) = Some r
            /\ znth (bindings pp cp) j = Some (Some (binding pp (cell r 0))).
Proof.
  intros Hj. unfold bindings, znth. destruct (Z.ltb_spec j 0); [lia|].
  rewrite nth_error_map.
  destruct (nth_error (rows_of cp) (Z.to_nat j)) as [r|] eqn:E.
  - exists r. auto.
  - apply nth_error_None in E. lia.
Qed.

End ColumnReads.

(** X4.  On a created table and a cursor that stands on a row, xColumn is
    defined exactly for the declared columns: for a column index from 0 to
    nRow_cols + nCol_key - 1 it answers a value; for any other index it
    reads outside the cursor's key array or outside the array of column
    statements. *)
Theorem pivotColumn_defined_on_declared_columns
    (db0 : sqlite3) (argv : list string) (tab : pivot_vtab) (schema : string)
    (cur : pivot_cursor) (key : row) (i : Z) :
  pivotConnect db0 argv = Connected tab schema ->
  pivot_key cur = Some (map Some key) ->
  Z.of_nat (List.length key) = nRow_cols tab ->
  (pivotColumn tab cur i <> None <-> 0 <= i < nRow_cols tab + nCol_key tab).
Proof.
  intros Hconn Hk Hl.
  destruct (pivotConnect_Connected _ _ _ _ Hconn)
    as (kp & cp & pp & _ & _ & _ & _ & _ & Hkey & Hle & Hnk & Hstmts & _).
  split.
  - intros Hdef.
    destruct (Z.ltb_spec i 0) as [Hneg|Hpos].
    + exfalso. apply Hdef. unfold pivotColumn, key_array.
      destruct (Z.ltb_spec i (nRow_cols tab)); [|lia].
      rewrite Hk, znth_None; [reflexivity | now left].
    + split; [assumption|].
      destruct (Z.ltb_spec i (nRow_cols tab + nCol_key tab)) as [|Hout]; [assumption|].
      exfalso. apply Hdef. unfold pivotColumn.
      destruct (Z.ltb_spec i (nRow_cols tab)); [lia|].
      rewrite znth_None; [reflexivity|].
      right. rewrite Hstmts. unfold Schema.bindings. rewrite length_map. lia.
  - intros Hi. destruct (Z.ltb_spec i (nRow_cols tab)) as [Hlt|Hge].
    + destruct (znth_map_Some key i ltac:(lia)) as (v & _ & Hv).
      now rewrite (pivotColumn_key tab cur key i v Hk ltac:(lia) Hv).
    + destruct (znth_bindings pp cp (i - nRow_cols tab) ltac:(lia)) as (r & _ & Hz).
      rewrite <- Hstmts in Hz.
      rewrite (pivotColumn_cell tab cur key i pp _ Hk Hge Hz); [discriminate | lia |].
      pose proof (binding_length pp (Schema.cell r 0)) as Hb. unfold Schema.binding, idle_stmt in Hb.
      cbn [st_binds] in Hb. rewrite Hb. lia.
Qed.

(** X5.  A pivot query without parameter is accepted by creation
    (nRow_key is -1).  No value is then bound by a cell lookup, the column
    key is bound nowhere either, and every pivot column of every row
    answers the same value: the first value the pivot query yields.  The
    lookup leaves the table object as it was. *)
Theorem pivotColumn_without_parameters
    (db0 : sqlite3) (argv : list string) (tab : pivot_vtab) (schema : string)
    (kp cp pp : program) (cur : pivot_cursor) (key : row) (i : Z) :
  pivotConnect db0 argv = Connected tab schema ->
  Schema.queries db0 argv kp cp pp ->
  prog_nparams pp = 0%nat ->
  pivot_key cur = Some (map Some key) ->
  nRow_cols tab <= i < nRow_cols tab + nCol_key tab ->
  pivotColumn tab cur i = Some (tab, first_value (prog_run pp [])).
Proof.
  intros Hconn Hq Hp Hk Hi.
  destruct (pivotConnect_Connected _ _ _ _ Hconn)
    as (kp' & cp' & pp' & Hq' & _ & _ & _ & _ & Hkey & Hle & Hnk & Hstmts & _).
  destruct (queries_unique _ _ _ _ _ _ _ _ Hq Hq') as (-> & -> & ->).
  destruct (znth_bindings pp cp (i - nRow_cols tab) ltac:(lia)) as (r & _ & Hz).
  rewrite <- Hstmts in Hz.
  assert (Hb : Schema.binding pp (Schema.cell r 0) = idle_stmt pp []).
  { unfold Schema.binding. now rewrite Hp. }
  rewrite Hb in Hz. rewrite Hp in Hkey. cbn in Hkey.
  rewrite (pivotColumn_cell tab cur key i pp [] Hk (proj1 Hi) Hz); [|lia|cbn; lia].
  rewrite Hkey. cbn [Z.to_nat firstn skipn app].
  unfold with_col_stmt. rewrite (zset_same _ _ _ Hz). now rewrite set_col_stmt_same.
Qed.

(* ================================================================== *)
(** * What the uniqueness validation covers *)
(* ================================================================== *)

Section Uniqueness.

Import Schema.

Lemma first_hit_None {A E} (f : A -> option E) l :
  first_hit f l = None -> forall x, In x l -> f x = None.
Proof.
  induction l as [|y l IH]; cbn [first_hit]; intros H x Hx; [contradiction|].
  destruct (f y) eqn:Ey; [discriminate|].
  destruct Hx as [<-|Hx]; [assumption | now apply IH].
Qed.

Lemma in_zrange_iff k lo hi : In k (zrange lo hi) <-> lo <= k < hi.
Proof.
  split; [apply in_zrange|]. intros H. unfold zrange. apply in_map_iff.
  exists (Z.to_nat (k - lo)). split; [lia|]. apply in_seq. lia.
Qed.

Lemma cell_nth (r : row) (c : nat) : cell r (Z.of_nat c) = nth c r SqlNull.
Proof.
  unfold cell. rewrite nth_error_znth. revert c.
  induction r as [|v r IH]; intros [|c]; cbn [nth_error nth]; try reflexivity. apply IH.
Qed.

(** The text cells of one row of a two-column result. *)
Lemma row_cells_two (r : row) :
  map value_text (row_cells 2 r) = [value_text (cell r 0); value_text (cell r 1)].
Proof.
  unfold row_cells. cbn [seq map].
  now rewrite <- (cell_nth r 0), <- (cell_nth r 1).
Qed.

(** Where the cells of data row [i] (counted from 0) stand in the array
    of sqlite3_get_table, after the two column names. *)
Lemma azData_cells (hdr : list (option string)) (rows : list row) : forall i r,
  List.length hdr = 2%nat ->
  nth_error rows i = Some r ->
  let az := hdr ++ flat_map (fun r => map value_text (row_cells 2 r)) rows in
  znth az ((Z.of_nat i + 1) * 2) = Some (value_text (cell r 0))
  /\ znth az ((Z.of_nat i + 1) * 2 + 1) = Some (value_text (cell r 1)).
Proof.
  intros i r Hh Hr az.
  assert (H : forall rows i r, nth_error rows i = Some r ->
            nth_error (flat_map (fun r => map value_text (row_cells 2 r)) rows) (2 * i)
            = Some (value_text (cell r 0))
            /\ nth_error (flat_map (fun r => map value_text (row_cells 2 r)) rows) (2 * i + 1)
               = Some (value_text (cell r 1))).
  { clear. induction rows as [|r0 rows IH]; intros [|i] r H; try discriminate.
    - injection H as ->. cbn [flat_map]. rewrite row_cells_two. split; reflexivity.
    - cbn [flat_map]. rewrite row_cells_two.
      replace (2 * S i)%nat with (S (S (2 * i))) by lia.
      cbn [app nth_error Nat.add]. apply (IH i r H). }
  destruct (H rows i r Hr) as [H0 H1]. subst az.
  destruct hdr as [|a [|b [|]]]; try discriminate.
  replace ((Z.of_nat i + 1) * 2) with (Z.of_nat (S (S (2 * i)))) by lia.
  replace (Z.of_nat (S (S (2 * i))) + 1) with (Z.of_nat (S (S (2 * i + 1)))) by lia.
  rewrite !nth_error_znth. cbn [app nth_error]. now split.
Qed.

(** The table sqlite3_get_table reads from a two-column query with at
    least one row whose run completes. *)
Lemma sqlite3_get_table_rows db0 sql cp r0 rows :
  db_compile db0 sql = inr cp ->
  Scan.completes cp ->
  List.length (prog_columns cp) = 2%nat ->
  rows_of cp = r0 :: rows ->
  sqlite3_get_table db0 sql
  = inr {| azData := map Some (prog_columns cp)
                       ++ flat_map (fun r => map value_text (row_cells 2 r)) (r0 :: rows);
           nRow := Z.of_nat (List.length (r0 :: rows));
           nCol := 2 |}.
Proof.
  intros Hc He H2 Hr. unfold sqlite3_get_table. rewrite Hc.
  unfold Scan.completes in He. rewrite He.
  unfold rows_of in Hr. rewrite Hr, H2. reflexivity.
Qed.

(** sqlite3_get_table succeeds only on a query whose run completes. *)
Lemma sqlite3_get_table_completes db0 sql cp t :
  db_compile db0 sql = inr cp ->
  sqlite3_get_table db0 sql = inr t ->
  Scan.completes cp.
Proof.
  intros Hc. unfold sqlite3_get_table, Scan.completes. rewrite Hc.
  destruct (prog_end cp _); [reflexivity | discriminate].
Qed.

(** A creation that succeeds has passed the uniqueness validation. *)
Lemma pivotConnect_Connected_checked db0 argv tab schema :
  pivotConnect db0 argv = Connected tab schema ->
  exists argv4 cp t,
    znth argv 4 = Some argv4
    /\ db_compile db0 (select_from argv4) = inr cp
    /\ List.length (prog_columns cp) = 2%nat
    /\ sqlite3_get_table db0 (select_from argv4) = inr t
    /\ connect_check_unique t = None.
Proof.
  unfold pivotConnect.
  destruct (znth argv 3) as [argv3|]; [|discriminate].
  destruct (sqlite3_prepare_v2 db0 (select_from argv3)) as [msg|kq]; [discriminate|].
  destruct (connect_key_names _ _ _) as [names sql0].
  destruct (znth argv 5) as [argv5|]; [|discriminate].
  destruct (sqlite3_prepare_v2 db0 (select_from argv5)) as [msg|pq]; [discriminate|].
  destruct (_ <? _); [discriminate|].
  destruct (znth argv 4) as [argv4|]; [|discriminate].
  unfold sqlite3_prepare_v2 at 1.
  destruct (db_compile db0 (select_from argv4)) as [msg|cp] eqn:Cc; [discriminate|].
  unfold sqlite3_column_count. cbn [st_prog].
  destruct (Z.eqb_spec (Z.of_nat (List.length (prog_columns cp))) 2) as [H2|];
    [|discriminate]. cbn [negb].
  destruct (sqlite3_get_table db0 (select_from argv4)) as [msg|t] eqn:Et; [discriminate|].
  destruct (connect_check_unique t) as [r|] eqn:U.
  { intros ->. apply connect_check_unique_result in U as [U|[[k U]|[n U]]]; discriminate. }
  intros _. exists argv4, cp, t. repeat split; try assumption; try reflexivity. lia.
Qed.

Lemma strcmp_refl s : strcmp s s = 0.
Proof.
  unfold strcmp. replace (String.compare s s) with Eq; [reflexivity|].
  symmetry. induction s as [|c s IH]; cbn [String.compare]; [reflexivity|].
  replace (Ascii.compare c c) with Eq; [exact IH|].
  symmetry. unfold Ascii.compare. apply N.compare_refl.
Qed.

End Uniqueness.

(** X6.  What the uniqueness validation guarantees.  On a created table,
    any two rows of the column-definition query other than its last row
    have column keys that are not NULL and differ as strings, and display
    names that differ under sqlite3_stricmp.  The last row has been
    compared with no other row. *)
Theorem pivotConnect_unique_before_last_row
    (db0 : sqlite3) (argv : list string) (tab : pivot_vtab) (schema : string)
    (kp cp pp : program) (i j : nat) (ri rj : row) :
  pivotConnect db0 argv = Connected tab schema ->
  Schema.queries db0 argv kp cp pp ->
  (i < j)%nat ->
  (S j < List.length (Schema.rows_of cp))%nat ->
  nth_error (Schema.rows_of cp) i = Some ri ->
  nth_error (Schema.rows_of cp) j = Some rj ->
  exists ki kj,
    value_text (Schema.cell ri 0) = Some ki
    /\ value_text (Schema.cell rj 0) = Some kj
    /\ ki <> kj
    /\ sqlite3_stricmp (value_text (Schema.cell ri 1)) (value_text (Schema.cell rj 1)) <> 0.
Proof.
  intros Hconn (a3 & a4 & a5 & _ & A4 & _ & _ & Cc & _) Hij Hj Hri Hrj.
  destruct (pivotConnect_Connected_checked _ _ _ _ Hconn)
    as (a4' & cp' & t & A4' & Cc' & H2 & Ht & Hu).
  rewrite A4 in A4'. injection A4' as <-. rewrite Cc in Cc'. injection Cc' as <-.
  destruct (Schema.rows_of cp) as [|r0 rows] eqn:Er; [destruct i; discriminate|].
  pose proof (sqlite3_get_table_completes _ _ _ _ Cc Ht) as He.
  rewrite (sqlite3_get_table_rows _ _ _ _ _ Cc He H2 Er) in Ht.
  match type of Ht with inr ?x = _ => assert (Et : t = x) by congruence end.
  subst t. clear Ht.
  set (n := List.length (r0 :: rows)) in *.
  revert Hu. unfold connect_check_unique. cbn [nRow].
  destruct (Z.ltb_spec 1 (Z.of_nat n)); [|lia]. intros Hu.
  pose proof (first_hit_None _ _ Hu (Z.of_nat i + 1)) as Hu1. cbv beta in Hu1.
  rewrite in_zrange_iff in Hu1. specialize (Hu1 ltac:(lia)).
  pose proof (first_hit_None _ _ Hu1 (Z.of_nat j + 1)) as Hu2. cbv beta in Hu2.
  rewrite in_zrange_iff in Hu2. specialize (Hu2 ltac:(lia)).
  revert Hu2. unfold connect_check_pair. cbn [azData nCol].
  destruct (azData_cells (map Some (prog_columns cp)) (r0 :: rows) i ri) as [-> ->];
    [now rewrite length_map | exact Hri |].
  destruct (azData_cells (map Some (prog_columns cp)) (r0 :: rows) j rj) as [-> ->];
    [now rewrite length_map | exact Hrj |].
  destruct (value_text (Schema.cell ri 0)) as [ki|]; [|discriminate].
  destruct (value_text (Schema.cell rj 0)) as [kj|]; [|discriminate].
  destruct (Z.eqb_spec (strcmp ki kj) 0) as [|Hk]; [discriminate|].
  destruct (Z.eqb_spec (sqlite3_stricmp (value_text (Schema.cell ri 1))
                          (value_text (Schema.cell rj 1))) 0) as [|Hn]; [discriminate|].
  intros _. exists ki, kj. repeat split; try assumption.
  intros ->. apply Hk, strcmp_refl.
Qed.

(** X7.  The column keys are compared with strcmp, which must not be
    given a NULL pointer, and sqlite3_get_table hands out NULL for a NULL
    value.  When the column-definition query yields three rows or more and
    the column key of its first or second row is NULL, the first
    comparison of the uniqueness validation passes NULL to strcmp: the
    outcome of creation is undefined.  (A column-definition query whose
    run fails after these rows does not reach the comparison:
    sqlite3_get_table fails and creation ends with the engine's message.) *)
Theorem pivotConnect_null_column_key_undefined
    (db0 : sqlite3) (argv : list string) (kp cp pp : program)
    (r1 r2 r3 : row) (rest : list row) :
  Schema.queries db0 argv kp cp pp ->
  Z.of_nat (prog_nparams pp) - 1 <= Z.of_nat (List.length (prog_columns kp)) ->
  List.length (prog_columns cp) = 2%nat ->
  Schema.rows_of cp = r1 :: r2 :: r3 :: rest ->
  Schema.cell r1 0 = SqlNull \/ Schema.cell r2 0 = SqlNull ->
  pivotConnect db0 argv
  = match prog_end cp (repeat SqlNull (prog_nparams cp)) with
    | Completes => ConnectUndefined
    | Fails e => ConnectError (Err.message e)
    end.
Proof.
  intros (a3 & a4 & a5 & A3 & A4 & A5 & Ck & Cc & Cp) Hp H2 Er Hnull.
  unfold pivotConnect. rewrite A3. unfold sqlite3_prepare_v2 at 1. rewrite Ck.
  destruct (connect_key_names _ _ _) as [names sql0].
  rewrite A5. unfold sqlite3_prepare_v2 at 1. rewrite Cp.
  unfold sqlite3_bind_parameter_count, sqlite3_column_count at 1. cbn [st_prog].
  destruct (Z.ltb_spec (Z.of_nat (List.length (prog_columns kp)))
              (Z.of_nat (prog_nparams pp) - 1)); [lia|].
  rewrite A4. unfold sqlite3_prepare_v2 at 1. rewrite Cc.
  unfold sqlite3_column_count. cbn [st_prog]. rewrite H2.
  change (negb (Z.of_nat 2 =? 2)) with false. cbn iota.
  destruct (prog_end cp (repeat SqlNull (prog_nparams cp))) as [|e] eqn:He.
  2:{ pose proof (sqlite3_get_table_compiled _ _ _ Cc) as Ht. rewrite He in Ht.
      now rewrite Ht. }
  rewrite (sqlite3_get_table_rows _ _ _ _ _ Cc He H2 Er).
  set (t := {| azData := _ |}).
  assert (Hu : connect_check_unique t = Some ConnectUndefined).
  { unfold connect_check_unique. subst t. cbn [nRow].
    destruct (Z.ltb_spec 1 (Z.of_nat (List.length (r1 :: r2 :: r3 :: rest))));
      [|cbn [List.length] in *; lia].
    rewrite (zrange_cons 1) by (cbn [List.length]; lia). cbn [first_hit].
    rewrite (zrange_cons (1 + 1)) by (cbn [List.length]; lia). cbn [first_hit].
    unfold connect_check_pair. cbn [azData nCol].
    destruct (azData_cells (map Some (prog_columns cp)) (r1 :: r2 :: r3 :: rest) 0 r1)
      as [E1 _]; [now rewrite length_map | reflexivity |].
    destruct (azData_cells (map Some (prog_columns cp)) (r1 :: r2 :: r3 :: rest) 1 r2)
      as [E2 _]; [now rewrite length_map | reflexivity |].
    change ((Z.of_nat 0 + 1) * 2) with (1 * 2) in E1.
    change ((Z.of_nat 1 + 1) * 2) with ((1 + 1) * 2) in E2.
    rewrite E1, E2.
    destruct Hnull as [-> | ->]; cbn [value_text];
      [reflexivity | destruct (value_text (Schema.cell r1 0)); reflexivity]. }
  now rewrite Hu.
Qed.
(* ================================================================== *)
(** * Scans under a plan, and scans one after the other *)
(* ================================================================== *)

Section PlannedScan.

Import Schema Scan.

Lemma bind_args_past_end fp : forall argv binds i,
  Z.of_nat (List.length binds) <= i ->
  bind_args (Some (idle_stmt fp binds)) i argv = Some (idle_stmt fp binds).
Proof.
  induction argv as [|v argv IH]; intros binds i Hi; cbn [bind_args]; [reflexivity|].
  unfold sqlite3_bind_value at 1. cbn [idle_stmt st_state st_binds st_prog].
  destruct (Z.leb_spec (i + 1) (Z.of_nat (List.length binds))); [lia|].
  rewrite andb_false_r. apply (IH binds). lia.
Qed.

(** The binding loop of xFilter on a fresh statement: the slots take the
    values in order, as far as there are slots and values. *)
Lemma bind_args_idle fp : forall argv pre rest,
  bind_args (Some (idle_stmt fp (pre ++ rest))) (Z.of_nat (List.length pre)) argv
  = Some (idle_stmt fp
            (pre ++ firstn (List.length rest) argv ++ skipn (List.length argv) rest)).
Proof.
  induction argv as [|v argv IH]; intros pre rest.
  - cbn [bind_args List.length skipn firstn]. now rewrite firstn_nil.
  - destruct rest as [|x rest].
    + rewrite bind_args_past_end by (rewrite app_nil_r; lia). reflexivity.
    + cbn [bind_args]. unfold sqlite3_bind_value at 1.
      cbn [idle_stmt st_state st_binds st_prog]. rewrite length_app. cbn [List.length].
      destruct (Z.leb_spec 1 (Z.of_nat (List.length pre) + 1)); [|lia].
      destruct (Z.leb_spec (Z.of_nat (List.length pre) + 1)
                  (Z.of_nat (List.length pre + S (List.length rest)))); [|lia].
      cbn [andb].
      replace (Z.of_nat (List.length pre) + 1 - 1) with (Z.of_nat (List.length pre)) by lia.
      rewrite zset_middle.
      replace (Z.of_nat (List.length pre) + 1) with (Z.of_nat (List.length (pre ++ [v])))
        by (rewrite length_app; cbn [List.length]; lia).
      replace (pre ++ v :: rest) with ((pre ++ [v]) ++ rest) by now rewrite <- app_assoc.
      fold (idle_stmt fp ((pre ++ [v]) ++ rest)).
      rewrite IH. cbn [firstn skipn]. now rewrite <- app_assoc.
Qed.

Lemma skipn_repeat {A} (x : A) : forall n k, skipn k (repeat x n) = repeat x (n - k).
Proof.
  induction n as [|n IH]; intros [|k]; cbn [repeat skipn Nat.sub]; try reflexivity.
  apply IH.
Qed.

Lemma bind_args_fresh fp vals :
  bind_args (Some (idle_stmt fp (repeat SqlNull (prog_nparams fp)))) 0 vals
  = Some (idle_stmt fp (filter_binds fp vals)).
Proof.
  pose proof (bind_args_idle fp vals [] (repeat SqlNull (prog_nparams fp))) as H.
  cbn [app List.length] in H. change (Z.of_nat 0) with 0 in H.
  rewrite H, repeat_length, skipn_repeat. reflexivity.
Qed.

(** The scan loop from a cursor that stands on a row, with the state in
    which it leaves the column statements: idle, bound to the key values
    of the last row, the later parameters as before. *)
Lemma scan_loop_state tab0 pp : forall rest r fuel bl cur,
  positioned cur r rest ->
  Forall (fun r' => Z.of_nat (List.length r') = nRow_cols tab0) (r :: rest) ->
  nRow_key tab0 <= nRow_cols tab0 ->
  nCol_key tab0 = Z.of_nat (List.length bl) ->
  Forall (fun b => nRow_key tab0 <= Z.of_nat (List.length b)) bl ->
  (S (List.length rest) < fuel)%nat ->
  let n := Z.to_nat (nRow_key tab0) in
  exists bl' cur',
    scan_loop fuel (nRow_cols tab0 + nCol_key tab0)
      (set_col_stmt tab0 (map (fun b => Some (idle_stmt pp b)) bl)) cur
    = Some (set_col_stmt tab0 (map (fun b => Some (idle_stmt pp b)) bl'), cur',
            map (scanned_row pp n (map (skipn n) bl)) (r :: rest))
    /\ map (skipn n) bl' = map (skipn n) bl
    /\ List.length bl' = List.length bl
    /\ Forall (fun b => nRow_key tab0 <= Z.of_nat (List.length b)) bl'
    /\ stmt cur' = None.
Proof.
  intros rest. induction rest as [|r2 rest IH];
    intros r fuel bl cur (Hrc & Hkey & st & Hst & Hpend & Hend) Hwf Hn Hc Hf Hfuel n;
    inversion Hwf as [|r0 l0 Hr Hwf']; subst r0 l0;
    (destruct fuel as [|fuel]; [lia|]);
    cbn [scan_loop]; unfold pivotEof; rewrite Hrc;
    change (SQLITE_ROW =? SQLITE_DONE) with false; cbn iota;
    change (negb (0 =? 0)) with false; cbn iota;
    rewrite (read_row tab0 cur r pp bl Hkey Hr Hn Hc Hf); fold n;
    unfold pivotNext; rewrite Hkey, Hst; unfold sqlite3_step; rewrite Hpend;
    assert (Hn' : (n <= List.length r)%nat) by lia.
  - rewrite Hend. cbn [end_code].
    change (negb (SQLITE_DONE =? SQLITE_DONE)) with false. cbn iota.
    destruct fuel as [|fuel]; [simpl in Hfuel; lia|].
    cbn [scan_loop]. unfold pivotEof. cbn [rc].
    change (SQLITE_DONE =? SQLITE_DONE) with true. cbn iota.
    change (negb (1 =? 0)) with true. cbn iota.
    eexists _, _. split; [reflexivity|].
    split; [now apply rebind_tails|]. split; [now rewrite length_map|].
    split; [now apply rebind_lengths | reflexivity].
  - change (negb (SQLITE_ROW =? SQLITE_DONE)) with true. cbn iota.
    inversion Hwf' as [|r0 l0 Hr2 Hwf'']; subst r0 l0.
    match goal with |- context [scan_loop fuel _ _ ?c] =>
      destruct (IH r2 fuel (map (fun b => firstn n r ++ skipn n b) bl) c)
        as (bl' & cur' & E & Ht & Hl & Hf' & Hs)
    end.
    + split; [reflexivity|]. split.
      * cbn [pivot_key]. apply f_equal.
        apply (copy_row_key_current _ _ r2 rest); [reflexivity | exact Hr2].
      * eexists. split; [reflexivity|]. split; [reflexivity | exact Hend].
    + exact Hwf'.
    + exact Hn.
    + now rewrite length_map.
    + apply rebind_lengths; assumption.
    + simpl in Hfuel. lia.
    + fold n in E, Ht. rewrite rebind_tails in E, Ht by exact Hn'.
      rewrite length_map in Hl.
      rewrite E. exists bl', cur'. repeat split; assumption.
Qed.

(** xFilter on a plan text that compiles to a program whose run
    completes, then the scan loop. *)
Lemma filter_scan_state tab0 pp fp bl sql idx vals fuel :
  db_compile (db tab0) sql = inr fp ->
  prog_end fp (filter_binds fp vals) = Completes ->
  Forall (fun r => Z.of_nat (List.length r) = nRow_cols tab0)
    (prog_run fp (filter_binds fp vals)) ->
  nRow_key tab0 <= nRow_cols tab0 ->
  nCol_key tab0 = Z.of_nat (List.length bl) ->
  Forall (fun b => nRow_key tab0 <= Z.of_nat (List.length b)) bl ->
  (List.length (prog_run fp (filter_binds fp vals)) < fuel)%nat ->
  let n := Z.to_nat (nRow_key tab0) in
  let tab := set_col_stmt tab0 (map (fun b => Some (idle_stmt pp b)) bl) in
  exists bl' cur',
    scan_loop fuel (nRow_cols tab0 + nCol_key tab0) tab
      (pivotFilter tab pivotOpen idx sql vals)
    = Some (set_col_stmt tab0 (map (fun b => Some (idle_stmt pp b)) bl'), cur',
            map (scanned_row pp n (map (skipn n) bl)) (prog_run fp (filter_binds fp vals)))
    /\ map (skipn n) bl' = map (skipn n) bl
    /\ List.length bl' = List.length bl
    /\ Forall (fun b => nRow_key tab0 <= Z.of_nat (List.length b)) bl'
    /\ stmt cur' = None.
Proof.
  intros Hc Hend Hwf Hn Hk Hf Hfuel n tab.
  unfold pivotFilter, sqlite3_prepare_v2. subst tab. cbn [db set_col_stmt].
  rewrite Hc. cbn [stmt_ptr].
  fold (idle_stmt fp (repeat SqlNull (prog_nparams fp))). rewrite bind_args_fresh.
  unfold sqlite3_step, stmt_pending, stmt_end, idle_stmt.
  cbn [st_state st_prog st_binds]. rewrite Hend. cbn [end_code].
  revert Hwf Hfuel.
  destruct (prog_run fp (filter_binds fp vals)) as [|r rest]; intros Hwf Hfuel.
  - change (SQLITE_DONE =? SQLITE_DONE) with true. cbn iota.
    destruct fuel as [|fuel]; [simpl in Hfuel; lia|].
    cbn [scan_loop]. unfold pivotEof. cbn [rc].
    change (SQLITE_DONE =? SQLITE_DONE) with true. cbn iota.
    change (negb (1 =? 0)) with true. cbn iota.
    exists bl. eexists. repeat split; try reflexivity. exact Hf.
  - change (SQLITE_ROW =? SQLITE_DONE) with false. cbn iota.
    match goal with |- context [scan_loop fuel _ _ ?c] =>
      destruct (scan_loop_state tab0 pp rest r fuel bl c)
        as (bl' & cur' & E & Ht & Hl & Hf' & Hs)
    end; try assumption.
    + split; [reflexivity|]. split.
      * cbn [pivot_key]. apply f_equal.
        apply (copy_row_key_current _ _ r rest); [reflexivity|].
        now inversion Hwf.
      * eexists. split; [reflexivity|]. split; [reflexivity | exact Hend].
    + exists bl', cur'. repeat split; assumption.
Qed.

(** xFilter on a plan text that compiles to a program whose run fails:
    the scan loop never ends. *)
Lemma filter_scan_never_ends tab fp sql idx vals e ncol fuel :
  db_compile (db tab) sql = inr fp ->
  prog_end fp (filter_binds fp vals) = Fails e ->
  scan_loop fuel ncol tab (pivotFilter tab pivotOpen idx sql vals) = None.
Proof.
  intros Hc Hend.
  unfold pivotFilter, sqlite3_prepare_v2. rewrite Hc. cbn [stmt_ptr].
  fold (idle_stmt fp (repeat SqlNull (prog_nparams fp))). rewrite bind_args_fresh.
  unfold sqlite3_step, stmt_pending, stmt_end, idle_stmt.
  cbn [st_state st_prog st_binds]. rewrite Hend.
  destruct (prog_run fp (filter_binds fp vals)) as [|r rest].
  - rewrite end_code_fails.
    eapply scan_loop_never_ends; cbn [stmt rc]; [reflexivity | | ].
    + unfold stmt_end. cbn [st_prog st_binds]. rewrite Hend. discriminate.
    + intros H. apply end_code_DONE in H. discriminate.
  - change (SQLITE_ROW =? SQLITE_DONE) with false. cbn iota.
    eapply scan_loop_never_ends; cbn [stmt rc]; [reflexivity | | discriminate].
    unfold stmt_end. cbn [st_prog st_binds]. rewrite Hend. discriminate.
Qed.

End PlannedScan.

Section PlannedScanSpec.

Import Schema Scan.

(** The scan of a table object with idle column statements, under the
    plan of a request that keeps what the planner reads off the rowid,
    when the plan text compiles to a program whose run completes. *)
Lemma planned_scan_state tab0 pp fp bl cs obs vals fuel :
  Plan.names_wf tab0 ->
  Plan.off_rowid tab0 cs obs ->
  db_compile (db tab0) (plan_text tab0 cs obs) = inr fp ->
  prog_end fp (filter_binds fp vals) = Completes ->
  Forall (fun r => Z.of_nat (List.length r) = nRow_cols tab0)
    (prog_run fp (filter_binds fp vals)) ->
  nRow_key tab0 <= nRow_cols tab0 ->
  nCol_key tab0 = Z.of_nat (List.length bl) ->
  Forall (fun b => nRow_key tab0 <= Z.of_nat (List.length b)) bl ->
  (List.length (prog_run fp (filter_binds fp vals)) < fuel)%nat ->
  let n := Z.to_nat (nRow_key tab0) in
  exists bl' cur',
    scan fuel (nRow_cols tab0 + nCol_key tab0)
      (set_col_stmt tab0 (map (fun b => Some (idle_stmt pp b)) bl)) cs obs vals
    = Some (set_col_stmt tab0 (map (fun b => Some (idle_stmt pp b)) bl'), cur',
            map (scanned_row pp n (map (skipn n) bl)) (prog_run fp (filter_binds fp vals)))
    /\ map (skipn n) bl' = map (skipn n) bl
    /\ List.length bl' = List.length bl
    /\ Forall (fun b => nRow_key tab0 <= Z.of_nat (List.length b)) bl'
    /\ stmt cur' = None.
Proof.
  intros Hw Hd Hc Hend Hwf Hn Hk Hf Hfuel n.
  set (tab := set_col_stmt tab0 (map (fun b => Some (idle_stmt pp b)) bl)).
  destruct (pivotBestIndex_defined tab cs obs Hw Hd) as [info E].
  destruct (pivotBestIndex_spec _ _ _ _ _ E) as (_ & _ & Hs & _).
  unfold scan. rewrite E, Hs.
  change (key_sql_full_table_scan tab +++ Plan.where_clause tab cs +++ Plan.order_clause tab obs)
    with (plan_text tab0 cs obs).
  apply (filter_scan_state tab0 pp fp bl); assumption.
Qed.

(** The column statements of a created table, as a scan wants them. *)
Lemma connected_bindings db0 argv tab schema kp cp pp :
  pivotConnect db0 argv = Connected tab schema ->
  queries db0 argv kp cp pp ->
  let n := Z.to_nat (nRow_key tab) in
  exists bl,
    tab = set_col_stmt tab (map (fun b => Some (idle_stmt pp b)) bl)
    /\ db tab = db0
    /\ nRow_cols tab = Z.of_nat (List.length (prog_columns kp))
    /\ nRow_key tab <= nRow_cols tab
    /\ nCol_key tab = Z.of_nat (List.length bl)
    /\ Forall (fun b => nRow_key tab <= Z.of_nat (List.length b)) bl
    /\ forall key, scanned_row pp n (map (skipn n) bl) key = pivot_row cp pp key.
Proof.
  intros Hconn Hq n.
  destruct (pivotConnect_Connected _ _ _ _ Hconn)
    as (kp' & cp' & pp' & Hq' & Hdb & _ & _ & Hcols & Hkey & Hle & Hnk & Hstmts & _).
  destruct (queries_unique _ _ _ _ _ _ _ _ Hq Hq') as (-> & -> & ->).
  exists (map (fun r => zset (repeat SqlNull (prog_nparams pp))
                          (Z.of_nat (prog_nparams pp) - 1) (cell r 0)) (rows_of cp)).
  repeat split; try assumption.
  - rewrite map_map. change (tab = set_col_stmt tab (bindings pp cp)).
    rewrite <- Hstmts. symmetry.
    apply set_col_stmt_same.
  - now rewrite length_map.
  - apply Forall_map, Forall_forall. intros c _. cbv beta.
    rewrite zset_length, repeat_length. lia.
  - intros key. unfold scanned_row, pivot_row. rewrite !map_map. f_equal.
    apply map_ext. intros c. subst n. rewrite Hkey.
    apply (f_equal (fun b => first_value (prog_run pp b))). apply cell_binds_eq.
Qed.

(** The scan under the plan of a request that keeps what the planner
    reads off the rowid never ends when the plan text compiles to a
    program whose run fails. *)
Lemma planned_scan_never_ends tab fp cs obs vals e ncol fuel :
  Plan.names_wf tab ->
  Plan.off_rowid tab cs obs ->
  db_compile (db tab) (plan_text tab cs obs) = inr fp ->
  prog_end fp (filter_binds fp vals) = Fails e ->
  scan fuel ncol tab cs obs vals = None.
Proof.
  intros Hw Hd Hc Hend.
  destruct (pivotBestIndex_defined tab cs obs Hw Hd) as [info E].
  destruct (pivotBestIndex_spec _ _ _ _ _ E) as (_ & _ & Hs & _).
  unfold scan. rewrite E, Hs.
  change (key_sql_full_table_scan tab +++ Plan.where_clause tab cs +++ Plan.order_clause tab obs)
    with (plan_text tab cs obs).
  now apply (filter_scan_never_ends tab fp _ _ vals e).
Qed.

End PlannedScanSpec.

(** X8.  A scan under a plan.  On a created table and a request that
    keeps what the planner reads off the rowid and whose plan text
    compiles, xFilter binds the values of the consumed constraints to the
    parameters of the plan in order.
    When the run of the planned row-key query under these parameters
    completes, the scan reports one pivot row per row the query yields,
    in that query's order, and the cursor ends with its statement
    finalized.  When the run fails, the failing step is taken for a row
    and no step answers SQLITE_DONE: the scan does not end, whatever the
    fuel. *)
Theorem planned_scan_enumerates_pivot_rows
    (db0 : sqlite3) (argv : list string) (tab : pivot_vtab) (schema : string)
    (kp cp pp fp : program) (cs : list Constraint.t) (obs : list OrderBy.t)
    (vals : list sqlite3_value) (fuel : nat) :
  pivotConnect db0 argv = Connected tab schema ->
  Schema.queries db0 argv kp cp pp ->
  Plan.off_rowid tab cs obs ->
  db_compile db0 (plan_text tab cs obs) = inr fp ->
  Forall (fun r => List.length r = List.length (prog_columns kp))
    (prog_run fp (filter_binds fp vals)) ->
  (List.length (prog_run fp (filter_binds fp vals)) < fuel)%nat ->
  match prog_end fp (filter_binds fp vals) with
  | Completes =>
      exists tab' cur',
        scan fuel (nRow_cols tab + nCol_key tab) tab cs obs vals
        = Some (tab', cur', map (Scan.pivot_row cp pp) (prog_run fp (filter_binds fp vals)))
        /\ stmt cur' = None
  | Fails _ =>
      forall fuel', scan fuel' (nRow_cols tab + nCol_key tab) tab cs obs vals = None
  end.
Proof.
  intros Hconn Hq Hd Hc Hwf Hfuel.
  destruct (connected_bindings _ _ _ _ _ _ _ Hconn Hq)
    as (bl & Et & Hdb & Hcols & Hle & Hk & Hf & Hrow).
  pose proof (pivotConnect_names_wf _ _ _ _ Hconn) as Hw.
  destruct (prog_end fp (filter_binds fp vals)) as [|e] eqn:Hend.
  - destruct (planned_scan_state tab pp fp bl cs obs vals fuel)
      as (bl' & cur' & E & _ & _ & _ & Hs); try assumption.
    + now rewrite Hdb.
    + eapply Forall_impl; [|exact Hwf]. intros r Hr. cbv beta in Hr. lia.
    + rewrite <- Et in E.
      exists (set_col_stmt tab (map (fun b => Some (idle_stmt pp b)) bl')), cur'.
      split; [|exact Hs]. rewrite E. do 2 f_equal. apply map_ext, Hrow.
  - intros fuel'. apply (planned_scan_never_ends tab fp cs obs vals e); try assumption.
    now rewrite Hdb.
Qed.

(** X9.  Scans compose.  A scan that ends leaves every column statement
    reset, bound to the row-key values of the last row it read, with its
    column key still in place; the rows of a later scan, under the same
    or another plan whose run completes, are those the later plan yields
    on the table as it was created. *)
Theorem scan_after_scan_enumerates_pivot_rows
    (db0 : sqlite3) (argv : list string) (tab : pivot_vtab) (schema : string)
    (kp cp pp fp1 fp2 : program) (cs1 cs2 : list Constraint.t) (obs1 obs2 : list OrderBy.t)
    (vals1 vals2 : list sqlite3_value) (fuel : nat) :
  pivotConnect db0 argv = Connected tab schema ->
  Schema.queries db0 argv kp cp pp ->
  Plan.off_rowid tab cs1 obs1 ->
  Plan.off_rowid tab cs2 obs2 ->
  db_compile db0 (plan_text tab cs1 obs1) = inr fp1 ->
  db_compile db0 (plan_text tab cs2 obs2) = inr fp2 ->
  prog_end fp1 (filter_binds fp1 vals1) = Completes ->
  prog_end fp2 (filter_binds fp2 vals2) = Completes ->
  Forall (fun r => List.length r = List.length (prog_columns kp))
    (prog_run fp1 (filter_binds fp1 vals1) ++ prog_run fp2 (filter_binds fp2 vals2)) ->
  (List.length (prog_run fp1 (filter_binds fp1 vals1)) < fuel)%nat ->
  (List.length (prog_run fp2 (filter_binds fp2 vals2)) < fuel)%nat ->
  exists tab1 cur1 tab2 cur2,
    scan fuel (nRow_cols tab + nCol_key tab) tab cs1 obs1 vals1
    = Some (tab1, cur1, map (Scan.pivot_row cp pp) (prog_run fp1 (filter_binds fp1 vals1)))
    /\ scan fuel (nRow_cols tab + nCol_key tab) tab1 cs2 obs2 vals2
       = Some (tab2, cur2, map (Scan.pivot_row cp pp) (prog_run fp2 (filter_binds fp2 vals2)))
    /\ Forall (fun p => exists st, p = Some st /\ st_state st = Ready) (col_stmt tab1).
Proof.
  intros Hconn Hq Hd1 Hd2 Hc1 Hc2 He1 He2 Hwf Hfuel1 Hfuel2.
  apply Forall_app in Hwf as [Hwf1 Hwf2].
  destruct (connected_bindings _ _ _ _ _ _ _ Hconn Hq)
    as (bl & Et & Hdb & Hcols & Hle & Hk & Hf & Hrow).
  pose proof (pivotConnect_names_wf _ _ _ _ Hconn) as Hw.
  destruct (planned_scan_state tab pp fp1 bl cs1 obs1 vals1 fuel)
    as (bl1 & cur1 & E1 & Ht1 & Hl1 & Hf1 & _); try assumption.
  { now rewrite Hdb. }
  { eapply Forall_impl; [|exact Hwf1]. intros r Hr. cbv beta in Hr. lia. }
  destruct (planned_scan_state tab pp fp2 bl1 cs2 obs2 vals2 fuel)
    as (bl2 & cur2 & E2 & _ & _ & _ & _); try assumption.
  { now rewrite Hdb. }
  { eapply Forall_impl; [|exact Hwf2]. intros r Hr. cbv beta in Hr. lia. }
  { now rewrite Hl1. }
  rewrite <- Et in E1. rewrite Ht1 in E2.
  eexists _, cur1, _, cur2. split; [|split].
  - rewrite E1. do 2 f_equal. apply map_ext, Hrow.
  - rewrite E2. do 2 f_equal. apply map_ext, Hrow.
  - cbn [set_col_stmt col_stmt]. apply Forall_map, Forall_forall.
    intros b _. exists (idle_stmt pp b). split; reflexivity.
Qed.
(* ================================================================== *)
(** * Ownership of the cursor's key array *)
(* ================================================================== *)

Section Ownership.

Import Schema Scan.

Lemma ledger_plus_0 h : ledger_plus h 0 0 = h.
Proof. destruct h as [b s]. unfold ledger_plus. cbn. now rewrite !Z.add_0_r. Qed.

Lemma ledger_plus_plus h b1 s1 b2 s2 :
  ledger_plus (ledger_plus h b1 s1) b2 s2 = ledger_plus h (b1 + b2) (s1 + s2).
Proof. unfold ledger_plus. cbn. f_equal; lia. Qed.

Lemma taken_plus h : Lifetime.taken h = ledger_plus h 1 0.
Proof. unfold Lifetime.taken, ledger_plus. f_equal. lia. Qed.

Lemma given_back_plus h : Lifetime.given_back h = ledger_plus h (-1) 0.
Proof. unfold Lifetime.given_back, ledger_plus. f_equal; lia. Qed.

Lemma prepared_plus h : Lifetime.prepared h = ledger_plus h 0 1.
Proof. unfold Lifetime.prepared, ledger_plus. f_equal. lia. Qed.

Lemma finalized_plus h : Lifetime.finalized h = ledger_plus h 0 (-1).
Proof. unfold Lifetime.finalized, ledger_plus. f_equal; lia. Qed.

Lemma znth_map {A B} (f : A -> B) (l : list A) i :
  znth (map f l) i = option_map f (znth l i).
Proof. unfold znth. destruct (i <? 0); [reflexivity | apply nth_error_map]. Qed.

(** The loop that frees the values of a key array whose entries all
    point to values. *)
Lemma free_entries_live (clear : bool) : forall (vs : list sqlite3_value) done h,
  Lifetime.for_each
    (zrange (Z.of_nat (List.length done))
       (Z.of_nat (List.length done) + Z.of_nat (List.length vs)))
    (Lifetime.free_entry clear) (Lifetime.Live (done ++ map Lifetime.Live vs), h)
  = Lifetime.Done
      (Lifetime.Live
         (done ++ repeat (if clear then Lifetime.Null else Lifetime.Stale) (List.length vs)),
       ledger_plus h (- Z.of_nat (List.length vs)) 0).
Proof.
  induction vs as [|v vs IH]; intros done h.
  - rewrite zrange_nil by (cbn [List.length]; lia). cbn [Lifetime.for_each map List.length repeat].
    now rewrite ledger_plus_0.
  - rewrite zrange_cons by (cbn [List.length]; lia).
    cbn [Lifetime.for_each map]. unfold Lifetime.free_entry at 1.
    cbn [Lifetime.deref Lifetime.bind]. rewrite znth_middle.
    cbn [Lifetime.sqlite3_free Lifetime.bind Lifetime.released]. rewrite zset_middle.
    specialize (IH (done ++ [if clear then Lifetime.Null else Lifetime.Stale])
                  (Lifetime.given_back h)).
    rewrite length_app in IH. cbn [List.length] in IH.
    replace (Z.of_nat (List.length done + 1)) with (Z.of_nat (List.length done) + 1)
      in IH by lia.
    cbn [List.length].
    replace (Z.of_nat (List.length done) + Z.of_nat (S (List.length vs)))
      with (Z.of_nat (List.length done) + 1 + Z.of_nat (List.length vs)) by lia.
    rewrite <- !app_assoc in IH. cbn [app] in IH.
    rewrite IH, given_back_plus, ledger_plus_plus. cbn [repeat].
    do 3 f_equal. lia.
Qed.

(** The same loop on entries that are all NULL: nothing is released. *)
Lemma free_entries_null (clear : bool) : forall (k : nat) done h,
  Lifetime.for_each
    (zrange (Z.of_nat (List.length done)) (Z.of_nat (List.length done) + Z.of_nat k))
    (Lifetime.free_entry clear)
    (Lifetime.Live (done ++ repeat (@Lifetime.Null sqlite3_value) k), h)
  = Lifetime.Done (Lifetime.Live (done ++ repeat Lifetime.Null k), h).
Proof.
  induction k as [|k IH]; intros done h.
  - rewrite zrange_nil by lia. reflexivity.
  - rewrite zrange_cons by lia.
    cbn [Lifetime.for_each repeat]. unfold Lifetime.free_entry at 1.
    cbn [Lifetime.deref Lifetime.bind]. rewrite znth_middle.
    cbn [Lifetime.sqlite3_free Lifetime.bind Lifetime.released]. rewrite zset_middle.
    replace (if clear then Lifetime.Null else Lifetime.Null)
      with (@Lifetime.Null sqlite3_value) by (destruct clear; reflexivity).
    specialize (IH (done ++ [Lifetime.Null]) h).
    rewrite length_app in IH. cbn [List.length] in IH.
    replace (Z.of_nat (List.length done + 1)) with (Z.of_nat (List.length done) + 1)
      in IH by lia.
    replace (Z.of_nat (List.length done) + Z.of_nat (S k))
      with (Z.of_nat (List.length done) + 1 + Z.of_nat k) by lia.
    rewrite <- !app_assoc in IH. cbn [app] in IH. exact IH.
Qed.

(** The loop that copies the current row into the key array. *)
Lemma store_entries p : forall (todo done : list (Lifetime.ptr sqlite3_value)) h,
  Lifetime.for_each
    (zrange (Z.of_nat (List.length done))
       (Z.of_nat (List.length done) + Z.of_nat (List.length todo)))
    (Lifetime.store_entry p) (Lifetime.Live (done ++ todo), h)
  = Lifetime.Done
      (Lifetime.Live
         (done ++ map (fun i => Lifetime.Live (sqlite3_column_value p i))
                    (zrange (Z.of_nat (List.length done))
                       (Z.of_nat (List.length done) + Z.of_nat (List.length todo)))),
       ledger_plus h (Z.of_nat (List.length todo)) 0).
Proof.
  induction todo as [|x todo IH]; intros done h.
  - rewrite zrange_nil by (cbn [List.length]; lia). cbn [Lifetime.for_each map].
    now rewrite ledger_plus_0.
  - cbn [List.length]. rewrite zrange_cons by lia.
    cbn [Lifetime.for_each map]. unfold Lifetime.store_entry at 1.
    cbn [Lifetime.deref Lifetime.bind]. rewrite znth_middle.
    cbn [Lifetime.sqlite3_value_dup Lifetime.bind]. rewrite zset_middle.
    specialize (IH (done ++ [Lifetime.Live (sqlite3_column_value p (Z.of_nat (List.length done)))])
                  (Lifetime.taken h)).
    rewrite length_app in IH. cbn [List.length] in IH.
    replace (Z.of_nat (List.length done + 1)) with (Z.of_nat (List.length done) + 1)
      in IH by lia.
    replace (Z.of_nat (List.length done) + Z.of_nat (S (List.length todo)))
      with (Z.of_nat (List.length done) + 1 + Z.of_nat (List.length todo)) by lia.
    rewrite <- !app_assoc in IH. cbn [app] in IH.
    rewrite IH, taken_plus, ledger_plus_plus. do 3 f_equal. lia.
Qed.

(** The key array a cursor owns after the copy of a well-formed row. *)
Lemma store_row tab st r rest (arr : list (Lifetime.ptr sqlite3_value)) h :
  st_state st = OnRow r rest ->
  Z.of_nat (List.length r) = nRow_cols tab ->
  Z.of_nat (List.length arr) = nRow_cols tab ->
  Lifetime.for_each (zrange 0 (nRow_cols tab)) (Lifetime.store_entry (Some st))
    (Lifetime.Live arr, h)
  = Lifetime.Done (Lifetime.Live (map Lifetime.Live r), ledger_plus h (nRow_cols tab) 0).
Proof.
  intros Hst Hr Ha.
  pose proof (store_entries (Some st) arr [] h) as H.
  cbn [List.length app] in H. change (Z.of_nat 0) with 0 in H.
  rewrite Z.add_0_l, Ha in H. rewrite H. do 3 f_equal.
  pose proof (copy_row_key_current tab st r rest Hst Hr) as Hc.
  unfold copy_row_key in Hc.
  rewrite <- (map_map (sqlite3_column_value (Some st)) Some) in Hc.
  rewrite <- (map_map (sqlite3_column_value (Some st)) Lifetime.Live). f_equal.
  revert Hc. generalize (map (sqlite3_column_value (Some st)) (zrange 0 (nRow_cols tab))).
  clear. intros l. revert r. induction l as [|x l IH]; intros [|y r]; cbn [map];
    try discriminate; [reflexivity|].
  intros [= -> H]. f_equal. now apply IH.
Qed.

(** xNext from a row to the next row: the values of the old row are
    released, those of the new row copied. *)
Lemma pivotNext_owns_row tab cur r r2 rest h :
  owns_row cur r (r2 :: rest) ->
  Z.of_nat (List.length r) = nRow_cols tab ->
  Z.of_nat (List.length r2) = nRow_cols tab ->
  exists cur',
    Lifetime.pivotNext tab cur h = Lifetime.Done (cur', h)
    /\ owns_row cur' r2 rest
    /\ Lifetime.iRowid cur' = Lifetime.iRowid cur + 1
    /\ cursor_end cur' = cursor_end cur.
Proof.
  intros (Hrc & Hkey & st & Hst & Hpend) Hr Hr2.
  unfold cursor_end. unfold Lifetime.pivotNext. rewrite Hkey, Hst. cbn [Lifetime.non_null].
  pose proof (free_entries_live true r [] h) as Hfree.
  cbn [List.length app] in Hfree. change (Z.of_nat 0 + ?x) with x in Hfree.
  change (Z.of_nat 0) with 0 in Hfree. rewrite Hr in Hfree. rewrite Hfree.
  cbn [Lifetime.bind Lifetime.stmt_arg]. unfold sqlite3_step. rewrite Hpend.
  change (negb (SQLITE_ROW =? SQLITE_DONE)) with true. cbn iota.
  rewrite (store_row tab _ r2 rest); [| reflexivity | exact Hr2 | rewrite repeat_length; exact Hr].
  cbn [Lifetime.bind Lifetime.stmt_field]. rewrite ledger_plus_plus.
  replace (- nRow_cols tab + nRow_cols tab) with 0 by lia.
  rewrite ledger_plus_0. eexists. split; [reflexivity|]. split; [|split; reflexivity].
  split; [reflexivity|]. split; [reflexivity|]. eexists. split; reflexivity.
Qed.

(** xNext from the last row of a run that completes: the values are
    released, the key array stays, with NULL entries, and the statement
    stays open. *)
Lemma pivotNext_owns_last_row tab cur r h :
  owns_row cur r [] ->
  cursor_end cur = Some Completes ->
  Z.of_nat (List.length r) = nRow_cols tab ->
  exists st,
    Lifetime.pivotNext tab cur h
    = Lifetime.Done
        ({| Lifetime.iRowid := Lifetime.iRowid cur + 1;
            Lifetime.stmt := Lifetime.Live st;
            Lifetime.rc := SQLITE_DONE;
            Lifetime.pivot_key := Lifetime.Live (repeat Lifetime.Null (List.length r)) |},
         ledger_plus h (- nRow_cols tab) 0).
Proof.
  intros (Hrc & Hkey & st & Hst & Hpend) Hend Hr.
  unfold cursor_end in Hend. rewrite Hst in Hend. injection Hend as Hend.
  unfold Lifetime.pivotNext. rewrite Hkey, Hst. cbn [Lifetime.non_null].
  pose proof (free_entries_live true r [] h) as Hfree.
  cbn [List.length app] in Hfree. change (Z.of_nat 0 + ?x) with x in Hfree.
  change (Z.of_nat 0) with 0 in Hfree. rewrite Hr in Hfree. rewrite Hfree.
  cbn [Lifetime.bind Lifetime.stmt_arg]. unfold sqlite3_step. rewrite Hpend, Hend.
  cbn [end_code].
  change (negb (SQLITE_DONE =? SQLITE_DONE)) with false. cbn iota.
  cbn [Lifetime.bind Lifetime.stmt_field]. eexists. reflexivity.
Qed.

(** xEof after the last row: the key array is freed and the statement
    finalized; the cursor keeps the address of the array. *)
Lemma pivotEof_releases_key tab i st (k : nat) h :
  Z.of_nat k = nRow_cols tab ->
  Lifetime.pivotEof tab
    {| Lifetime.iRowid := i; Lifetime.stmt := Lifetime.Live st; Lifetime.rc := SQLITE_DONE;
       Lifetime.pivot_key := Lifetime.Live (repeat Lifetime.Null k) |} h
  = Lifetime.Done
      (1,
       {| Lifetime.iRowid := i; Lifetime.stmt := Lifetime.Null; Lifetime.rc := SQLITE_DONE;
          Lifetime.pivot_key := Lifetime.Stale |},
       ledger_plus h (-1) (-1)).
Proof.
  intros Hk. unfold Lifetime.pivotEof, Lifetime.free_key.
  cbn [Lifetime.rc Lifetime.pivot_key Lifetime.stmt Lifetime.iRowid Lifetime.non_null].
  change (SQLITE_DONE =? SQLITE_DONE) with true. cbn iota.
  pose proof (free_entries_null false k [] h) as Hfree.
  cbn [List.length app] in Hfree. change (Z.of_nat 0 + ?x) with x in Hfree.
  change (Z.of_nat 0) with 0 in Hfree. rewrite Hk in Hfree. rewrite Hfree.
  cbn [Lifetime.bind Lifetime.sqlite3_free Lifetime.released Lifetime.sqlite3_finalize].
  rewrite given_back_plus, finalized_plus, ledger_plus_plus. reflexivity.
Qed.

(** xClose on a cursor that kept the address of a released key array. *)
Lemma pivotClose_stale_key tab cur h :
  0 < nRow_cols tab ->
  Lifetime.pivot_key cur = Lifetime.Stale ->
  Lifetime.pivotClose tab cur h = Lifetime.Fault Lifetime.UseAfterFree.
Proof.
  intros Hn Hk. unfold Lifetime.pivotClose, Lifetime.free_key. rewrite Hk.
  cbn [Lifetime.non_null]. rewrite zrange_cons by lia. reflexivity.
Qed.

(** Column reads through a valid key array answer what the value-level
    methods answer. *)
Lemma key_value_live cur key i v :
  Lifetime.pivot_key cur = Lifetime.Live (map Lifetime.Live key) ->
  znth (map Some key) i = Some (Some v) ->
  Lifetime.key_value cur i = Lifetime.Done v.
Proof.
  intros Hk. unfold Lifetime.key_value. rewrite Hk. cbn [Lifetime.deref Lifetime.bind].
  rewrite !znth_map. destruct (znth key i); cbn [option_map]; [|discriminate].
  now intros [= ->].
Qed.

Lemma bind_row_key_live cur key : forall idx p p',
  Lifetime.pivot_key cur = Lifetime.Live (map Lifetime.Live key) ->
  bind_row_key p (map Some key) idx = Some p' ->
  Lifetime.for_each idx
    (fun i p => Lifetime.bind (Lifetime.key_value cur i)
                  (fun v => Lifetime.Done (sqlite3_bind_value p (i + 1) v))) p
  = Lifetime.Done p'.
Proof.
  induction idx as [|i idx IH]; intros p p' Hk; cbn [bind_row_key Lifetime.for_each].
  - now intros [= ->].
  - destruct (znth (map Some key) i) as [[v|]|] eqn:E; try discriminate.
    rewrite (key_value_live cur key i v Hk E). cbn [Lifetime.bind]. now apply IH.
Qed.

Lemma pivotColumn_live tab cur key i res :
  Lifetime.pivot_key cur = Lifetime.Live (map Lifetime.Live key) ->
  pivotColumn tab (values_of cur key) i = Some res ->
  Lifetime.pivotColumn tab cur i = Lifetime.Done res.
Proof.
  intros Hk. unfold pivotColumn, Lifetime.pivotColumn, key_array, values_of.
  cbn [pivot_key].
  destruct (i <? nRow_cols tab).
  - destruct (znth (map Some key) i) as [[v|]|] eqn:E; try discriminate.
    intros [= <-]. now rewrite (key_value_live cur key i v Hk E).
  - destruct (znth (col_stmt tab) (i - nRow_cols tab)) as [p|]; [|discriminate].
    destruct (bind_row_key p (map Some key) (zrange 0 (nRow_key tab))) as [p'|] eqn:E;
      [|discriminate].
    rewrite (bind_row_key_live cur key _ _ _ Hk E). cbn [Lifetime.bind].
    destruct (sqlite3_step p') as [rc' p'']. now intros [= <-].
Qed.

Lemma read_columns_live cur key : forall idx tab res,
  Lifetime.pivot_key cur = Lifetime.Live (map Lifetime.Live key) ->
  read_columns tab (values_of cur key) idx = Some res ->
  Lifetime.read_columns tab cur idx = Lifetime.Done res.
Proof.
  induction idx as [|i idx IH]; intros tab res Hk; cbn [read_columns Lifetime.read_columns].
  - now intros [= <-].
  - destruct (pivotColumn tab (values_of cur key) i) as [[tab1 v]|] eqn:E; [|discriminate].
    rewrite (pivotColumn_live _ _ _ _ _ Hk E). cbn [Lifetime.bind].
    destruct (read_columns tab1 (values_of cur key) idx) as [[tab2 vs]|] eqn:E2;
      [|discriminate].
    rewrite (IH _ _ Hk E2). cbn [Lifetime.bind]. now intros [= <-].
Qed.

(** The scan loop from a cursor that owns a row of a run that
    completes: every row is read, the values of each row are released by
    the next xNext, and the last xEof frees the key array and finalizes
    the statement. *)
Lemma scan_loop_owned tab0 pp : forall rest r fuel bl cur h,
  owns_row cur r rest ->
  cursor_end cur = Some Completes ->
  Forall (fun r' => Z.of_nat (List.length r') = nRow_cols tab0) (r :: rest) ->
  nRow_key tab0 <= nRow_cols tab0 ->
  nCol_key tab0 = Z.of_nat (List.length bl) ->
  Forall (fun b => nRow_key tab0 <= Z.of_nat (List.length b)) bl ->
  (S (List.length rest) < fuel)%nat ->
  let n := Z.to_nat (nRow_key tab0) in
  exists tab' cur',
    Lifetime.scan_loop fuel (nRow_cols tab0 + nCol_key tab0)
      (set_col_stmt tab0 (map (fun b => Some (idle_stmt pp b)) bl)) cur h
    = Some (Lifetime.Done
              (tab', cur', map (scanned_row pp n (map (skipn n) bl)) (r :: rest),
               ledger_plus h (- nRow_cols tab0 - 1) (-1)))
    /\ Lifetime.pivot_key cur' = Lifetime.Stale
    /\ Lifetime.stmt cur' = Lifetime.Null
    /\ nRow_cols tab' = nRow_cols tab0.
Proof.
  intros rest. induction rest as [|r2 rest IH];
    intros r fuel bl cur h Hown Hend Hwf Hn Hc Hf Hfuel n;
    pose proof Hown as (Hrc & Hkey & _);
    inversion Hwf as [|r0 l0 Hr Hwf']; subst r0 l0;
    (destruct fuel as [|fuel]; [lia|]);
    cbn [Lifetime.scan_loop]; unfold Lifetime.pivotEof; rewrite Hrc;
    change (SQLITE_ROW =? SQLITE_DONE) with false; cbn iota;
    change (negb (0 =? 0)) with false; cbn iota;
    rewrite (read_columns_live cur r _ _ _ Hkey
               (read_row tab0 (values_of cur r) r pp bl eq_refl Hr Hn Hc Hf)); fold n;
    assert (Hn' : (n <= List.length r)%nat) by lia.
  - destruct (pivotNext_owns_last_row
                (set_col_stmt tab0
                   (map (fun b => Some (idle_stmt pp b))
                      (map (fun b => firstn n r ++ skipn n b) bl))) cur r h Hown Hend Hr)
      as (st & ->).
    destruct fuel as [|fuel]; [simpl in Hfuel; lia|].
    cbn [Lifetime.scan_loop]. rewrite pivotEof_releases_key by exact Hr.
    change (negb (1 =? 0)) with true. cbn iota.
    cbn [nRow_cols set_col_stmt]. rewrite ledger_plus_plus.
    replace (- nRow_cols tab0 + -1) with (- nRow_cols tab0 - 1) by lia.
    change (0 + -1) with (-1).
    eexists _, _. split; [reflexivity|]. repeat split.
  - inversion Hwf' as [|r0 l0 Hr2 Hwf'']; subst r0 l0.
    destruct (pivotNext_owns_row
                (set_col_stmt tab0
                   (map (fun b => Some (idle_stmt pp b))
                      (map (fun b => firstn n r ++ skipn n b) bl))) cur r r2 rest h Hown Hr Hr2)
      as (cur1 & -> & Hown1 & _ & Hend1).
    destruct (IH r2 fuel (map (fun b => firstn n r ++ skipn n b) bl) cur1 h)
      as (tab' & cur' & E & Hk' & Hs' & Ht'); try assumption.
    + now rewrite Hend1.
    + now rewrite length_map.
    + apply rebind_lengths; assumption.
    + simpl in Hfuel. lia.
    + fold n in E. rewrite rebind_tails in E by exact Hn'.
      rewrite E. eexists _, _. split; [reflexivity|]. repeat split; assumption.
Qed.

(** The loop that copies the current row of [p], whatever it is, into a
    key array of the right length. *)
Lemma store_any tab p (arr : list (Lifetime.ptr sqlite3_value)) h :
  Z.of_nat (List.length arr) = nRow_cols tab ->
  Lifetime.for_each (zrange 0 (nRow_cols tab)) (Lifetime.store_entry p)
    (Lifetime.Live arr, h)
  = Lifetime.Done
      (Lifetime.Live
         (map Lifetime.Live (map (sqlite3_column_value p) (zrange 0 (nRow_cols tab)))),
       ledger_plus h (nRow_cols tab) 0).
Proof.
  intros Ha.
  pose proof (store_entries p arr [] h) as H.
  cbn [List.length app] in H. change (Z.of_nat 0) with 0 in H.
  rewrite Z.add_0_l, Ha in H. rewrite H, map_map. reflexivity.
Qed.

(** xFilter on a plan text that compiles: the key array is allocated and
    the statement prepared; without a row, on a run that completes, the
    array is dropped; with a row the cursor owns the row. *)
Lemma pivotFilter_owned tab cur idx sql fp vals h :
  0 < nRow_cols tab ->
  db_compile (db tab) sql = inr fp ->
  match prog_run fp (filter_binds fp vals) with
  | [] =>
      prog_end fp (filter_binds fp vals) = Completes ->
      exists st,
        Lifetime.pivotFilter tab cur idx sql vals h
        = Lifetime.Done
            ({| Lifetime.iRowid := 1; Lifetime.stmt := Lifetime.Live st;
                Lifetime.rc := SQLITE_DONE; Lifetime.pivot_key := Lifetime.Null |},
             ledger_plus h 1 1)
  | r :: rest =>
      Z.of_nat (List.length r) = nRow_cols tab ->
      exists cur',
        Lifetime.pivotFilter tab cur idx sql vals h
        = Lifetime.Done (cur', ledger_plus h (1 + nRow_cols tab) 1)
        /\ owns_row cur' r rest
        /\ cursor_end cur' = Some (prog_end fp (filter_binds fp vals))
  end.
Proof.
  intros Hn Hc. unfold Lifetime.pivotFilter, Lifetime.sqlite3_malloc, Lifetime.sizeof_pointer.
  destruct (Z.leb_spec (nRow_cols tab * 8) 0); [lia|].
  unfold sqlite3_prepare_v2. rewrite Hc. cbn [stmt_ptr].
  fold (idle_stmt fp (repeat SqlNull (prog_nparams fp))). rewrite bind_args_fresh.
  unfold sqlite3_step, stmt_pending, stmt_end. cbn [idle_stmt st_state st_prog st_binds].
  destruct (prog_run fp (filter_binds fp vals)) as [|r rest].
  - intros ->. cbn [end_code].
    change (SQLITE_DONE =? SQLITE_DONE) with true. cbn iota. cbn [Lifetime.stmt_field].
    rewrite taken_plus, prepared_plus, ledger_plus_plus. eexists. reflexivity.
  - intros Hr. change (SQLITE_ROW =? SQLITE_DONE) with false. cbn iota.
    rewrite (store_row tab _ r rest); [| reflexivity | exact Hr | rewrite repeat_length; lia].
    cbn [Lifetime.bind Lifetime.stmt_field].
    rewrite taken_plus, prepared_plus, !ledger_plus_plus.
    replace (1 + 0 + nRow_cols tab) with (1 + nRow_cols tab) by lia.
    eexists. split; [reflexivity|]. split; [|reflexivity].
    split; [reflexivity|]. split; [reflexivity|]. eexists. split; reflexivity.
Qed.

(** xFilter on a plan text that compiles to a program which yields no
    row and fails: the failing step is taken for a row, and the cursor
    owns a copy of a row of NULL values. *)
Lemma pivotFilter_failing tab cur idx sql fp vals e h :
  0 < nRow_cols tab ->
  db_compile (db tab) sql = inr fp ->
  prog_run fp (filter_binds fp vals) = [] ->
  prog_end fp (filter_binds fp vals) = Fails e ->
  exists cur' key,
    Lifetime.pivotFilter tab cur idx sql vals h
    = Lifetime.Done (cur', ledger_plus h (1 + nRow_cols tab) 1)
    /\ Lifetime.rc cur' <> SQLITE_DONE
    /\ Lifetime.pivot_key cur' = Lifetime.Live (map Lifetime.Live key)
    /\ Z.of_nat (List.length key) = nRow_cols tab
    /\ cursor_end cur' = Some (Fails e).
Proof.
  intros Hn Hc Hrows Hend.
  unfold Lifetime.pivotFilter, Lifetime.sqlite3_malloc, Lifetime.sizeof_pointer.
  destruct (Z.leb_spec (nRow_cols tab * 8) 0); [lia|].
  unfold sqlite3_prepare_v2. rewrite Hc. cbn [stmt_ptr].
  fold (idle_stmt fp (repeat SqlNull (prog_nparams fp))). rewrite bind_args_fresh.
  unfold sqlite3_step, stmt_pending, stmt_end. cbn [idle_stmt st_state st_prog st_binds].
  rewrite Hrows, Hend, end_code_fails.
  rewrite store_any by (rewrite repeat_length; lia).
  cbn [Lifetime.bind Lifetime.stmt_field].
  rewrite taken_plus, prepared_plus, !ledger_plus_plus.
  replace (1 + 0 + nRow_cols tab) with (1 + nRow_cols tab) by lia.
  eexists _, _. split; [reflexivity|]. cbn [Lifetime.rc Lifetime.pivot_key].
  split. { intros H0. apply end_code_DONE in H0. discriminate. }
  split; [reflexivity|]. split.
  - rewrite length_map, zrange_length. lia.
  - unfold cursor_end, stmt_end. cbn [Lifetime.stmt st_prog st_binds]. now rewrite Hend.
Qed.

(** xNext on a cursor that owns a key and whose statement fails at the
    end of its run: the step gives a row or the error, never
    SQLITE_DONE, and the cursor owns a key again. *)
Lemma pivotNext_failing tab cur key e h :
  Lifetime.pivot_key cur = Lifetime.Live (map Lifetime.Live key) ->
  Z.of_nat (List.length key) = nRow_cols tab ->
  cursor_end cur = Some (Fails e) ->
  exists cur' key',
    Lifetime.pivotNext tab cur h = Lifetime.Done (cur', h)
    /\ Lifetime.rc cur' <> SQLITE_DONE
    /\ Lifetime.pivot_key cur' = Lifetime.Live (map Lifetime.Live key')
    /\ Z.of_nat (List.length key') = nRow_cols tab
    /\ cursor_end cur' = Some (Fails e).
Proof.
  intros Hkey Hlen Hend. unfold cursor_end in Hend.
  destruct (Lifetime.stmt cur) as [|st| |] eqn:Hst; try discriminate.
  injection Hend as Hend.
  unfold Lifetime.pivotNext. rewrite Hkey, Hst. cbn [Lifetime.non_null].
  pose proof (free_entries_live true key [] h) as Hfree.
  cbn [List.length app] in Hfree. change (Z.of_nat 0 + ?x) with x in Hfree.
  change (Z.of_nat 0) with 0 in Hfree. rewrite Hlen in Hfree. rewrite Hfree.
  cbn [Lifetime.bind Lifetime.stmt_arg]. unfold sqlite3_step.
  assert (Hl : Z.of_nat (List.length (repeat (@Lifetime.Null sqlite3_value) (List.length key)))
               = nRow_cols tab) by now rewrite repeat_length.
  destruct (stmt_pending st) as [|r rs].
  - rewrite Hend, end_code_fails. cbn [negb].
    rewrite (store_any tab _ _ _ Hl). cbn [Lifetime.bind Lifetime.stmt_field].
    rewrite ledger_plus_plus.
    replace (- nRow_cols tab + nRow_cols tab) with 0 by lia. rewrite ledger_plus_0.
    eexists _, _. split; [reflexivity|]. cbn [Lifetime.rc Lifetime.pivot_key].
    split. { intros H0. apply end_code_DONE in H0. discriminate. }
    split; [reflexivity|]. split.
    + rewrite length_map, zrange_length. lia.
    + unfold cursor_end, stmt_end. cbn [Lifetime.stmt st_prog st_binds].
      unfold stmt_end in Hend. now rewrite Hend.
  - change (negb (SQLITE_ROW =? SQLITE_DONE)) with true. cbn iota.
    rewrite (store_any tab _ _ _ Hl). cbn [Lifetime.bind Lifetime.stmt_field].
    rewrite ledger_plus_plus.
    replace (- nRow_cols tab + nRow_cols tab) with 0 by lia. rewrite ledger_plus_0.
    eexists _, _. split; [reflexivity|]. cbn [Lifetime.rc Lifetime.pivot_key].
    split; [discriminate|].
    split; [reflexivity|]. split.
    + rewrite length_map, zrange_length. lia.
    + unfold cursor_end, stmt_end. cbn [Lifetime.stmt st_prog st_binds].
      unfold stmt_end in Hend. now rewrite Hend.
Qed.

(** The scan loop from a cursor that owns a key and whose statement
    fails at the end of its run: xEof never answers true, and the loop
    does not end, whatever the fuel. *)
Lemma scan_loop_failing tab0 pp e : forall fuel bl cur key h,
  Lifetime.rc cur <> SQLITE_DONE ->
  Lifetime.pivot_key cur = Lifetime.Live (map Lifetime.Live key) ->
  Z.of_nat (List.length key) = nRow_cols tab0 ->
  cursor_end cur = Some (Fails e) ->
  nRow_key tab0 <= nRow_cols tab0 ->
  nCol_key tab0 = Z.of_nat (List.length bl) ->
  Forall (fun b => nRow_key tab0 <= Z.of_nat (List.length b)) bl ->
  Lifetime.scan_loop fuel (nRow_cols tab0 + nCol_key tab0)
    (set_col_stmt tab0 (map (fun b => Some (idle_stmt pp b)) bl)) cur h
  = None.
Proof.
  induction fuel as [|fuel IH]; intros bl cur key h Hrc Hkey Hlen Hend Hn Hc Hf;
    [reflexivity|].
  cbn [Lifetime.scan_loop]. unfold Lifetime.pivotEof.
  destruct (Z.eqb_spec (Lifetime.rc cur) SQLITE_DONE) as [E|_]; [contradiction|].
  change (negb (0 =? 0)) with false. cbn iota.
  rewrite (read_columns_live cur key _ _ _ Hkey
             (read_row tab0 (values_of cur key) key pp bl eq_refl Hlen Hn Hc Hf)).
  set (n := Z.to_nat (nRow_key tab0)).
  destruct (pivotNext_failing
              (set_col_stmt tab0
                 (map (fun b => Some (idle_stmt pp b))
                    (map (fun b => firstn n key ++ skipn n b) bl))) cur key e h Hkey Hlen Hend)
    as (cur' & key' & -> & Hrc' & Hkey' & Hlen' & Hend').
  rewrite (IH (map (fun b => firstn n key ++ skipn n b) bl) cur' key' h);
    try assumption; [reflexivity | now rewrite length_map |].
  apply rebind_lengths; [|assumption]. subst n. lia.
Qed.

(** xClose on a cursor that owns a row releases the values, the key
    array, the statement and the cursor. *)
Lemma pivotClose_owned tab cur r rest h :
  owns_row cur r rest ->
  Z.of_nat (List.length r) = nRow_cols tab ->
  Lifetime.pivotClose tab cur h = Lifetime.Done (ledger_plus h (- nRow_cols tab - 2) (-1)).
Proof.
  intros (_ & Hkey & st & Hst & _) Hr.
  unfold Lifetime.pivotClose, Lifetime.free_key. rewrite Hkey, Hst.
  cbn [Lifetime.non_null].
  pose proof (free_entries_live false r [] h) as Hfree.
  cbn [List.length app] in Hfree. change (Z.of_nat 0 + ?x) with x in Hfree.
  change (Z.of_nat 0) with 0 in Hfree. rewrite Hr in Hfree. rewrite Hfree.
  cbn [Lifetime.bind Lifetime.sqlite3_free Lifetime.sqlite3_finalize].
  rewrite !given_back_plus, finalized_plus, !ledger_plus_plus. do 2 f_equal; lia.
Qed.

Lemma pivotNext_times_owned tab : forall k rows cur r rk h,
  owns_row cur r rows ->
  Forall (fun r' => Z.of_nat (List.length r') = nRow_cols tab) (r :: rows) ->
  nth_error (r :: rows) k = Some rk ->
  exists cur',
    Lifetime.pivotNext_times k tab cur h = Lifetime.Done (cur', h)
    /\ owns_row cur' rk (skipn k rows).
Proof.
  induction k as [|k IH]; intros rows cur r rk h Hown Hwf Hk.
  - injection Hk as <-. exists cur. split; [reflexivity | exact Hown].
  - destruct rows as [|r2 rows]; [destruct k; discriminate|].
    inversion Hwf as [|r0 l0 Hr Hwf']. subst r0 l0.
    inversion Hwf' as [|r0 l0 Hr2 _]. subst r0 l0.
    destruct (pivotNext_owns_row tab cur r r2 rows h Hown Hr Hr2)
      as (c1 & E & Hown1 & _ & _).
    cbn [Lifetime.pivotNext_times]. rewrite E. cbn [Lifetime.bind].
    apply (IH rows c1 r2 rk h Hown1 Hwf' Hk).
Qed.

End Ownership.

(** X10.  A scan that reads to the end is followed by a use after free.
    On a created table and a plan text that compiles and yields at least
    one row, when the run of the plan completes, the cursor reads every
    row; the last xEof frees the key array and finalizes the statement, so
    that all the scan had allocated is released, but leaves the address of
    the array in the cursor.  xClose finds that address not NULL and reads
    the freed array to free its values, then frees the array again.  When
    the run of the plan fails instead, no step answers SQLITE_DONE, xEof
    never answers true and the cursor is not closed: the scan does not
    end, whatever the fuel. *)
Theorem scan_to_end_then_close_reads_freed_key
    (db0 : sqlite3) (argv : list string) (tab : pivot_vtab) (schema : string)
    (kp cp pp fp : program) (idxStr : string) (vals : list sqlite3_value)
    (fuel : nat) (h : Lifetime.ledger) :
  pivotConnect db0 argv = Connected tab schema ->
  Schema.queries db0 argv kp cp pp ->
  prog_columns kp <> [] ->
  db_compile db0 idxStr = inr fp ->
  Forall (fun r => List.length r = List.length (prog_columns kp))
    (prog_run fp (filter_binds fp vals)) ->
  prog_run fp (filter_binds fp vals) <> [] ->
  (List.length (prog_run fp (filter_binds fp vals)) < fuel)%nat ->
  match prog_end fp (filter_binds fp vals) with
  | Completes =>
      (exists tab' cur',
         Lifetime.scan fuel (nRow_cols tab + nCol_key tab) tab idxStr vals h
         = Some (Lifetime.Done
                   (tab', cur',
                    map (Scan.pivot_row cp pp) (prog_run fp (filter_binds fp vals)),
                    ledger_plus h 1 0))
         /\ Lifetime.pivot_key cur' = Lifetime.Stale
         /\ Lifetime.stmt cur' = Lifetime.Null)
      /\ Lifetime.session fuel (nRow_cols tab + nCol_key tab) tab idxStr vals h
         = Some (Lifetime.Fault Lifetime.UseAfterFree)
  | Fails _ =>
      forall fuel',
        Lifetime.session fuel' (nRow_cols tab + nCol_key tab) tab idxStr vals h = None
  end.
Proof.
  intros Hconn Hq Hcols Hc Hwf Hne Hfuel.
  destruct (connected_bindings _ _ _ _ _ _ _ Hconn Hq)
    as (bl & Et & Hdb & Hnc & Hle & Hk & Hf & Hrow).
  assert (Hpos : 0 < nRow_cols tab).
  { rewrite Hnc. destruct (prog_columns kp); [contradiction | cbn [List.length]; lia]. }
  assert (Hwf' : Forall (fun r => Z.of_nat (List.length r) = nRow_cols tab)
                   (prog_run fp (filter_binds fp vals))).
  { eapply Forall_impl; [|exact Hwf]. intros r Hr. cbv beta in Hr. lia. }
  rewrite <- Hdb in Hc.
  pose proof (pivotFilter_owned tab
                {| Lifetime.iRowid := 0; Lifetime.stmt := Lifetime.Null; Lifetime.rc := 0;
                   Lifetime.pivot_key := Lifetime.Null |}
                0 idxStr fp vals (Lifetime.taken h) Hpos Hc) as HF.
  destruct (prog_end fp (filter_binds fp vals)) as [|e] eqn:Hend.
  2:{ intros fuel'. unfold Lifetime.session, Lifetime.scan, Lifetime.pivotOpen.
      destruct (prog_run fp (filter_binds fp vals)) as [|r rest]; [contradiction|].
      inversion Hwf' as [|r0 l0 Hr _]. subst r0 l0.
      destruct (HF Hr) as (c1 & -> & (Hrc & Hkey & _) & Hce).
      rewrite Et.
      rewrite (scan_loop_failing tab pp e fuel' bl c1 r); try assumption;
        [reflexivity | rewrite Hrc; discriminate]. }
  assert (Hscan : exists tab' cur',
            Lifetime.scan fuel (nRow_cols tab + nCol_key tab) tab idxStr vals h
            = Some (Lifetime.Done
                      (tab', cur',
                       map (Scan.pivot_row cp pp) (prog_run fp (filter_binds fp vals)),
                       ledger_plus h 1 0))
            /\ Lifetime.pivot_key cur' = Lifetime.Stale
            /\ Lifetime.stmt cur' = Lifetime.Null
            /\ nRow_cols tab' = nRow_cols tab).
  { unfold Lifetime.scan, Lifetime.pivotOpen.
    destruct (prog_run fp (filter_binds fp vals)) as [|r rest]; [contradiction|].
    inversion Hwf' as [|r0 l0 Hr _]. subst r0 l0.
    destruct (HF Hr) as (c1 & -> & Hown & Hce).
    match goal with |- context [Lifetime.scan_loop fuel ?m tab ?c ?h0] =>
      replace (Lifetime.scan_loop fuel m tab c h0)
        with (Lifetime.scan_loop fuel m
                (set_col_stmt tab (map (fun b => Some (idle_stmt pp b)) bl)) c h0)
        by now rewrite <- Et
    end.
    destruct (scan_loop_owned tab pp rest r fuel bl c1
                (ledger_plus (Lifetime.taken h) (1 + nRow_cols tab) 1) Hown Hce Hwf' Hle Hk Hf)
      as (tab' & cur' & E & Hkey & Hst & Hn'); [simpl in Hfuel; lia|].
    rewrite E. exists tab', cur'. split; [|repeat split; assumption].
    rewrite taken_plus, !ledger_plus_plus.
    rewrite (map_ext _ _ Hrow).
    replace (1 + (1 + nRow_cols tab + (- nRow_cols tab - 1))) with 1 by lia.
    reflexivity. }
  destruct Hscan as (tab' & cur' & E & Hkey & Hst & Hn').
  split; [exists tab', cur'; repeat split; assumption|].
  unfold Lifetime.session. rewrite E.
  rewrite pivotClose_stale_key; [reflexivity | now rewrite Hn' | exact Hkey].
Qed.

(** X11.  A scan without row loses its key array.  On a created table
    and a plan text that compiles and yields no row, when the run of the
    plan completes, xFilter allocates the key array and clears the pointer
    to it without freeing it: after xClose every statement is finalized
    and one block, the array, is left allocated with no pointer to it.
    When the run of the plan fails instead, the failing step is taken for
    a row of NULL values, xEof never answers true and the cursor is not
    closed: the scan does not end, whatever the fuel. *)
Theorem scan_without_row_leaks_key_array
    (db0 : sqlite3) (argv : list string) (tab : pivot_vtab) (schema : string)
    (kp cp pp fp : program) (idxStr : string) (vals : list sqlite3_value)
    (fuel : nat) (h : Lifetime.ledger) :
  pivotConnect db0 argv = Connected tab schema ->
  Schema.queries db0 argv kp cp pp ->
  prog_columns kp <> [] ->
  db_compile db0 idxStr = inr fp ->
  prog_run fp (filter_binds fp vals) = [] ->
  (0 < fuel)%nat ->
  match prog_end fp (filter_binds fp vals) with
  | Completes =>
      Lifetime.session fuel (nRow_cols tab + nCol_key tab) tab idxStr vals h
      = Some (Lifetime.Done (tab, [], ledger_plus h 1 0))
  | Fails _ =>
      forall fuel',
        Lifetime.session fuel' (nRow_cols tab + nCol_key tab) tab idxStr vals h = None
  end.
Proof.
  intros Hconn Hq Hcols Hc Hrows Hfuel.
  destruct (connected_bindings _ _ _ _ _ _ _ Hconn Hq)
    as (bl & Et & Hdb & Hnc & Hle & Hk & Hf & Hrow).
  assert (Hpos : 0 < nRow_cols tab).
  { rewrite Hnc. destruct (prog_columns kp); [contradiction | cbn [List.length]; lia]. }
  rewrite <- Hdb in Hc.
  destruct (prog_end fp (filter_binds fp vals)) as [|e] eqn:Hend.
  2:{ intros fuel'. unfold Lifetime.session, Lifetime.scan, Lifetime.pivotOpen.
      destruct (pivotFilter_failing tab
                  {| Lifetime.iRowid := 0; Lifetime.stmt := Lifetime.Null; Lifetime.rc := 0;
                     Lifetime.pivot_key := Lifetime.Null |}
                  0 idxStr fp vals e (Lifetime.taken h) Hpos Hc Hrows Hend)
        as (c1 & key & -> & Hrc & Hkey & Hlen & Hce).
      rewrite Et.
      rewrite (scan_loop_failing tab pp e fuel' bl c1 key); try assumption. reflexivity. }
  unfold Lifetime.session, Lifetime.scan, Lifetime.pivotOpen.
  pose proof (pivotFilter_owned tab
                {| Lifetime.iRowid := 0; Lifetime.stmt := Lifetime.Null; Lifetime.rc := 0;
                   Lifetime.pivot_key := Lifetime.Null |}
                0 idxStr fp vals (Lifetime.taken h) Hpos Hc) as HF.
  rewrite Hrows in HF. destruct (HF Hend) as (st & ->).
  destruct fuel as [|fuel]; [lia|].
  cbn [Lifetime.scan_loop]. unfold Lifetime.pivotEof, Lifetime.free_key.
  cbn [Lifetime.rc Lifetime.pivot_key Lifetime.stmt Lifetime.iRowid Lifetime.non_null
       Lifetime.bind Lifetime.sqlite3_finalize].
  change (SQLITE_DONE =? SQLITE_DONE) with true. cbn iota.
  cbn [Lifetime.bind Lifetime.sqlite3_finalize].
  change (negb (1 =? 0)) with true. cbn iota.
  unfold Lifetime.pivotClose, Lifetime.free_key.
  cbn [Lifetime.rc Lifetime.pivot_key Lifetime.stmt Lifetime.iRowid Lifetime.non_null
       Lifetime.bind].
  rewrite taken_plus, finalized_plus, given_back_plus, !ledger_plus_plus.
  reflexivity.
Qed.

(** X12.  A scan that stops early is released in full.  On a created
    table and a plan text that compiles, when the cursor is closed while
    it stands on a row, after xFilter and [n] calls of xNext and without
    a call of xEof that answered true, xClose frees the values of that
    row, the key array and the cursor and finalizes the statement:
    nothing the cursor had allocated is left, and nothing is freed
    twice. *)
Theorem scan_closed_on_a_row_releases_all
    (db0 : sqlite3) (argv : list string) (tab : pivot_vtab) (schema : string)
    (kp cp pp fp : program) (idxStr : string) (vals : list sqlite3_value)
    (n : nat) (r : row) (h : Lifetime.ledger) :
  pivotConnect db0 argv = Connected tab schema ->
  Schema.queries db0 argv kp cp pp ->
  prog_columns kp <> [] ->
  db_compile db0 idxStr = inr fp ->
  Forall (fun r => List.length r = List.length (prog_columns kp))
    (prog_run fp (filter_binds fp vals)) ->
  nth_error (prog_run fp (filter_binds fp vals)) n = Some r ->
  Lifetime.short_session n tab idxStr vals h = Lifetime.Done h.
Proof.
  intros Hconn Hq Hcols Hc Hwf Hnth.
  destruct (connected_bindings _ _ _ _ _ _ _ Hconn Hq)
    as (bl & Et & Hdb & Hnc & Hle & Hk & Hf & Hrow).
  assert (Hpos : 0 < nRow_cols tab).
  { rewrite Hnc. destruct (prog_columns kp); [contradiction | cbn [List.length]; lia]. }
  assert (Hwf' : Forall (fun r => Z.of_nat (List.length r) = nRow_cols tab)
                   (prog_run fp (filter_binds fp vals))).
  { eapply Forall_impl; [|exact Hwf]. intros r' Hr'. cbv beta in Hr'. lia. }
  rewrite <- Hdb in Hc.
  unfold Lifetime.short_session, Lifetime.pivotOpen.
  pose proof (pivotFilter_owned tab
                {| Lifetime.iRowid := 0; Lifetime.stmt := Lifetime.Null; Lifetime.rc := 0;
                   Lifetime.pivot_key := Lifetime.Null |}
                0 idxStr fp vals (Lifetime.taken h) Hpos Hc) as HF.
  destruct (prog_run fp (filter_binds fp vals)) as [|r0 rest]; [destruct n; discriminate|].
  inversion Hwf' as [|r1 l1 Hr0 _]. subst r1 l1.
  destruct (HF Hr0) as (c1 & -> & Hown & _). cbn [Lifetime.bind].
  destruct (pivotNext_times_owned tab n rest c1 r0 r
              (ledger_plus (Lifetime.taken h) (1 + nRow_cols tab) 1) Hown Hwf' Hnth)
    as (c2 & -> & Hown2).
  cbn [Lifetime.bind].
  rewrite (pivotClose_owned tab c2 r _ _ Hown2).
  - rewrite taken_plus, !ledger_plus_plus.
    replace (1 + (1 + nRow_cols tab + (- nRow_cols tab - 2))) with 0 by lia.
    change (0 + (1 + -1)) with 0. now rewrite ledger_plus_0.
  - apply nth_error_In in Hnth. rewrite Forall_forall in Hwf'. now apply Hwf'.
Qed.

(* ================================================================== *)
(** * Ownership of the table object *)
(* ================================================================== *)

Section TableOwnership.

Import Schema.

Lemma taken_n_plus h n : TableLifetime.taken_n h n = ledger_plus h n 0.
Proof. unfold TableLifetime.taken_n, ledger_plus. f_equal. lia. Qed.

Lemma ledger_plus_zero h b s : b = 0 -> s = 0 -> ledger_plus h b s = h.
Proof. intros -> ->. apply ledger_plus_0. Qed.

Lemma ledger_plus_eq h b s b' s' :
  b = b' -> s = s' -> ledger_plus h b s = ledger_plus h b' s'.
Proof. now intros -> ->. Qed.

(** The release of the names of a table object that has one name per
    row-key column. *)
Lemma release_names_all tab h :
  Z.of_nat (List.length (key_sql_col_names tab)) = nRow_cols tab ->
  TableLifetime.release_names tab h
  = Lifetime.Done (ledger_plus h (- nRow_cols tab - array_blocks (nRow_cols tab)) 0).
Proof.
  intros Hl. unfold TableLifetime.release_names.
  assert (H : forall todo done h,
            key_sql_col_names tab = done ++ todo ->
            Lifetime.for_each
              (zrange (Z.of_nat (List.length done))
                 (Z.of_nat (List.length done) + Z.of_nat (List.length todo)))
              (fun i h =>
                 match znth (key_sql_col_names tab) i with
                 | None => Lifetime.Fault Lifetime.OutOfBounds
                 | Some _ => Lifetime.Done (Lifetime.given_back h)
                 end) h
            = Lifetime.Done (ledger_plus h (- Z.of_nat (List.length todo)) 0)).
  { induction todo as [|x todo IH]; intros done h0 E.
    - rewrite zrange_nil by (cbn [List.length]; lia). cbn [Lifetime.for_each List.length].
      now rewrite ledger_plus_0.
    - cbn [List.length]. rewrite zrange_cons by lia. cbn [Lifetime.for_each].
      assert (Hz : znth (key_sql_col_names tab) (Z.of_nat (List.length done)) = Some x)
        by (rewrite E; apply znth_middle).
      rewrite Hz. cbn [Lifetime.bind].
      specialize (IH (done ++ [x]) (Lifetime.given_back h0)).
      rewrite length_app in IH. cbn [List.length] in IH.
      replace (Z.of_nat (List.length done + 1)) with (Z.of_nat (List.length done) + 1)
        in IH by lia.
      replace (Z.of_nat (List.length done) + Z.of_nat (S (List.length todo)))
        with (Z.of_nat (List.length done) + 1 + Z.of_nat (List.length todo)) by lia.
      rewrite IH by now rewrite <- app_assoc.
      rewrite given_back_plus, ledger_plus_plus. apply f_equal, ledger_plus_eq; lia. }
  specialize (H (key_sql_col_names tab) [] h eq_refl).
  cbn [List.length] in H. change (Z.of_nat 0) with 0 in H. rewrite Z.add_0_l, Hl in H.
  rewrite H. cbn [Lifetime.bind]. unfold array_blocks. rewrite <- Hl.
  destruct (key_sql_col_names tab) as [|x l]; cbn [List.length].
  - change (Z.of_nat 0 <=? 0) with true. cbn iota. apply f_equal, ledger_plus_eq; lia.
  - destruct (Z.leb_spec (Z.of_nat (S (List.length l))) 0); [lia|].
    rewrite given_back_plus, ledger_plus_plus. apply f_equal, ledger_plus_eq; lia.
Qed.

(** The release of the column statements of a table object that holds
    one statement per pivot column. *)
Lemma release_col_stmt_all tab (sts : list sqlite3_stmt) h :
  col_stmt tab = map Some sts ->
  nCol_key tab = Z.of_nat (List.length sts) ->
  TableLifetime.release_col_stmt tab h
  = Lifetime.Done (ledger_plus h (- array_blocks (nCol_key tab)) (- nCol_key tab)).
Proof.
  intros Hc Hn. unfold TableLifetime.release_col_stmt. rewrite Hc.
  assert (H : forall todo done h,
            sts = done ++ todo ->
            Lifetime.for_each
              (zrange (Z.of_nat (List.length done))
                 (Z.of_nat (List.length done) + Z.of_nat (List.length todo)))
              (fun i h =>
                 match znth (map Some sts) i with
                 | None => Lifetime.Fault Lifetime.OutOfBounds
                 | Some p => Lifetime.sqlite3_finalize h (Lifetime.stmt_field p)
                 end) h
            = Lifetime.Done (ledger_plus h 0 (- Z.of_nat (List.length todo)))).
  { induction todo as [|x todo IH]; intros done h0 E.
    - rewrite zrange_nil by (cbn [List.length]; lia). cbn [Lifetime.for_each List.length].
      now rewrite ledger_plus_0.
    - cbn [List.length]. rewrite zrange_cons by lia. cbn [Lifetime.for_each].
      assert (Hz : znth (map Some sts) (Z.of_nat (List.length done)) = Some (Some x)).
      { rewrite E, map_app. cbn [map].
        replace (Z.of_nat (List.length done))
          with (Z.of_nat (List.length (map Some done))) by now rewrite length_map.
        apply znth_middle. }
      rewrite Hz. cbn [Lifetime.stmt_field Lifetime.sqlite3_finalize Lifetime.bind].
      specialize (IH (done ++ [x]) (Lifetime.finalized h0)).
      rewrite length_app in IH. cbn [List.length] in IH.
      replace (Z.of_nat (List.length done + 1)) with (Z.of_nat (List.length done) + 1)
        in IH by lia.
      replace (Z.of_nat (List.length done) + Z.of_nat (S (List.length todo)))
        with (Z.of_nat (List.length done) + 1 + Z.of_nat (List.length todo)) by lia.
      rewrite IH by now rewrite <- app_assoc.
      rewrite finalized_plus, ledger_plus_plus. apply f_equal, ledger_plus_eq; lia. }
  specialize (H sts [] h eq_refl).
  cbn [List.length] in H. change (Z.of_nat 0) with 0 in H. rewrite Z.add_0_l, <- Hn in H.
  rewrite H. cbn [Lifetime.bind]. unfold array_blocks. rewrite Hn.
  destruct sts as [|x l]; cbn [List.length map].
  - change (Z.of_nat 0 <=? 0) with true. cbn iota. apply f_equal, ledger_plus_eq; lia.
  - destruct (Z.leb_spec (Z.of_nat (S (List.length l))) 0); [lia|].
    rewrite given_back_plus, ledger_plus_plus. apply f_equal, ledger_plus_eq; lia.
Qed.

(** The last loop of pivotConnect computes what the value-level loop
    computes, allocates the array at its first turn and prepares one
    statement per turn. *)
Lemma connect_columns_ledger pq pp : forall rs fuel st tab sql h,
  stmt_pending st = rs ->
  (List.length rs < fuel)%nat ->
  db_compile (db tab) pq = inr pp ->
  TableLifetime.connect_columns fuel pq (Some st) tab sql h
  = match connect_columns fuel pq (Some st) tab sql with
    | Some (tab', sql') =>
        Some (tab', sql',
              ledger_plus h
                (match col_stmt tab, rs with [], _ :: _ => 1 | _, _ => 0 end)
                (Z.of_nat (List.length rs)))
    | None => None
    end.
Proof.
  induction rs as [|r rs IH]; intros fuel st tab sql h Hp Hf Hc;
    (destruct fuel as [|fuel]; [simpl in Hf; lia|]);
    cbn [connect_columns TableLifetime.connect_columns]; unfold sqlite3_step; rewrite Hp.
  - rewrite end_code_eqb_ROW. cbn [List.length].
    change (Z.of_nat 0) with 0.
    replace (match col_stmt tab with [] => 0 | _ :: _ => 0 end) with 0
      by (destruct (col_stmt tab); reflexivity).
    now rewrite ledger_plus_0.
  - change (SQLITE_ROW =? SQLITE_ROW) with true. cbn iota.
    unfold sqlite3_prepare_v2. rewrite Hc.
    rewrite IH; [| reflexivity | simpl in Hf; lia | exact Hc].
    destruct (connect_columns fuel pq _ _ _) as [[tab' sql']|]; [|reflexivity].
    cbn [col_stmt List.length]. rewrite prepared_plus.
    do 2 f_equal.
    destruct (col_stmt tab) as [|x l]; cbn [app];
      destruct rs; rewrite ?taken_plus, !ledger_plus_plus; apply ledger_plus_eq; lia.
Qed.

(** An error return: the macro releases what the frame holds. *)
Ltac macro_balanced Hrel :=
  unfold TableLifetime.PIVOT_VTAB_CONNECT_ERROR, TableLifetime.release_col_stmt;
  cbn [TableLifetime.stmt_key_query TableLifetime.stmt_pivot_query
       TableLifetime.stmt_col_query TableLifetime.sql TableLifetime.pivot_query_sql
       TableLifetime.zMsg TableLifetime.azData TableLifetime.cf_tab
       TableLifetime.sqlite3_free_table
       Lifetime.sqlite3_finalize Lifetime.sqlite3_free Lifetime.bind
       nCol_key col_stmt];
  rewrite zrange_nil by lia; cbn [Lifetime.for_each Lifetime.bind];
  rewrite Hrel by reflexivity; cbn [Lifetime.bind nRow_cols];
  change (array_blocks 0) with 0;
  rewrite ?taken_plus, ?prepared_plus, ?finalized_plus, ?given_back_plus,
    ?ledger_plus_plus;
  rewrite ledger_plus_zero by lia; reflexivity.

(** A name for every column of the key query. *)
Lemma connect_key_names_length st sql :
  Z.of_nat (List.length (fst (connect_key_names (Some st) (sqlite3_column_count (Some st)) sql)))
  = sqlite3_column_count (Some st).
Proof.
  rewrite connect_key_names_spec. cbn [fst]. unfold sqlite3_column_count.
  now rewrite length_map.
Qed.

(** pivotConnect with the allocator made explicit ends as the
    value-level pivotConnect does.  An error return leaves in use what
    was in use before the call; a return after sqlite3_declare_vtab,
    whatever its answer, leaves the table object and all it owns. *)
Lemma pivotConnect_ledger db0 argv h :
  match pivotConnect db0 argv with
  | ConnectUndefined => True
  | ConnectError zErr =>
      TableLifetime.pivotConnect db0 argv h
      = Some (Lifetime.Done (ConnectError zErr, h))
  | Connected tab schema =>
      TableLifetime.pivotConnect db0 argv h
      = Some (Lifetime.Done
                (Connected tab schema, owned_by_table h (nRow_cols tab) (nCol_key tab)))
  | DeclareRefused rc schema =>
      exists kp cp pp,
        queries db0 argv kp cp pp
        /\ TableLifetime.pivotConnect db0 argv h
           = Some (Lifetime.Done
                     (DeclareRefused rc schema,
                      owned_by_table h (Z.of_nat (List.length (prog_columns kp)))
                        (Z.of_nat (List.length (rows_of cp)))))
  end.
Proof.
  unfold pivotConnect, TableLifetime.pivotConnect, TableLifetime.connect_validate,
    TableLifetime.arg, TableLifetime.error_return.
  destruct (znth argv 3) as [argv3|] eqn:A3; [|exact I]. cbn [Lifetime.bind].
  destruct (db_compile db0 (select_from argv3)) as [msg|kp] eqn:Ck.
  { replace (sqlite3_prepare_v2 db0 (select_from argv3)) with (@inl string sqlite3_stmt msg)
      by (unfold sqlite3_prepare_v2; now rewrite Ck).
    macro_balanced release_names_all. }
  replace (sqlite3_prepare_v2 db0 (select_from argv3))
    with (@inr string sqlite3_stmt
            {| st_prog := kp; st_binds := repeat SqlNull (prog_nparams kp);
               st_state := Ready |})
    by (unfold sqlite3_prepare_v2; now rewrite Ck).
  set (kq := {| st_prog := kp |}).
  pose proof (connect_key_names_length kq "CREATE TABLE x(") as Hlen.
  rewrite connect_key_names_spec in *. cbn [fst] in Hlen.
  set (names := map quote_ident (prog_columns (st_prog kq))) in *.
  set (n := sqlite3_column_count (Some kq)) in *.
  cbn [Lifetime.sqlite3_finalize Lifetime.bind].
  destruct (znth argv 5) as [argv5|] eqn:A5; [|exact I]. cbn [Lifetime.bind].
  set (hn := Lifetime.finalized _).
  assert (Hhn : hn = ledger_plus h (3 + n + array_blocks n) 0).
  { subst hn. unfold Lifetime.sqlite3_malloc, array_blocks, Lifetime.sizeof_pointer.
    rewrite Hlen.
    destruct (Z.leb_spec (n * 8) 0), (Z.leb_spec n 0); try lia; cbn [snd];
      rewrite ?taken_plus, prepared_plus, ?taken_plus, finalized_plus, taken_n_plus,
        ?taken_plus, !ledger_plus_plus;
      rewrite <- (ledger_plus_0 h) at 1; rewrite ?ledger_plus_plus;
      apply ledger_plus_eq; lia. }
  clearbody hn. subst hn.
  assert (Hrel : forall tab h0,
            key_sql_col_names tab = names -> nRow_cols tab = n ->
            TableLifetime.release_names tab h0
            = Lifetime.Done (ledger_plus h0 (- n - array_blocks n) 0)).
  { intros tab h0 E1 E2. rewrite release_names_all; rewrite E2; [reflexivity|].
    now rewrite E1. }
  destruct (db_compile db0 (select_from argv5)) as [msg|pp] eqn:Cp.
  { replace (sqlite3_prepare_v2 db0 (select_from argv5)) with (@inl string sqlite3_stmt msg)
      by (unfold sqlite3_prepare_v2; now rewrite Cp).
    macro_balanced Hrel. }
  replace (sqlite3_prepare_v2 db0 (select_from argv5))
    with (@inr string sqlite3_stmt
            {| st_prog := pp; st_binds := repeat SqlNull (prog_nparams pp);
               st_state := Ready |})
    by (unfold sqlite3_prepare_v2; now rewrite Cp).
  set (pq := {| st_prog := pp |}).
  destruct (Z.ltb_spec n (sqlite3_bind_parameter_count (Some pq) - 1)) as [Hgt|Hle].
  { macro_balanced Hrel. }
  cbn [Lifetime.sqlite3_finalize Lifetime.bind].
  destruct (znth argv 4) as [argv4|] eqn:A4; [|exact I]. cbn [Lifetime.bind].
  destruct (db_compile db0 (select_from argv4)) as [msg|cp] eqn:Cc.
  { replace (sqlite3_prepare_v2 db0 (select_from argv4)) with (@inl string sqlite3_stmt msg)
      by (unfold sqlite3_prepare_v2; now rewrite Cc).
    macro_balanced Hrel. }
  replace (sqlite3_prepare_v2 db0 (select_from argv4))
    with (@inr string sqlite3_stmt
            {| st_prog := cp; st_binds := repeat SqlNull (prog_nparams cp);
               st_state := Ready |})
    by (unfold sqlite3_prepare_v2; now rewrite Cc).
  set (cq := {| st_prog := cp |}).
  destruct (negb (sqlite3_column_count (Some cq) =? 2)).
  { macro_balanced Hrel. }
  destruct (sqlite3_get_table db0 (select_from argv4)) as [msg|t].
  { macro_balanced Hrel. }
  destruct (connect_check_unique t) as [r|] eqn:U.
  { apply connect_check_unique_result in U as [->|[[k ->]|[k ->]]]; [exact I| |];
      unfold duplicate_key_error, duplicate_name_error; macro_balanced Hrel. }
  cbn [TableLifetime.sqlite3_free_table Lifetime.sqlite3_free Lifetime.bind
       TableLifetime.cr_tab TableLifetime.cr_create_vtab_sql
       TableLifetime.cr_pivot_query_sql TableLifetime.cr_stmt_col_query].
  rewrite (connect_columns_ledger (select_from argv5) pp (stmt_pending cq));
    [| reflexivity | apply Nat.lt_succ_diag_r | exact Cp].
  rewrite (connect_columns_spec (select_from argv5) pp (stmt_pending cq));
    [| reflexivity | apply Nat.lt_succ_diag_r | exact Cp | reflexivity].
  cbn [db nRow_key nRow_cols nCol_key col_stmt key_sql_full_table_scan key_sql_col_names app].
  change (stmt_pending cq) with (rows_of cp).
  rewrite ?taken_plus, ?prepared_plus, ?finalized_plus, ?given_back_plus, ?ledger_plus_plus.
  match goal with |- context [ledger_plus h ?b ?s] =>
    replace (ledger_plus h b s)
      with (owned_by_table h n (Z.of_nat (List.length (rows_of cp))))
  end.
  2: { unfold owned_by_table, array_blocks.
       destruct (rows_of cp) as [|r0 rs]; cbn [List.length];
         [change (Z.of_nat 0 <=? 0) with true
         |destruct (Z.leb_spec (Z.of_nat (S (List.length rs))) 0); [lia|]];
         cbn iota; apply ledger_plus_eq; lia. }
  rewrite Z.add_0_l.
  destruct (db_declare_vtab db0 _ =? SQLITE_OK).
  - reflexivity.
  - exists kp, cp, pp. split; [|reflexivity].
    exists argv3, argv4, argv5. repeat split; assumption.
Qed.

End TableOwnership.

(** X13.  Every error return of pivotConnect is clean.  Whenever
    pivotConnect ends with an error message, at whichever of its checks,
    PIVOT_VTAB_CONNECT_ERROR has finalized every statement and freed every
    block the call had taken, none of them twice: what is in use after
    the call is what was in use before. *)
Theorem pivotConnect_error_releases_all
    (db0 : sqlite3) (argv : list string) (zErr : string) (h : Lifetime.ledger) :
  pivotConnect db0 argv = ConnectError zErr ->
  TableLifetime.pivotConnect db0 argv h = Some (Lifetime.Done (ConnectError zErr, h)).
Proof.
  intros H. pose proof (pivotConnect_ledger db0 argv h) as L. now rewrite H in L.
Qed.

(** X14.  Creation and pivotDisconnect balance.  A successful
    pivotConnect leaves in use the table object, its full-scan text, one
    name per row-key column and their array, one prepared statement per
    pivot column and their array, and nothing else; pivotDisconnect on
    that table object finalizes each of these statements and frees each
    of these blocks, reading its two arrays within their bounds: what is
    in use afterwards is what was in use before the creation. *)
Theorem pivotConnect_then_pivotDisconnect_releases_all
    (db0 : sqlite3) (argv : list string) (tab : pivot_vtab) (schema : string)
    (h : Lifetime.ledger) :
  pivotConnect db0 argv = Connected tab schema ->
  exists h1,
    TableLifetime.pivotConnect db0 argv h
    = Some (Lifetime.Done (Connected tab schema, h1))
    /\ Lifetime.statements h1 = Lifetime.statements h + nCol_key tab
    /\ Lifetime.blocks h1
       = Lifetime.blocks h + 2 + nRow_cols tab
         + array_blocks (nRow_cols tab) + array_blocks (nCol_key tab)
    /\ TableLifetime.pivotDisconnect tab h1 = Lifetime.Done h.
Proof.
  intros H. pose proof (pivotConnect_ledger db0 argv h) as L. rewrite H in L.
  destruct (pivotConnect_Connected _ _ _ _ H)
    as (kp & cp & pp & _ & _ & _ & Hn & Hc & _ & _ & Hk & Hs & _).
  exists (owned_by_table h (nRow_cols tab) (nCol_key tab)).
  split; [exact L|].
  split; [unfold owned_by_table, ledger_plus; cbn [Lifetime.statements]; lia|].
  split; [unfold owned_by_table, ledger_plus; cbn [Lifetime.blocks]; lia|].
  unfold TableLifetime.pivotDisconnect.
  rewrite (release_col_stmt_all tab
             (map (fun r => Schema.binding pp (Schema.cell r 0)) (Schema.rows_of cp))).
  - cbn [Lifetime.bind]. rewrite release_names_all.
    + cbn [Lifetime.bind]. unfold owned_by_table.
      rewrite !given_back_plus, !ledger_plus_plus, ledger_plus_zero by lia. reflexivity.
    + rewrite Hn, Hc. unfold Schema.key_names. now rewrite length_map.
  - rewrite Hs. unfold Schema.bindings. now rewrite map_map.
  - now rewrite Hk, length_map.
Qed.

(** X15.  A refused declaration leaks the table.  When
    sqlite3_declare_vtab does not answer SQLITE_OK, pivotConnect returns
    that answer without PIVOT_VTAB_CONNECT_ERROR: the table object, its
    full-scan text, its names and the statements prepared for the pivot
    columns, one per row of the column-definition query, stay in use,
    and the engine, which calls no destructor after a failed creation,
    is given no error message. *)
Theorem pivotConnect_refused_declaration_releases_nothing
    (db0 : sqlite3) (argv : list string) (rc0 : Z) (schema : string)
    (h : Lifetime.ledger) :
  pivotConnect db0 argv = DeclareRefused rc0 schema ->
  exists kp cp pp h1,
    Schema.queries db0 argv kp cp pp
    /\ TableLifetime.pivotConnect db0 argv h
       = Some (Lifetime.Done (DeclareRefused rc0 schema, h1))
    /\ Lifetime.statements h1
       = Lifetime.statements h + Z.of_nat (List.length (Schema.rows_of cp))
    /\ Lifetime.blocks h1
       >= Lifetime.blocks h + 2 + Z.of_nat (List.length (prog_columns kp)).
Proof.
  intros H. pose proof (pivotConnect_ledger db0 argv h) as L. rewrite H in L.
  destruct L as (kp & cp & pp & Hq & L).
  exists kp, cp, pp. eexists. split; [exact Hq|]. split; [exact L|].
  split; [unfold owned_by_table, ledger_plus; cbn [Lifetime.statements]; lia|].
  unfold owned_by_table, ledger_plus, array_blocks. cbn [Lifetime.blocks].
  destruct (_ <=? 0), (_ <=? 0); lia.
Qed.


(* ================================================================== *)
(** * The usage example of the source, and the claims on concrete inputs *)
(* ================================================================== *)

(** pivotConnect on the tables of the header comment of pivot_vtab.c. *)
Lemma readme_connect :
  pivotConnect Sample.readme_db Sample.readme_args
  = Connected Sample.readme_tab Sample.readme_schema.
Proof. vm_compute. reflexivity. Qed.

Lemma readme_queries :
  Schema.queries Sample.readme_db Sample.readme_args
    (Sample.key_prog Sample.table_r) (Sample.col_prog Sample.table_c)
    (Sample.pivot_prog Sample.table_r Sample.table_c).
Proof.
  exists Sample.key_query, Sample.col_query, Sample.pivot_query.
  repeat split; reflexivity.
Qed.

Lemma wide_connect :
  pivotConnect Sample.wide_db Sample.wide_args
  = Connected Sample.wide_tab Sample.wide_schema.
Proof. vm_compute. reflexivity. Qed.

(** The uniqueness validation reads the header row and the data rows
    1 .. nRow-1 of the table only: whatever stands in the last data row,
    its verdict is the same. *)
Lemma first_hit_ext {A E} (f g : A -> option E) l :
  (forall x, In x l -> f x = g x) -> first_hit f l = first_hit g l.
Proof.
  induction l as [|x l IH]; intros H; cbn [first_hit]; [reflexivity|].
  rewrite <- (H x (or_introl eq_refl)). destruct (f x); [reflexivity|].
  apply IH. intros y Hy. apply H. now right.
Qed.

Lemma znth_app_l {A} (a b : list A) i :
  i < Z.of_nat (List.length a) -> znth (a ++ b) i = znth a i.
Proof.
  intros H. unfold znth. destruct (Z.ltb_spec i 0); [reflexivity|].
  apply nth_error_app1. lia.
Qed.

Lemma connect_check_unique_ignores_last_row
    (head last last' : list (option string)) (n : Z) :
  Z.of_nat (List.length head) = 2 * n ->
  connect_check_unique {| azData := head ++ last; nRow := n; nCol := 2 |}
  = connect_check_unique {| azData := head ++ last'; nRow := n; nCol := 2 |}.
Proof.
  intros Hl. unfold connect_check_unique. cbn [nRow].
  destruct (1 <? n); [|reflexivity].
  apply first_hit_ext. intros i Hi. apply in_zrange in Hi.
  apply first_hit_ext. intros j Hj. apply in_zrange in Hj.
  unfold connect_check_pair. cbn [azData nCol].
  rewrite !(znth_app_l head) by lia. reflexivity.
Qed.

(** C1 at the failing inputs.  Two column-definition rows with the same
    column key are accepted: the table is created with two bindings for
    the key 1.  So are three rows whose last row repeats the key of the
    first.  The same duplicate in the first two of three rows is refused
    with the error that names it. *)
Theorem pivotConnect_misses_duplicate_in_last_row :
  (exists tab,
     pivotConnect Sample.dup_key_db Sample.readme_args
     = Connected tab (Schema.create_table (map quote_ident ["r_id"; "a"; "b"]))
     /\ map (option_map st_binds) (col_stmt tab)
        = [Some [SqlNull; SqlInteger 1]; Some [SqlNull; SqlInteger 1]])
  /\ (exists tab,
        pivotConnect Sample.dup_last_db Sample.readme_args
        = Connected tab (Schema.create_table (map quote_ident ["r_id"; "a"; "b"; "c"])))
  /\ pivotConnect Sample.dup_first_db Sample.readme_args
     = Schema.duplicate_key_error "1".
Proof.
  split; [|split].
  - eexists. split; vm_compute; reflexivity.
  - eexists. vm_compute. reflexivity.
  - vm_compute. reflexivity.
Qed.

(** C2, counterexample.  A key query with two result columns and a pivot
    query with two parameters: the parameter count minus one is not the
    number of row-key columns, and creation succeeds. *)
Lemma pivotConnect_accepts_fewer_parameters :
  sqlite3_bind_parameter_count
    (stmt_ptr (sqlite3_prepare_v2 Sample.wide_db (select_from Sample.pivot_query))) - 1
  <> sqlite3_column_count
       (stmt_ptr (sqlite3_prepare_v2 Sample.wide_db (select_from Sample.wide_key_query)))
  /\ pivotConnect Sample.wide_db Sample.wide_args
     = Connected Sample.wide_tab Sample.wide_schema
  /\ pivotConnect Sample.wide_db Sample.wide_args <> Schema.bound_parameter_error.
Proof.
  split; [vm_compute; discriminate|]. split; [exact wide_connect|].
  rewrite wide_connect. discriminate.
Qed.

(** C3, on the usage example: the scan returns the three rows of the
    header comment. *)
Lemma full_scan_enumerates_pivot_rows_witness :
  (exists tab' cur',
     scan 4 (nRow_cols Sample.readme_tab + nCol_key Sample.readme_tab) Sample.readme_tab
       [] [] []
     = Some (tab', cur',
             Scan.pivot_rows (Sample.key_prog Sample.table_r)
               (Sample.col_prog Sample.table_c)
               (Sample.pivot_prog Sample.table_r Sample.table_c))
     /\ stmt cur' = None)
  /\ (prog_nparams (Sample.pivot_prog Sample.table_r Sample.table_c)
      = S (List.length (prog_columns (Sample.key_prog Sample.table_r))) ->
      Scan.pivot_rows (Sample.key_prog Sample.table_r) (Sample.col_prog Sample.table_c)
        (Sample.pivot_prog Sample.table_r Sample.table_c)
      = map (fun key =>
               key ++ map (fun c =>
                             first_value
                               (prog_run (Sample.pivot_prog Sample.table_r Sample.table_c)
                                  (Scan.key_then_column key (Schema.cell c 0))))
                        (Schema.rows_of (Sample.col_prog Sample.table_c)))
          (Schema.rows_of (Sample.key_prog Sample.table_r))).
Proof.
  apply (full_scan_enumerates_pivot_rows Sample.readme_db Sample.readme_args
           Sample.readme_tab Sample.readme_schema).
  - vm_compute. reflexivity.
  - exists Sample.key_query, Sample.col_query, Sample.pivot_query.
    repeat split; reflexivity.
  - reflexivity.
  - repeat constructor.
  - vm_compute. lia.
Defined.

(** C3, counterexample.  The usage example with a key query whose run
    fails after its three rows is created like the usage example.  Its
    full scan takes the failing step for a fourth row, of NULL values
    only, after which xEof answers false; no step answers SQLITE_DONE, and
    the scan does not end, whatever the fuel.  And on the table with two
    row-key columns and a cell query of two parameters, the cells of a
    row are those of the cell query bound to the first row-key value and
    the column key: the second row-key value is bound to nothing. *)
Lemma full_scan_of_failing_key_query_never_ends :
  pivotConnect Sample.failing_db Sample.readme_args
  = Connected Sample.failing_tab Sample.readme_schema
  /\ Schema.rows_of Sample.failing_key_prog
     = [[SqlInteger 1]; [SqlInteger 2]; [SqlInteger 3]]
  /\ (exists cur tab',
        pivotNext_times 3 Sample.failing_tab
          (pivotFilter Sample.failing_tab pivotOpen 0 (select_from Sample.key_query) [])
        = Some cur
        /\ rc cur = SQLITE_ERROR
        /\ fst (pivotEof Sample.failing_tab cur) = 0
        /\ read_columns Sample.failing_tab cur (zrange 0 5)
           = Some (tab', [SqlNull; SqlNull; SqlNull; SqlNull; SqlNull]))
  /\ (forall fuel,
        scan fuel (nRow_cols Sample.failing_tab + nCol_key Sample.failing_tab)
          Sample.failing_tab [] [] []
        = None)
  /\ pivotConnect Sample.wide_db Sample.wide_args
     = Connected Sample.wide_tab Sample.wide_schema
  /\ (exists tab' cur',
        scan 3 (nRow_cols Sample.wide_tab + nCol_key Sample.wide_tab) Sample.wide_tab
          [] [] []
        = Some (tab', cur',
                [[SqlInteger 1; SqlText "x";
                  SqlText "a1"; SqlText "b1"; SqlText "c1"; SqlText "d1"];
                 [SqlInteger 2; SqlText "y";
                  SqlText "a2"; SqlText "b2"; SqlText "c2"; SqlText "d2"]]))
  /\ Scan.cell_binds (Sample.pivot_prog Sample.table_r Sample.table_c)
       [SqlInteger 1; SqlText "x"] (SqlInteger 1)
     = [SqlInteger 1; SqlInteger 1]
  /\ Scan.key_then_column [SqlInteger 1; SqlText "x"] (SqlInteger 1)
     = [SqlInteger 1; SqlText "x"; SqlInteger 1].
Proof.
  split; [vm_compute; reflexivity|]. split; [reflexivity|]. split.
  { eexists _, _. repeat split; vm_compute; reflexivity. }
  split.
  { intros fuel. unfold scan, pivotBestIndex.
    cbn [index_info_init aConstraint aOrderBy plan_constraints plan_orderbys idxStr idxNum
         ps_tab key_sql_filtered].
    now apply (filter_scan_never_ends Sample.failing_tab Sample.failing_key_prog _ _ []
                 Err.ERROR). }
  split; [exact wide_connect|]. split.
  { eexists _, _. vm_compute. reflexivity. }
  split; reflexivity.
Qed.

Lemma readme_pivot_rows :
  Scan.pivot_rows (Sample.key_prog Sample.table_r) (Sample.col_prog Sample.table_c)
    (Sample.pivot_prog Sample.table_r Sample.table_c)
  = Sample.readme_rows.
Proof. vm_compute. reflexivity. Qed.

(** X16, on the sample request. *)
Lemma pivotBestIndex_consumes_eligible_constraints_witness :
  exists info,
    pivotBestIndex Sample.readme_tab
      (index_info_init Sample.request_constraints Sample.request_orderby)
    = Some (Sample.readme_tab, info)
    /\ idxStr info
       = Some (key_sql_full_table_scan Sample.readme_tab
                 +++ Plan.where_clause Sample.readme_tab Sample.request_constraints
                 +++ Plan.order_clause Sample.readme_tab Sample.request_orderby)
    /\ List.length (aConstraintUsage info) = List.length Sample.request_constraints
    /\ forall k c,
         nth_error Sample.request_constraints k = Some c ->
         nth_error (aConstraintUsage info) k
         = Some (if Plan.consumed Sample.readme_tab c
                 then {| Usage.argvIndex :=
                           1 + Z.of_nat (List.length
                                           (filter (Plan.consumed Sample.readme_tab)
                                              (firstn k Sample.request_constraints)));
                         Usage.omit := 1 |}
                 else {| Usage.argvIndex := 0; Usage.omit := 0 |}).
Proof.
  apply pivotBestIndex_consumes_eligible_constraints.
  - reflexivity.
  - split; repeat constructor; intros _; vm_compute; discriminate.
Defined.

(** C4 at the failing input.  A usable equality on the rowid, for which
    the engine sends the column index -1, is a constraint the claim counts
    as consumed: its column index is below the number of row-key columns
    and its operator has a textual form.  The planner sets out to consume
    it and reads entry -1 of its names array, before the start of that
    array: no plan is returned. *)
Theorem pivotBestIndex_rowid_constraint_no_plan :
  map Constraint.iColumn MoreSamples.on_rowid = [-1]
  /\ filter (Plan.consumed Sample.readme_tab) MoreSamples.on_rowid = MoreSamples.on_rowid
  /\ pivotBestIndex Sample.readme_tab (index_info_init MoreSamples.on_rowid []) = None.
Proof. repeat split; vm_compute; reflexivity. Qed.

(** The plan of the sample request, evaluated. *)
Lemma readme_plan_usage :
  map (fun u => (Usage.argvIndex u, Usage.omit u))
    (aConstraintUsage (Sample.readme_plan Sample.request_constraints Sample.request_orderby))
  = [(1, 1); (0, 0); (0, 0); (2, 1); (0, 0)]
  /\ idxStr (Sample.readme_plan Sample.request_constraints Sample.request_orderby)
     = Some (select_from Sample.key_query
               +++ nl +++ " WHERE " +++ quote_ident "r_id" +++ " = ? AND "
               +++ quote_ident "r_id" +++ " < ?"
               +++ nl +++ " ORDER BY " +++ quote_ident "r_id" +++ " DESC")
  /\ orderByConsumed (Sample.readme_plan Sample.request_constraints Sample.request_orderby) = 1.
Proof. repeat split; vm_compute; reflexivity. Qed.

(** X17, on the sample request. *)
Lemma pivotBestIndex_orders_by_eligible_terms_witness :
  exists info,
    pivotBestIndex Sample.readme_tab
      (index_info_init Sample.request_constraints Sample.request_orderby)
    = Some (Sample.readme_tab, info)
    /\ match filter (Plan.ordered Sample.readme_tab) Sample.request_orderby with
       | [] =>
           idxStr info
           = Some (key_sql_full_table_scan Sample.readme_tab
                     +++ Plan.where_clause Sample.readme_tab Sample.request_constraints)
           /\ orderByConsumed info = 0
       | terms =>
           idxStr info
           = Some (key_sql_full_table_scan Sample.readme_tab
                     +++ Plan.where_clause Sample.readme_tab Sample.request_constraints
                     +++ nl +++ " ORDER BY "
                     +++ join ", " (map (Plan.order_term Sample.readme_tab) terms))
           /\ orderByConsumed info = 1
       end.
Proof.
  apply pivotBestIndex_orders_by_eligible_terms.
  - reflexivity.
  - split; repeat constructor; intros _; vm_compute; discriminate.
Defined.

(** C5 at the failing input.  An ordering by the rowid, for which the
    engine sends the column index -1, is a term the claim counts as
    eligible: its column index is below the number of row-key columns.
    The planner sets out to write it into the ORDER BY clause and reads
    entry -1 of its names array, before the start of that array: no plan
    is returned, no clause is written and nothing is reported. *)
Theorem pivotBestIndex_rowid_ordering_no_plan :
  map OrderBy.iColumn MoreSamples.by_rowid = [-1]
  /\ filter (Plan.ordered Sample.readme_tab) MoreSamples.by_rowid = MoreSamples.by_rowid
  /\ pivotBestIndex Sample.readme_tab (index_info_init [] MoreSamples.by_rowid) = None.
Proof. repeat split; vm_compute; reflexivity. Qed.

(** C6, on the usage example. *)
Lemma pivotConnect_declares_schema_witness :
  exists kp cp pp,
    Schema.queries Sample.readme_db Sample.readme_args kp cp pp
    /\ key_sql_col_names Sample.readme_tab = Schema.key_names kp
    /\ nRow_cols Sample.readme_tab = Z.of_nat (List.length (prog_columns kp))
    /\ nCol_key Sample.readme_tab = Z.of_nat (List.length (Schema.rows_of cp))
    /\ Z.of_nat (List.length (Schema.declared_columns kp cp))
       = nRow_cols Sample.readme_tab + nCol_key Sample.readme_tab
    /\ col_stmt Sample.readme_tab = Schema.bindings pp cp
    /\ (prog_columns kp <> [] ->
        Sample.readme_schema = Schema.create_table (Schema.declared_columns kp cp)).
Proof.
  apply (pivotConnect_declares_schema Sample.readme_db Sample.readme_args).
  vm_compute. reflexivity.
Defined.

(** C7, counterexample.  The third xNext of a scan of the usage example
    finds no further row: the step has answered SQLITE_DONE and the cursor
    still holds its statement.  An advance finds no row either when its
    statement could not be prepared, or when its step fails: the cursor is
    then not exhausted, it holds a key of NULL values and xEof answers
    false. *)
Lemma exhausted_cursor_statement_still_open :
  pivotNext Sample.readme_tab (Sample.readme_cursor 2) = Some (Sample.readme_cursor 3)
  /\ exhausted (Sample.readme_cursor 3)
  /\ stmt (Sample.readme_cursor 3) <> None
  /\ no_further_row (stmt (Sample.readme_cursor 2))
  /\ (let cur := pivotFilter Sample.readme_tab pivotOpen 0 "SELECT" [] in
      db_compile Sample.readme_db "SELECT" = inl "syntax error"
      /\ stmt cur = None
      /\ rc cur = SQLITE_MISUSE
      /\ key_array cur = [Some SqlNull]
      /\ fst (pivotEof Sample.readme_tab cur) = 0)
  /\ (exists cur,
        pivotNext_times 3 Sample.failing_tab
          (pivotFilter Sample.failing_tab pivotOpen 0 (select_from Sample.key_query) [])
        = Some cur
        /\ rc cur = SQLITE_ERROR
        /\ key_array cur = [Some SqlNull]
        /\ fst (pivotEof Sample.failing_tab cur) = 0).
Proof.
  split; [vm_compute; reflexivity|]. split; [vm_compute; reflexivity|].
  split; [vm_compute; discriminate|]. split.
  { eexists. split; [vm_compute; reflexivity|]. split; reflexivity. }
  split.
  { cbv zeta. repeat split; vm_compute; reflexivity. }
  eexists. repeat split; vm_compute; reflexivity.
Qed.

(** C7, on the same advance. *)
Lemma exhausted_cursor_finalized_by_eof_witness :
  (fst (pivotEof Sample.readme_tab (Sample.readme_cursor 3)) <> 0
   <-> no_further_row (stmt (Sample.readme_cursor 2)))
  /\ (no_further_row (stmt (Sample.readme_cursor 2)) ->
      exhausted (Sample.readme_cursor 3)
      /\ no_key_retained (Sample.readme_cursor 3)
      /\ stmt (Sample.readme_cursor 3) <> None
      /\ fst (pivotEof Sample.readme_tab (Sample.readme_cursor 3)) = 1
      /\ stmt (snd (pivotEof Sample.readme_tab (Sample.readme_cursor 3))) = None).
Proof.
  apply exhausted_cursor_finalized_by_eof.
  apply (advance_next _ (Sample.readme_cursor 2)). vm_compute. reflexivity.
Defined.

(** C8, on the plans without constraint and with the sample constraints. *)
Lemma pivotBestIndex_cost_decreases_witness :
  SFltb (estimatedCost (Sample.readme_plan Sample.request_constraints []))
    (estimatedCost (Sample.readme_plan [] [])) = true
  /\ estimatedRows (Sample.readme_plan [] []) = 10
  /\ estimatedRows (Sample.readme_plan Sample.request_constraints []) = 10.
Proof.
  apply (pivotBestIndex_cost_decreases Sample.readme_tab [] Sample.request_constraints [] []
           Sample.readme_tab Sample.readme_tab).
  - vm_compute. reflexivity.
  - vm_compute. reflexivity.
  - vm_compute. lia.
  - vm_compute. reflexivity.
Defined.

(** The two costs, evaluated: 2147483647 and 2147483647 / 3. *)
Lemma readme_plan_costs :
  estimatedCost (Sample.readme_plan [] []) = S754_finite false 9007199250546688 (-22)
  /\ estimatedCost (Sample.readme_plan Sample.request_constraints [])
     = S754_finite false 6004799500364459 (-23).
Proof. split; vm_compute; reflexivity. Qed.

(** C10, on the wide table: the label of the row never reaches the cell
    query, which is bound to the row id and the column key. *)
Lemma pivotColumn_binds_leading_key_values_witness :
  exists tab',
    pivotColumn Sample.wide_tab (Sample.wide_cursor [SqlInteger 2; SqlText "y"]) 3
    = Some (tab', SqlText "b2")
    /\ znth (col_stmt tab') (3 - nRow_cols Sample.wide_tab)
       = Some (Some (idle_stmt (Sample.pivot_prog Sample.table_r Sample.table_c)
                       [SqlInteger 2; SqlInteger 2]))
    /\ forall cur2 key2,
         pivot_key cur2 = Some (map Some key2) ->
         firstn 1 key2 = firstn 1 [SqlInteger 2; SqlText "y"] ->
         pivotColumn Sample.wide_tab cur2 3
         = pivotColumn Sample.wide_tab (Sample.wide_cursor [SqlInteger 2; SqlText "y"]) 3.
Proof.
  apply (pivotColumn_binds_leading_key_values Sample.wide_tab
           (Sample.wide_cursor [SqlInteger 2; SqlText "y"])
           [SqlInteger 2; SqlText "y"] 3
           (Sample.pivot_prog Sample.table_r Sample.table_c) [SqlNull; SqlInteger 2]).
  - reflexivity.
  - vm_compute. discriminate.
  - reflexivity.
  - vm_compute. discriminate.
  - vm_compute. discriminate.
Defined.
(* ================================================================== *)
(** * The further properties on concrete inputs *)
(* ================================================================== *)

(** X1, on requests that constrain and order by the rowid. *)
Lemma pivotBestIndex_rowid_out_of_bounds_witness :
  pivotBestIndex Sample.readme_tab (index_info_init MoreSamples.on_rowid []) = None
  /\ pivotBestIndex Sample.readme_tab (index_info_init [] MoreSamples.by_rowid) = None.
Proof.
  split.
  - apply pivotBestIndex_rowid_out_of_bounds; [vm_compute; discriminate|].
    left. constructor. repeat split; vm_compute; try discriminate; reflexivity.
  - apply pivotBestIndex_rowid_out_of_bounds; [vm_compute; discriminate|].
    right. constructor. reflexivity.
Defined.

(** X7, on a column-definition query whose first row has a NULL key. *)
Lemma pivotConnect_null_column_key_undefined_witness :
  pivotConnect MoreSamples.null_key_db Sample.readme_args = ConnectUndefined.
Proof.
  apply (pivotConnect_null_column_key_undefined MoreSamples.null_key_db Sample.readme_args
           (Sample.key_prog Sample.table_r) MoreSamples.null_key_prog
           (Sample.pivot_prog Sample.table_r Sample.table_c)
           [SqlNull; SqlText "a"] [SqlInteger 2; SqlText "b"] [SqlInteger 3; SqlText "c"] []).
  - exists Sample.key_query, Sample.col_query, Sample.pivot_query.
    repeat split; reflexivity.
  - vm_compute. discriminate.
  - reflexivity.
  - reflexivity.
  - left. reflexivity.
Defined.

(** The connection of the filtered sample creates the same table. *)
Lemma filtered_connect :
  pivotConnect MoreSamples.filtered_db Sample.readme_args
  = Connected MoreSamples.filtered_tab Sample.readme_schema.
Proof. vm_compute. reflexivity. Qed.

Lemma filtered_queries :
  Schema.queries MoreSamples.filtered_db Sample.readme_args
    (Sample.key_prog Sample.table_r) (Sample.col_prog Sample.table_c)
    (Sample.pivot_prog Sample.table_r Sample.table_c).
Proof.
  exists Sample.key_query, Sample.col_query, Sample.pivot_query.
  repeat split; reflexivity.
Qed.

Lemma max_connect :
  pivotConnect MoreSamples.max_db MoreSamples.max_args
  = Connected MoreSamples.max_tab Sample.readme_schema.
Proof. vm_compute. reflexivity. Qed.

(** X2, on the usage example: the third row of the scan has rowid 3. *)
Lemma pivotRowid_counts_rows_of_scan_witness :
  pivotRowid (Sample.readme_cursor 2) = Z.of_nat 2 + 1.
Proof.
  apply (pivotRowid_counts_rows_of_scan Sample.readme_tab pivotOpen (Sample.readme_cursor 2)
           0 (select_from Sample.key_query) [] 2).
  vm_compute. reflexivity.
Defined.

(** X3, on the usage example with a plan text the connection rejects. *)
Lemma pivotFilter_unprepared_scan_never_ends_witness :
  exists cur',
    pivotNext_times 5 Sample.readme_tab
      (pivotFilter Sample.readme_tab pivotOpen 0 "SELECT" []) = Some cur'
    /\ stmt cur' = None
    /\ fst (pivotEof Sample.readme_tab cur') = 0
    /\ key_array cur' = map (fun _ => Some SqlNull) (zrange 0 (nRow_cols Sample.readme_tab)).
Proof.
  apply (pivotFilter_unprepared_scan_never_ends Sample.readme_tab pivotOpen 0 "SELECT"
           "syntax error" []).
  reflexivity.
Defined.

(** X4, on the usage example: the column index 4 is declared, 5 is not. *)
Lemma pivotColumn_defined_on_declared_columns_witness :
  (pivotColumn Sample.readme_tab (Sample.readme_cursor 1) 4 <> None
   <-> 0 <= 4 < nRow_cols Sample.readme_tab + nCol_key Sample.readme_tab)
  /\ (pivotColumn Sample.readme_tab (Sample.readme_cursor 1) 5 <> None
      <-> 0 <= 5 < nRow_cols Sample.readme_tab + nCol_key Sample.readme_tab).
Proof.
  split;
    apply (pivotColumn_defined_on_declared_columns Sample.readme_db Sample.readme_args
             Sample.readme_tab Sample.readme_schema (Sample.readme_cursor 1)
             [SqlInteger 2]);
    vm_compute; reflexivity.
Defined.

(** X5, on a pivot query without parameter. *)
Lemma pivotColumn_without_parameters_witness :
  pivotColumn MoreSamples.max_tab (Sample.wide_cursor [SqlInteger 2]) 3
  = Some (MoreSamples.max_tab, first_value (prog_run MoreSamples.max_prog [])).
Proof.
  apply (pivotColumn_without_parameters MoreSamples.max_db MoreSamples.max_args
           MoreSamples.max_tab Sample.readme_schema
           (Sample.key_prog Sample.table_r) (Sample.col_prog Sample.table_c)
           MoreSamples.max_prog (Sample.wide_cursor [SqlInteger 2]) [SqlInteger 2] 3).
  - vm_compute. reflexivity.
  - exists Sample.key_query, Sample.col_query, MoreSamples.max_query.
    repeat split; reflexivity.
  - reflexivity.
  - reflexivity.
  - vm_compute. split; [discriminate | reflexivity].
Defined.

(** X6, on the first two rows of the usage example's column query. *)
Lemma pivotConnect_unique_before_last_row_witness :
  exists ki kj,
    value_text (Schema.cell [SqlInteger 1; SqlText "a"] 0) = Some ki
    /\ value_text (Schema.cell [SqlInteger 2; SqlText "b"] 0) = Some kj
    /\ ki <> kj
    /\ sqlite3_stricmp (value_text (Schema.cell [SqlInteger 1; SqlText "a"] 1))
         (value_text (Schema.cell [SqlInteger 2; SqlText "b"] 1)) <> 0.
Proof.
  apply (pivotConnect_unique_before_last_row Sample.readme_db Sample.readme_args
           Sample.readme_tab Sample.readme_schema
           (Sample.key_prog Sample.table_r) (Sample.col_prog Sample.table_c)
           (Sample.pivot_prog Sample.table_r Sample.table_c) 0 1).
  - vm_compute. reflexivity.
  - exists Sample.key_query, Sample.col_query, Sample.pivot_query.
    repeat split; reflexivity.
  - lia.
  - vm_compute. lia.
  - reflexivity.
  - reflexivity.
Defined.

(** X8, on the usage example under the plan of an equality on the row
    id: the scan for the value 2 reports the second row. *)
Lemma planned_scan_enumerates_pivot_rows_witness :
  exists tab' cur',
    scan 2 (nRow_cols MoreSamples.filtered_tab + nCol_key MoreSamples.filtered_tab)
      MoreSamples.filtered_tab MoreSamples.by_id [] [SqlInteger 2]
    = Some (tab', cur',
            map (Scan.pivot_row (Sample.col_prog Sample.table_c)
                   (Sample.pivot_prog Sample.table_r Sample.table_c))
              (prog_run (MoreSamples.by_id_prog Sample.table_r)
                 (filter_binds (MoreSamples.by_id_prog Sample.table_r) [SqlInteger 2])))
    /\ stmt cur' = None.
Proof.
  refine (planned_scan_enumerates_pivot_rows MoreSamples.filtered_db Sample.readme_args
            MoreSamples.filtered_tab Sample.readme_schema (Sample.key_prog Sample.table_r)
            (Sample.col_prog Sample.table_c)
            (Sample.pivot_prog Sample.table_r Sample.table_c)
            (MoreSamples.by_id_prog Sample.table_r) MoreSamples.by_id [] [SqlInteger 2] 2
            _ _ _ _ _ _).
  - vm_compute. reflexivity.
  - exists Sample.key_query, Sample.col_query, Sample.pivot_query.
    repeat split; reflexivity.
  - split; repeat constructor; intros _; vm_compute; discriminate.
  - vm_compute. reflexivity.
  - repeat constructor.
  - vm_compute. lia.
Defined.

Lemma filtered_rows :
  map (Scan.pivot_row (Sample.col_prog Sample.table_c)
         (Sample.pivot_prog Sample.table_r Sample.table_c))
    (prog_run (MoreSamples.by_id_prog Sample.table_r)
       (filter_binds (MoreSamples.by_id_prog Sample.table_r) [SqlInteger 2]))
  = [[SqlInteger 2; SqlText "a2"; SqlText "b2"; SqlText "c2"; SqlText "d2"]].
Proof. vm_compute. reflexivity. Qed.

(** X9, on the usage example: the scan for the row id 2, then a full
    scan. *)
Lemma scan_after_scan_enumerates_pivot_rows_witness :
  exists tab1 cur1 tab2 cur2,
    scan 4 (nRow_cols MoreSamples.filtered_tab + nCol_key MoreSamples.filtered_tab)
      MoreSamples.filtered_tab MoreSamples.by_id [] [SqlInteger 2]
    = Some (tab1, cur1,
            map (Scan.pivot_row (Sample.col_prog Sample.table_c)
                   (Sample.pivot_prog Sample.table_r Sample.table_c))
              (prog_run (MoreSamples.by_id_prog Sample.table_r)
                 (filter_binds (MoreSamples.by_id_prog Sample.table_r) [SqlInteger 2])))
    /\ scan 4 (nRow_cols MoreSamples.filtered_tab + nCol_key MoreSamples.filtered_tab)
         tab1 [] [] []
       = Some (tab2, cur2,
               map (Scan.pivot_row (Sample.col_prog Sample.table_c)
                      (Sample.pivot_prog Sample.table_r Sample.table_c))
                 (prog_run (Sample.key_prog Sample.table_r)
                    (filter_binds (Sample.key_prog Sample.table_r) [])))
    /\ Forall (fun p => exists st, p = Some st /\ st_state st = Ready) (col_stmt tab1).
Proof.
  apply (scan_after_scan_enumerates_pivot_rows MoreSamples.filtered_db Sample.readme_args
           MoreSamples.filtered_tab Sample.readme_schema (Sample.key_prog Sample.table_r)).
  - vm_compute. reflexivity.
  - exists Sample.key_query, Sample.col_query, Sample.pivot_query.
    repeat split; reflexivity.
  - split; repeat constructor; intros _; vm_compute; discriminate.
  - split; constructor.
  - vm_compute. reflexivity.
  - vm_compute. reflexivity.
  - reflexivity.
  - reflexivity.
  - repeat constructor.
  - vm_compute. lia.
  - vm_compute. lia.
Defined.

(** X10, on the usage example: the scan for the row id 2 reads its row
    and releases all it allocated; closing its cursor reads the freed
    key array. *)
Lemma scan_to_end_then_close_reads_freed_key_witness :
  (exists tab' cur',
     Lifetime.scan 2 (nRow_cols MoreSamples.filtered_tab + nCol_key MoreSamples.filtered_tab)
       MoreSamples.filtered_tab MoreSamples.by_id_text [SqlInteger 2]
       {| Lifetime.blocks := 0; Lifetime.statements := 0 |}
     = Some (Lifetime.Done
               (tab', cur',
                map (Scan.pivot_row (Sample.col_prog Sample.table_c)
                       (Sample.pivot_prog Sample.table_r Sample.table_c))
                  (prog_run (MoreSamples.by_id_prog Sample.table_r)
                     (filter_binds (MoreSamples.by_id_prog Sample.table_r) [SqlInteger 2])),
                ledger_plus {| Lifetime.blocks := 0; Lifetime.statements := 0 |} 1 0))
     /\ Lifetime.pivot_key cur' = Lifetime.Stale
     /\ Lifetime.stmt cur' = Lifetime.Null)
  /\ Lifetime.session 2
       (nRow_cols MoreSamples.filtered_tab + nCol_key MoreSamples.filtered_tab)
       MoreSamples.filtered_tab MoreSamples.by_id_text [SqlInteger 2]
       {| Lifetime.blocks := 0; Lifetime.statements := 0 |}
     = Some (Lifetime.Fault Lifetime.UseAfterFree).
Proof.
  refine (scan_to_end_then_close_reads_freed_key MoreSamples.filtered_db Sample.readme_args
            MoreSamples.filtered_tab Sample.readme_schema (Sample.key_prog Sample.table_r)
            (Sample.col_prog Sample.table_c)
            (Sample.pivot_prog Sample.table_r Sample.table_c)
            (MoreSamples.by_id_prog Sample.table_r) MoreSamples.by_id_text [SqlInteger 2] 2
            {| Lifetime.blocks := 0; Lifetime.statements := 0 |} _ _ _ _ _ _ _).
  - vm_compute. reflexivity.
  - exists Sample.key_query, Sample.col_query, Sample.pivot_query.
    repeat split; reflexivity.
  - discriminate.
  - vm_compute. reflexivity.
  - repeat constructor.
  - vm_compute. discriminate.
  - vm_compute. lia.
Defined.

(** X11, on the usage example: no row has the id 7. *)
Lemma scan_without_row_leaks_key_array_witness :
  Lifetime.session 1
    (nRow_cols MoreSamples.filtered_tab + nCol_key MoreSamples.filtered_tab)
    MoreSamples.filtered_tab MoreSamples.by_id_text [SqlInteger 7]
    {| Lifetime.blocks := 0; Lifetime.statements := 0 |}
  = Some (Lifetime.Done
            (MoreSamples.filtered_tab, [],
             ledger_plus {| Lifetime.blocks := 0; Lifetime.statements := 0 |} 1 0)).
Proof.
  refine (scan_without_row_leaks_key_array MoreSamples.filtered_db Sample.readme_args
            MoreSamples.filtered_tab Sample.readme_schema (Sample.key_prog Sample.table_r)
            (Sample.col_prog Sample.table_c)
            (Sample.pivot_prog Sample.table_r Sample.table_c)
            (MoreSamples.by_id_prog Sample.table_r) MoreSamples.by_id_text [SqlInteger 7] 1
            {| Lifetime.blocks := 0; Lifetime.statements := 0 |} _ _ _ _ _ _).
  - vm_compute. reflexivity.
  - exists Sample.key_query, Sample.col_query, Sample.pivot_query.
    repeat split; reflexivity.
  - discriminate.
  - vm_compute. reflexivity.
  - vm_compute. reflexivity.
  - lia.
Defined.

(** The usage example with the key query that fails after its rows, the
    allocator made explicit: twenty turns of the scan loop do not reach
    the end of the scan. *)
Lemma failing_session_does_not_end :
  Lifetime.session 20 (nRow_cols Sample.failing_tab + nCol_key Sample.failing_tab)
    Sample.failing_tab (select_from Sample.key_query) []
    {| Lifetime.blocks := 0; Lifetime.statements := 0 |}
  = None.
Proof. vm_compute. reflexivity. Qed.

(** X12, on the usage example: a full scan closed on its second row. *)
Lemma scan_closed_on_a_row_releases_all_witness :
  Lifetime.short_session 1 Sample.readme_tab (select_from Sample.key_query) []
    {| Lifetime.blocks := 0; Lifetime.statements := 0 |}
  = Lifetime.Done {| Lifetime.blocks := 0; Lifetime.statements := 0 |}.
Proof.
  apply (scan_closed_on_a_row_releases_all Sample.readme_db Sample.readme_args
           Sample.readme_tab Sample.readme_schema (Sample.key_prog Sample.table_r)
           (Sample.col_prog Sample.table_c)
           (Sample.pivot_prog Sample.table_r Sample.table_c)
           (Sample.key_prog Sample.table_r) (select_from Sample.key_query) [] 1
           [SqlInteger 2]).
  - vm_compute. reflexivity.
  - exists Sample.key_query, Sample.col_query, Sample.pivot_query.
    repeat split; reflexivity.
  - discriminate.
  - vm_compute. reflexivity.
  - repeat constructor.
  - reflexivity.
Defined.

(** X13, on the column-definition query whose first two rows share
    their key: the duplicate is reported and nothing stays in use. *)
Lemma pivotConnect_error_releases_all_witness :
  TableLifetime.pivotConnect Sample.dup_first_db Sample.readme_args
    {| Lifetime.blocks := 0; Lifetime.statements := 0 |}
  = Some (Lifetime.Done
            (ConnectError
               ("Pivot table column keys must be unique. Duplicate column key "
                  +++ dquote +++ "1" +++ dquote +++ "."),
             {| Lifetime.blocks := 0; Lifetime.statements := 0 |})).
Proof.
  apply pivotConnect_error_releases_all. vm_compute. reflexivity.
Defined.

(** X14, on the usage example: one row-key column and four pivot
    columns. *)
Lemma pivotConnect_then_pivotDisconnect_releases_all_witness :
  exists h1,
    TableLifetime.pivotConnect Sample.readme_db Sample.readme_args
      {| Lifetime.blocks := 0; Lifetime.statements := 0 |}
    = Some (Lifetime.Done (Connected Sample.readme_tab Sample.readme_schema, h1))
    /\ Lifetime.statements h1 = 0 + nCol_key Sample.readme_tab
    /\ Lifetime.blocks h1
       = 0 + 2 + nRow_cols Sample.readme_tab
         + array_blocks (nRow_cols Sample.readme_tab)
         + array_blocks (nCol_key Sample.readme_tab)
    /\ TableLifetime.pivotDisconnect Sample.readme_tab h1
       = Lifetime.Done {| Lifetime.blocks := 0; Lifetime.statements := 0 |}.
Proof.
  apply (pivotConnect_then_pivotDisconnect_releases_all Sample.readme_db Sample.readme_args
           Sample.readme_tab Sample.readme_schema
           {| Lifetime.blocks := 0; Lifetime.statements := 0 |}).
  vm_compute. reflexivity.
Defined.

(** X15, on the usage example with an engine that refuses the
    declaration: four statements stay prepared. *)
Lemma pivotConnect_refused_declaration_releases_nothing_witness :
  exists kp cp pp h1,
    Schema.queries MoreSamples.refusing_db Sample.readme_args kp cp pp
    /\ TableLifetime.pivotConnect MoreSamples.refusing_db Sample.readme_args
         {| Lifetime.blocks := 0; Lifetime.statements := 0 |}
       = Some (Lifetime.Done (DeclareRefused SQLITE_ERROR Sample.readme_schema, h1))
    /\ Lifetime.statements h1 = 0 + Z.of_nat (List.length (Schema.rows_of cp))
    /\ Lifetime.blocks h1 >= 0 + 2 + Z.of_nat (List.length (prog_columns kp)).
Proof.
  apply (pivotConnect_refused_declaration_releases_nothing MoreSamples.refusing_db
           Sample.readme_args SQLITE_ERROR Sample.readme_schema
           {| Lifetime.blocks := 0; Lifetime.statements := 0 |}).
  vm_compute. reflexivity.
Defined.
